(** * Phaser.Pointer: a shallow embedding of [src/input/Pointer.js]

    The file follows the source top to bottom: the data a Pointer holds,
    the collaborators it talks to (the input manager, the interactive
    candidates), then one definition per method, and finally the
    properties of the hit-test resolver and of the press / release
    lifecycle.

    JavaScript numbers are modelled by [Z]: every number the Pointer
    computes with is a millisecond time stamp, a pixel coordinate, a
    counter or a priority, combined with [+], [-], [*] and comparisons
    only.  [null] and [undefined] are [None].  An object is named by a
    natural number, its identity under [===]. *)

From Stdlib Require Import ZArith List Bool Lia Permutation.
Import ListNotations.
Local Open Scope Z_scope.
Local Open Scope bool_scope.

(** ** Numeric constants of the language *)

(** [Number.MAX_SAFE_INTEGER] *)
Definition MAX_SAFE_INTEGER : Z := 2 ^ 53 - 1.

(** [Number.MAX_VALUE], the largest finite double; it is an integer. *)
Definition MAX_VALUE : Z := (2 ^ 53 - 1) * 2 ^ 971.

(** Truthiness of a possibly missing number, as in [if (event['pointerId'])]. *)
Definition truthy (v : option Z) : bool :=
  match v with
  | Some n => negb (n =? 0)
  | None => false
  end.

(** [a || b] on possibly missing numbers: the first truthy operand, else the last. *)
Definition orElse (a b : option Z) : option Z :=
  if truthy a then a else b.

(** [typeof v !== 'undefined'] *)
Definition defined {A : Type} (v : option A) : bool :=
  match v with
  | Some _ => true
  | None => false
  end.

(** ** Geometry objects: [Phaser.Point] and [Phaser.Circle] *)

Module Point.

Record t : Type := mk { x : Z; y : Z }.

(** [point.setTo(x, y)] *)
Definition setTo (nx ny : Z) (_ : t) : t := mk nx ny.

End Point.

Module Circle.

Record t : Type := mk { x : Z; y : Z; diameter : Z }.

Definition set_x (v : Z) (c : t) : t := mk v (y c) (diameter c).
Definition set_y (v : Z) (c : t) : t := mk (x c) v (diameter c).

End Circle.

(** ** The DOM event handed to [start], [move], [leave] and [stop] *)

Module Event.

Record t : Type := mk {
  pointerId : option Z;
  identifier : option Z;
  target : option nat;
  button : option Z;
  clientX : Z;
  clientY : Z;
  pageX : Z;
  pageY : Z;
  screenX : Z;
  screenY : Z;
  movementX : option Z;
  mozMovementX : option Z;
  webkitMovementX : option Z;
  movementY : option Z;
  mozMovementY : option Z;
  webkitMovementY : option Z
}.

End Event.

(** ** Interactive candidates

    The entries of [game.input.interactiveItems].  Only what the Pointer
    reads or writes is kept: the identity of the object, its priority, the
    render order of its sprite ([sprite._cache[3]]), whether it asks for a
    pixel perfect test, and the scratch flag [checked]. *)

Module InputHandler.

Record t : Type := mk {
  hid : nat;
  priorityID : Z;
  renderOrderID : Z;
  pixelPerfect : bool;
  checked : bool
}.

Definition set_checked (v : bool) (h : t) : t :=
  mk (hid h) (priorityID h) (renderOrderID h) (pixelPerfect h) v.

(** Modelled from the spec: [validForInput] is a method of the candidate
    and its source is not part of [Pointer.js].  The spec (4.2) gives its
    contract: with [includePixelPerfect = false] a candidate that requires
    exact testing is never eligible; otherwise a candidate can displace
    the best so far only if its priority is strictly higher, or equal with
    a numerically lower render order. *)
Definition validForInput (h : t) (highestID highestRenderID : Z)
    (includePixelPerfect : bool) : bool :=
  if negb includePixelPerfect && pixelPerfect h then false
  else (highestID <? priorityID h)
       || ((priorityID h =? highestID) && (renderOrderID h <? highestRenderID)).

End InputHandler.

(** ** The input manager, [game.input]

    [Phaser.Input.MOUSE_OVERRIDES_TOUCH], [TOUCH_OVERRIDES_MOUSE] and
    [MOUSE_TOUCH_COMBINE] are the three values of [multiInputOverride]. *)

Inductive MultiInputOverride : Type :=
| MOUSE_OVERRIDES_TOUCH
| TOUCH_OVERRIDES_MOUSE
| MOUSE_TOUCH_COMBINE.

Module Pointer.

(** The fields set by the constructor, in the order of the source, and the
    three scratch fields [_highest...] that [processInteractiveObjects]
    creates.  [game] is passed explicitly to every method and [type] is a
    constant tag; neither is stored. *)
Record t : Type := mk {
  id : Z;
  exists_ : bool;
  identifier : option Z;
  pointerId : option Z;
  target : option nat;
  button : option Z;
  _holdSent : bool;
  _history : list Point.t;
  _nextDrop : Z;
  _stateReset : bool;
  withinGame : bool;
  clientX : Z;
  clientY : Z;
  pageX : Z;
  pageY : Z;
  screenX : Z;
  screenY : Z;
  rawMovementX : Z;
  rawMovementY : Z;
  movementX : Z;
  movementY : Z;
  x : Z;
  y : Z;
  isMouse : bool;
  isDown : bool;
  isUp : bool;
  timeDown : Z;
  timeUp : Z;
  previousTapTime : Z;
  totalTouches : Z;
  msSinceLastClick : Z;
  targetObject : option nat;
  active : bool;
  dirty : bool;
  position : Point.t;
  positionDown : Point.t;
  positionUp : Point.t;
  circle : Circle.t;
  _highestRenderOrderID : Z;
  _highestRenderObject : option nat;
  _highestInputPriorityID : Z
}.

Definition set_identifier (v : option Z) (r : t) : t :=
  mk (id r) (exists_ r) v (pointerId r) (target r) (button r) (_holdSent r)
    (_history r) (_nextDrop r) (_stateReset r) (withinGame r) (clientX r)
    (clientY r) (pageX r) (pageY r) (screenX r) (screenY r) (rawMovementX r)
    (rawMovementY r) (movementX r) (movementY r) (x r) (y r) (isMouse r)
    (isDown r) (isUp r) (timeDown r) (timeUp r) (previousTapTime r)
    (totalTouches r) (msSinceLastClick r) (targetObject r) (active r)
    (dirty r) (position r) (positionDown r) (positionUp r) (circle r)
    (_highestRenderOrderID r) (_highestRenderObject r)
    (_highestInputPriorityID r).

Definition set_pointerId (v : option Z) (r : t) : t :=
  mk (id r) (exists_ r) (identifier r) v (target r) (button r) (_holdSent r)
    (_history r) (_nextDrop r) (_stateReset r) (withinGame r) (clientX r)
    (clientY r) (pageX r) (pageY r) (screenX r) (screenY r) (rawMovementX r)
    (rawMovementY r) (movementX r) (movementY r) (x r) (y r) (isMouse r)
    (isDown r) (isUp r) (timeDown r) (timeUp r) (previousTapTime r)
    (totalTouches r) (msSinceLastClick r) (targetObject r) (active r)
    (dirty r) (position r) (positionDown r) (positionUp r) (circle r)
    (_highestRenderOrderID r) (_highestRenderObject r)
    (_highestInputPriorityID r).

Definition set_target (v : option nat) (r : t) : t :=
  mk (id r) (exists_ r) (identifier r) (pointerId r) v (button r)
    (_holdSent r) (_history r) (_nextDrop r) (_stateReset r) (withinGame r)
    (clientX r) (clientY r) (pageX r) (pageY r) (screenX r) (screenY r)
    (rawMovementX r) (rawMovementY r) (movementX r) (movementY r) (x r) (y r)
    (isMouse r) (isDown r) (isUp r) (timeDown r) (timeUp r)
    (previousTapTime r) (totalTouches r) (msSinceLastClick r) (targetObject r)
    (active r) (dirty r) (position r) (positionDown r) (positionUp r)
    (circle r) (_highestRenderOrderID r) (_highestRenderObject r)
    (_highestInputPriorityID r).

Definition set_button (v : option Z) (r : t) : t :=
  mk (id r) (exists_ r) (identifier r) (pointerId r) (target r) v
    (_holdSent r) (_history r) (_nextDrop r) (_stateReset r) (withinGame r)
    (clientX r) (clientY r) (pageX r) (pageY r) (screenX r) (screenY r)
    (rawMovementX r) (rawMovementY r) (movementX r) (movementY r) (x r) (y r)
    (isMouse r) (isDown r) (isUp r) (timeDown r) (timeUp r)
    (previousTapTime r) (totalTouches r) (msSinceLastClick r) (targetObject r)
    (active r) (dirty r) (position r) (positionDown r) (positionUp r)
    (circle r) (_highestRenderOrderID r) (_highestRenderObject r)
    (_highestInputPriorityID r).

Definition set__holdSent (v : bool) (r : t) : t :=
  mk (id r) (exists_ r) (identifier r) (pointerId r) (target r) (button r) v
    (_history r) (_nextDrop r) (_stateReset r) (withinGame r) (clientX r)
    (clientY r) (pageX r) (pageY r) (screenX r) (screenY r) (rawMovementX r)
    (rawMovementY r) (movementX r) (movementY r) (x r) (y r) (isMouse r)
    (isDown r) (isUp r) (timeDown r) (timeUp r) (previousTapTime r)
    (totalTouches r) (msSinceLastClick r) (targetObject r) (active r)
    (dirty r) (position r) (positionDown r) (positionUp r) (circle r)
    (_highestRenderOrderID r) (_highestRenderObject r)
    (_highestInputPriorityID r).

Definition set__history (v : list Point.t) (r : t) : t :=
  mk (id r) (exists_ r) (identifier r) (pointerId r) (target r) (button r)
    (_holdSent r) v (_nextDrop r) (_stateReset r) (withinGame r) (clientX r)
    (clientY r) (pageX r) (pageY r) (screenX r) (screenY r) (rawMovementX r)
    (rawMovementY r) (movementX r) (movementY r) (x r) (y r) (isMouse r)
    (isDown r) (isUp r) (timeDown r) (timeUp r) (previousTapTime r)
    (totalTouches r) (msSinceLastClick r) (targetObject r) (active r)
    (dirty r) (position r) (positionDown r) (positionUp r) (circle r)
    (_highestRenderOrderID r) (_highestRenderObject r)
    (_highestInputPriorityID r).

Definition set__nextDrop (v : Z) (r : t) : t :=
  mk (id r) (exists_ r) (identifier r) (pointerId r) (target r) (button r)
    (_holdSent r) (_history r) v (_stateReset r) (withinGame r) (clientX r)
    (clientY r) (pageX r) (pageY r) (screenX r) (screenY r) (rawMovementX r)
    (rawMovementY r) (movementX r) (movementY r) (x r) (y r) (isMouse r)
    (isDown r) (isUp r) (timeDown r) (timeUp r) (previousTapTime r)
    (totalTouches r) (msSinceLastClick r) (targetObject r) (active r)
    (dirty r) (position r) (positionDown r) (positionUp r) (circle r)
    (_highestRenderOrderID r) (_highestRenderObject r)
    (_highestInputPriorityID r).

Definition set__stateReset (v : bool) (r : t) : t :=
  mk (id r) (exists_ r) (identifier r) (pointerId r) (target r) (button r)
    (_holdSent r) (_history r) (_nextDrop r) v (withinGame r) (clientX r)
    (clientY r) (pageX r) (pageY r) (screenX r) (screenY r) (rawMovementX r)
    (rawMovementY r) (movementX r) (movementY r) (x r) (y r) (isMouse r)
    (isDown r) (isUp r) (timeDown r) (timeUp r) (previousTapTime r)
    (totalTouches r) (msSinceLastClick r) (targetObject r) (active r)
    (dirty r) (position r) (positionDown r) (positionUp r) (circle r)
    (_highestRenderOrderID r) (_highestRenderObject r)
    (_highestInputPriorityID r).

Definition set_withinGame (v : bool) (r : t) : t :=
  mk (id r) (exists_ r) (identifier r) (pointerId r) (target r) (button r)
    (_holdSent r) (_history r) (_nextDrop r) (_stateReset r) v (clientX r)
    (clientY r) (pageX r) (pageY r) (screenX r) (screenY r) (rawMovementX r)
    (rawMovementY r) (movementX r) (movementY r) (x r) (y r) (isMouse r)
    (isDown r) (isUp r) (timeDown r) (timeUp r) (previousTapTime r)
    (totalTouches r) (msSinceLastClick r) (targetObject r) (active r)
    (dirty r) (position r) (positionDown r) (positionUp r) (circle r)
    (_highestRenderOrderID r) (_highestRenderObject r)
    (_highestInputPriorityID r).

Definition set_clientX (v : Z) (r : t) : t :=
  mk (id r) (exists_ r) (identifier r) (pointerId r) (target r) (button r)
    (_holdSent r) (_history r) (_nextDrop r) (_stateReset r) (withinGame r) v
    (clientY r) (pageX r) (pageY r) (screenX r) (screenY r) (rawMovementX r)
    (rawMovementY r) (movementX r) (movementY r) (x r) (y r) (isMouse r)
    (isDown r) (isUp r) (timeDown r) (timeUp r) (previousTapTime r)
    (totalTouches r) (msSinceLastClick r) (targetObject r) (active r)
    (dirty r) (position r) (positionDown r) (positionUp r) (circle r)
    (_highestRenderOrderID r) (_highestRenderObject r)
    (_highestInputPriorityID r).

Definition set_clientY (v : Z) (r : t) : t :=
  mk (id r) (exists_ r) (identifier r) (pointerId r) (target r) (button r)
    (_holdSent r) (_history r) (_nextDrop r) (_stateReset r) (withinGame r)
    (clientX r) v (pageX r) (pageY r) (screenX r) (screenY r) (rawMovementX r)
    (rawMovementY r) (movementX r) (movementY r) (x r) (y r) (isMouse r)
    (isDown r) (isUp r) (timeDown r) (timeUp r) (previousTapTime r)
    (totalTouches r) (msSinceLastClick r) (targetObject r) (active r)
    (dirty r) (position r) (positionDown r) (positionUp r) (circle r)
    (_highestRenderOrderID r) (_highestRenderObject r)
    (_highestInputPriorityID r).

Definition set_pageX (v : Z) (r : t) : t :=
  mk (id r) (exists_ r) (identifier r) (pointerId r) (target r) (button r)
    (_holdSent r) (_history r) (_nextDrop r) (_stateReset r) (withinGame r)
    (clientX r) (clientY r) v (pageY r) (screenX r) (screenY r)
    (rawMovementX r) (rawMovementY r) (movementX r) (movementY r) (x r) (y r)
    (isMouse r) (isDown r) (isUp r) (timeDown r) (timeUp r)
    (previousTapTime r) (totalTouches r) (msSinceLastClick r) (targetObject r)
    (active r) (dirty r) (position r) (positionDown r) (positionUp r)
    (circle r) (_highestRenderOrderID r) (_highestRenderObject r)
    (_highestInputPriorityID r).

Definition set_pageY (v : Z) (r : t) : t :=
  mk (id r) (exists_ r) (identifier r) (pointerId r) (target r) (button r)
    (_holdSent r) (_history r) (_nextDrop r) (_stateReset r) (withinGame r)
    (clientX r) (clientY r) (pageX r) v (screenX r) (screenY r)
    (rawMovementX r) (rawMovementY r) (movementX r) (movementY r) (x r) (y r)
    (isMouse r) (isDown r) (isUp r) (timeDown r) (timeUp r)
    (previousTapTime r) (totalTouches r) (msSinceLastClick r) (targetObject r)
    (active r) (dirty r) (position r) (positionDown r) (positionUp r)
    (circle r) (_highestRenderOrderID r) (_highestRenderObject r)
    (_highestInputPriorityID r).

Definition set_screenX (v : Z) (r : t) : t :=
  mk (id r) (exists_ r) (identifier r) (pointerId r) (target r) (button r)
    (_holdSent r) (_history r) (_nextDrop r) (_stateReset r) (withinGame r)
    (clientX r) (clientY r) (pageX r) (pageY r) v (screenY r) (rawMovementX r)
    (rawMovementY r) (movementX r) (movementY r) (x r) (y r) (isMouse r)
    (isDown r) (isUp r) (timeDown r) (timeUp r) (previousTapTime r)
    (totalTouches r) (msSinceLastClick r) (targetObject r) (active r)
    (dirty r) (position r) (positionDown r) (positionUp r) (circle r)
    (_highestRenderOrderID r) (_highestRenderObject r)
    (_highestInputPriorityID r).

Definition set_screenY (v : Z) (r : t) : t :=
  mk (id r) (exists_ r) (identifier r) (pointerId r) (target r) (button r)
    (_holdSent r) (_history r) (_nextDrop r) (_stateReset r) (withinGame r)
    (clientX r) (clientY r) (pageX r) (pageY r) (screenX r) v (rawMovementX r)
    (rawMovementY r) (movementX r) (movementY r) (x r) (y r) (isMouse r)
    (isDown r) (isUp r) (timeDown r) (timeUp r) (previousTapTime r)
    (totalTouches r) (msSinceLastClick r) (targetObject r) (active r)
    (dirty r) (position r) (positionDown r) (positionUp r) (circle r)
    (_highestRenderOrderID r) (_highestRenderObject r)
    (_highestInputPriorityID r).

Definition set_rawMovementX (v : Z) (r : t) : t :=
  mk (id r) (exists_ r) (identifier r) (pointerId r) (target r) (button r)
    (_holdSent r) (_history r) (_nextDrop r) (_stateReset r) (withinGame r)
    (clientX r) (clientY r) (pageX r) (pageY r) (screenX r) (screenY r) v
    (rawMovementY r) (movementX r) (movementY r) (x r) (y r) (isMouse r)
    (isDown r) (isUp r) (timeDown r) (timeUp r) (previousTapTime r)
    (totalTouches r) (msSinceLastClick r) (targetObject r) (active r)
    (dirty r) (position r) (positionDown r) (positionUp r) (circle r)
    (_highestRenderOrderID r) (_highestRenderObject r)
    (_highestInputPriorityID r).

Definition set_rawMovementY (v : Z) (r : t) : t :=
  mk (id r) (exists_ r) (identifier r) (pointerId r) (target r) (button r)
    (_holdSent r) (_history r) (_nextDrop r) (_stateReset r) (withinGame r)
    (clientX r) (clientY r) (pageX r) (pageY r) (screenX r) (screenY r)
    (rawMovementX r) v (movementX r) (movementY r) (x r) (y r) (isMouse r)
    (isDown r) (isUp r) (timeDown r) (timeUp r) (previousTapTime r)
    (totalTouches r) (msSinceLastClick r) (targetObject r) (active r)
    (dirty r) (position r) (positionDown r) (positionUp r) (circle r)
    (_highestRenderOrderID r) (_highestRenderObject r)
    (_highestInputPriorityID r).

Definition set_movementX (v : Z) (r : t) : t :=
  mk (id r) (exists_ r) (identifier r) (pointerId r) (target r) (button r)
    (_holdSent r) (_history r) (_nextDrop r) (_stateReset r) (withinGame r)
    (clientX r) (clientY r) (pageX r) (pageY r) (screenX r) (screenY r)
    (rawMovementX r) (rawMovementY r) v (movementY r) (x r) (y r) (isMouse r)
    (isDown r) (isUp r) (timeDown r) (timeUp r) (previousTapTime r)
    (totalTouches r) (msSinceLastClick r) (targetObject r) (active r)
    (dirty r) (position r) (positionDown r) (positionUp r) (circle r)
    (_highestRenderOrderID r) (_highestRenderObject r)
    (_highestInputPriorityID r).

Definition set_movementY (v : Z) (r : t) : t :=
  mk (id r) (exists_ r) (identifier r) (pointerId r) (target r) (button r)
    (_holdSent r) (_history r) (_nextDrop r) (_stateReset r) (withinGame r)
    (clientX r) (clientY r) (pageX r) (pageY r) (screenX r) (screenY r)
    (rawMovementX r) (rawMovementY r) (movementX r) v (x r) (y r) (isMouse r)
    (isDown r) (isUp r) (timeDown r) (timeUp r) (previousTapTime r)
    (totalTouches r) (msSinceLastClick r) (targetObject r) (active r)
    (dirty r) (position r) (positionDown r) (positionUp r) (circle r)
    (_highestRenderOrderID r) (_highestRenderObject r)
    (_highestInputPriorityID r).

Definition set_x (v : Z) (r : t) : t :=
  mk (id r) (exists_ r) (identifier r) (pointerId r) (target r) (button r)
    (_holdSent r) (_history r) (_nextDrop r) (_stateReset r) (withinGame r)
    (clientX r) (clientY r) (pageX r) (pageY r) (screenX r) (screenY r)
    (rawMovementX r) (rawMovementY r) (movementX r) (movementY r) v (y r)
    (isMouse r) (isDown r) (isUp r) (timeDown r) (timeUp r)
    (previousTapTime r) (totalTouches r) (msSinceLastClick r) (targetObject r)
    (active r) (dirty r) (position r) (positionDown r) (positionUp r)
    (circle r) (_highestRenderOrderID r) (_highestRenderObject r)
    (_highestInputPriorityID r).

Definition set_y (v : Z) (r : t) : t :=
  mk (id r) (exists_ r) (identifier r) (pointerId r) (target r) (button r)
    (_holdSent r) (_history r) (_nextDrop r) (_stateReset r) (withinGame r)
    (clientX r) (clientY r) (pageX r) (pageY r) (screenX r) (screenY r)
    (rawMovementX r) (rawMovementY r) (movementX r) (movementY r) (x r) v
    (isMouse r) (isDown r) (isUp r) (timeDown r) (timeUp r)
    (previousTapTime r) (totalTouches r) (msSinceLastClick r) (targetObject r)
    (active r) (dirty r) (position r) (positionDown r) (positionUp r)
    (circle r) (_highestRenderOrderID r) (_highestRenderObject r)
    (_highestInputPriorityID r).

Definition set_isDown (v : bool) (r : t) : t :=
  mk (id r) (exists_ r) (identifier r) (pointerId r) (target r) (button r)
    (_holdSent r) (_history r) (_nextDrop r) (_stateReset r) (withinGame r)
    (clientX r) (clientY r) (pageX r) (pageY r) (screenX r) (screenY r)
    (rawMovementX r) (rawMovementY r) (movementX r) (movementY r) (x r) (y r)
    (isMouse r) v (isUp r) (timeDown r) (timeUp r) (previousTapTime r)
    (totalTouches r) (msSinceLastClick r) (targetObject r) (active r)
    (dirty r) (position r) (positionDown r) (positionUp r) (circle r)
    (_highestRenderOrderID r) (_highestRenderObject r)
    (_highestInputPriorityID r).

Definition set_isUp (v : bool) (r : t) : t :=
  mk (id r) (exists_ r) (identifier r) (pointerId r) (target r) (button r)
    (_holdSent r) (_history r) (_nextDrop r) (_stateReset r) (withinGame r)
    (clientX r) (clientY r) (pageX r) (pageY r) (screenX r) (screenY r)
    (rawMovementX r) (rawMovementY r) (movementX r) (movementY r) (x r) (y r)
    (isMouse r) (isDown r) v (timeDown r) (timeUp r) (previousTapTime r)
    (totalTouches r) (msSinceLastClick r) (targetObject r) (active r)
    (dirty r) (position r) (positionDown r) (positionUp r) (circle r)
    (_highestRenderOrderID r) (_highestRenderObject r)
    (_highestInputPriorityID r).

Definition set_timeDown (v : Z) (r : t) : t :=
  mk (id r) (exists_ r) (identifier r) (pointerId r) (target r) (button r)
    (_holdSent r) (_history r) (_nextDrop r) (_stateReset r) (withinGame r)
    (clientX r) (clientY r) (pageX r) (pageY r) (screenX r) (screenY r)
    (rawMovementX r) (rawMovementY r) (movementX r) (movementY r) (x r) (y r)
    (isMouse r) (isDown r) (isUp r) v (timeUp r) (previousTapTime r)
    (totalTouches r) (msSinceLastClick r) (targetObject r) (active r)
    (dirty r) (position r) (positionDown r) (positionUp r) (circle r)
    (_highestRenderOrderID r) (_highestRenderObject r)
    (_highestInputPriorityID r).

Definition set_timeUp (v : Z) (r : t) : t :=
  mk (id r) (exists_ r) (identifier r) (pointerId r) (target r) (button r)
    (_holdSent r) (_history r) (_nextDrop r) (_stateReset r) (withinGame r)
    (clientX r) (clientY r) (pageX r) (pageY r) (screenX r) (screenY r)
    (rawMovementX r) (rawMovementY r) (movementX r) (movementY r) (x r) (y r)
    (isMouse r) (isDown r) (isUp r) (timeDown r) v (previousTapTime r)
    (totalTouches r) (msSinceLastClick r) (targetObject r) (active r)
    (dirty r) (position r) (positionDown r) (positionUp r) (circle r)
    (_highestRenderOrderID r) (_highestRenderObject r)
    (_highestInputPriorityID r).

Definition set_previousTapTime (v : Z) (r : t) : t :=
  mk (id r) (exists_ r) (identifier r) (pointerId r) (target r) (button r)
    (_holdSent r) (_history r) (_nextDrop r) (_stateReset r) (withinGame r)
    (clientX r) (clientY r) (pageX r) (pageY r) (screenX r) (screenY r)
    (rawMovementX r) (rawMovementY r) (movementX r) (movementY r) (x r) (y r)
    (isMouse r) (isDown r) (isUp r) (timeDown r) (timeUp r) v (totalTouches r)
    (msSinceLastClick r) (targetObject r) (active r) (dirty r) (position r)
    (positionDown r) (positionUp r) (circle r) (_highestRenderOrderID r)
    (_highestRenderObject r) (_highestInputPriorityID r).

Definition set_totalTouches (v : Z) (r : t) : t :=
  mk (id r) (exists_ r) (identifier r) (pointerId r) (target r) (button r)
    (_holdSent r) (_history r) (_nextDrop r) (_stateReset r) (withinGame r)
    (clientX r) (clientY r) (pageX r) (pageY r) (screenX r) (screenY r)
    (rawMovementX r) (rawMovementY r) (movementX r) (movementY r) (x r) (y r)
    (isMouse r) (isDown r) (isUp r) (timeDown r) (timeUp r)
    (previousTapTime r) v (msSinceLastClick r) (targetObject r) (active r)
    (dirty r) (position r) (positionDown r) (positionUp r) (circle r)
    (_highestRenderOrderID r) (_highestRenderObject r)
    (_highestInputPriorityID r).

Definition set_msSinceLastClick (v : Z) (r : t) : t :=
  mk (id r) (exists_ r) (identifier r) (pointerId r) (target r) (button r)
    (_holdSent r) (_history r) (_nextDrop r) (_stateReset r) (withinGame r)
    (clientX r) (clientY r) (pageX r) (pageY r) (screenX r) (screenY r)
    (rawMovementX r) (rawMovementY r) (movementX r) (movementY r) (x r) (y r)
    (isMouse r) (isDown r) (isUp r) (timeDown r) (timeUp r)
    (previousTapTime r) (totalTouches r) v (targetObject r) (active r)
    (dirty r) (position r) (positionDown r) (positionUp r) (circle r)
    (_highestRenderOrderID r) (_highestRenderObject r)
    (_highestInputPriorityID r).

Definition set_targetObject (v : option nat) (r : t) : t :=
  mk (id r) (exists_ r) (identifier r) (pointerId r) (target r) (button r)
    (_holdSent r) (_history r) (_nextDrop r) (_stateReset r) (withinGame r)
    (clientX r) (clientY r) (pageX r) (pageY r) (screenX r) (screenY r)
    (rawMovementX r) (rawMovementY r) (movementX r) (movementY r) (x r) (y r)
    (isMouse r) (isDown r) (isUp r) (timeDown r) (timeUp r)
    (previousTapTime r) (totalTouches r) (msSinceLastClick r) v (active r)
    (dirty r) (position r) (positionDown r) (positionUp r) (circle r)
    (_highestRenderOrderID r) (_highestRenderObject r)
    (_highestInputPriorityID r).

Definition set_active (v : bool) (r : t) : t :=
  mk (id r) (exists_ r) (identifier r) (pointerId r) (target r) (button r)
    (_holdSent r) (_history r) (_nextDrop r) (_stateReset r) (withinGame r)
    (clientX r) (clientY r) (pageX r) (pageY r) (screenX r) (screenY r)
    (rawMovementX r) (rawMovementY r) (movementX r) (movementY r) (x r) (y r)
    (isMouse r) (isDown r) (isUp r) (timeDown r) (timeUp r)
    (previousTapTime r) (totalTouches r) (msSinceLastClick r) (targetObject r)
    v (dirty r) (position r) (positionDown r) (positionUp r) (circle r)
    (_highestRenderOrderID r) (_highestRenderObject r)
    (_highestInputPriorityID r).

Definition set_dirty (v : bool) (r : t) : t :=
  mk (id r) (exists_ r) (identifier r) (pointerId r) (target r) (button r)
    (_holdSent r) (_history r) (_nextDrop r) (_stateReset r) (withinGame r)
    (clientX r) (clientY r) (pageX r) (pageY r) (screenX r) (screenY r)
    (rawMovementX r) (rawMovementY r) (movementX r) (movementY r) (x r) (y r)
    (isMouse r) (isDown r) (isUp r) (timeDown r) (timeUp r)
    (previousTapTime r) (totalTouches r) (msSinceLastClick r) (targetObject r)
    (active r) v (position r) (positionDown r) (positionUp r) (circle r)
    (_highestRenderOrderID r) (_highestRenderObject r)
    (_highestInputPriorityID r).

Definition set_position (v : Point.t) (r : t) : t :=
  mk (id r) (exists_ r) (identifier r) (pointerId r) (target r) (button r)
    (_holdSent r) (_history r) (_nextDrop r) (_stateReset r) (withinGame r)
    (clientX r) (clientY r) (pageX r) (pageY r) (screenX r) (screenY r)
    (rawMovementX r) (rawMovementY r) (movementX r) (movementY r) (x r) (y r)
    (isMouse r) (isDown r) (isUp r) (timeDown r) (timeUp r)
    (previousTapTime r) (totalTouches r) (msSinceLastClick r) (targetObject r)
    (active r) (dirty r) v (positionDown r) (positionUp r) (circle r)
    (_highestRenderOrderID r) (_highestRenderObject r)
    (_highestInputPriorityID r).

Definition set_positionDown (v : Point.t) (r : t) : t :=
  mk (id r) (exists_ r) (identifier r) (pointerId r) (target r) (button r)
    (_holdSent r) (_history r) (_nextDrop r) (_stateReset r) (withinGame r)
    (clientX r) (clientY r) (pageX r) (pageY r) (screenX r) (screenY r)
    (rawMovementX r) (rawMovementY r) (movementX r) (movementY r) (x r) (y r)
    (isMouse r) (isDown r) (isUp r) (timeDown r) (timeUp r)
    (previousTapTime r) (totalTouches r) (msSinceLastClick r) (targetObject r)
    (active r) (dirty r) (position r) v (positionUp r) (circle r)
    (_highestRenderOrderID r) (_highestRenderObject r)
    (_highestInputPriorityID r).

Definition set_positionUp (v : Point.t) (r : t) : t :=
  mk (id r) (exists_ r) (identifier r) (pointerId r) (target r) (button r)
    (_holdSent r) (_history r) (_nextDrop r) (_stateReset r) (withinGame r)
    (clientX r) (clientY r) (pageX r) (pageY r) (screenX r) (screenY r)
    (rawMovementX r) (rawMovementY r) (movementX r) (movementY r) (x r) (y r)
    (isMouse r) (isDown r) (isUp r) (timeDown r) (timeUp r)
    (previousTapTime r) (totalTouches r) (msSinceLastClick r) (targetObject r)
    (active r) (dirty r) (position r) (positionDown r) v (circle r)
    (_highestRenderOrderID r) (_highestRenderObject r)
    (_highestInputPriorityID r).

Definition set_circle (v : Circle.t) (r : t) : t :=
  mk (id r) (exists_ r) (identifier r) (pointerId r) (target r) (button r)
    (_holdSent r) (_history r) (_nextDrop r) (_stateReset r) (withinGame r)
    (clientX r) (clientY r) (pageX r) (pageY r) (screenX r) (screenY r)
    (rawMovementX r) (rawMovementY r) (movementX r) (movementY r) (x r) (y r)
    (isMouse r) (isDown r) (isUp r) (timeDown r) (timeUp r)
    (previousTapTime r) (totalTouches r) (msSinceLastClick r) (targetObject r)
    (active r) (dirty r) (position r) (positionDown r) (positionUp r) v
    (_highestRenderOrderID r) (_highestRenderObject r)
    (_highestInputPriorityID r).

Definition set__highestRenderOrderID (v : Z) (r : t) : t :=
  mk (id r) (exists_ r) (identifier r) (pointerId r) (target r) (button r)
    (_holdSent r) (_history r) (_nextDrop r) (_stateReset r) (withinGame r)
    (clientX r) (clientY r) (pageX r) (pageY r) (screenX r) (screenY r)
    (rawMovementX r) (rawMovementY r) (movementX r) (movementY r) (x r) (y r)
    (isMouse r) (isDown r) (isUp r) (timeDown r) (timeUp r)
    (previousTapTime r) (totalTouches r) (msSinceLastClick r) (targetObject r)
    (active r) (dirty r) (position r) (positionDown r) (positionUp r)
    (circle r) v (_highestRenderObject r) (_highestInputPriorityID r).

Definition set__highestRenderObject (v : option nat) (r : t) : t :=
  mk (id r) (exists_ r) (identifier r) (pointerId r) (target r) (button r)
    (_holdSent r) (_history r) (_nextDrop r) (_stateReset r) (withinGame r)
    (clientX r) (clientY r) (pageX r) (pageY r) (screenX r) (screenY r)
    (rawMovementX r) (rawMovementY r) (movementX r) (movementY r) (x r) (y r)
    (isMouse r) (isDown r) (isUp r) (timeDown r) (timeUp r)
    (previousTapTime r) (totalTouches r) (msSinceLastClick r) (targetObject r)
    (active r) (dirty r) (position r) (positionDown r) (positionUp r)
    (circle r) (_highestRenderOrderID r) v (_highestInputPriorityID r).

Definition set__highestInputPriorityID (v : Z) (r : t) : t :=
  mk (id r) (exists_ r) (identifier r) (pointerId r) (target r) (button r)
    (_holdSent r) (_history r) (_nextDrop r) (_stateReset r) (withinGame r)
    (clientX r) (clientY r) (pageX r) (pageY r) (screenX r) (screenY r)
    (rawMovementX r) (rawMovementY r) (movementX r) (movementY r) (x r) (y r)
    (isMouse r) (isDown r) (isUp r) (timeDown r) (timeUp r)
    (previousTapTime r) (totalTouches r) (msSinceLastClick r) (targetObject r)
    (active r) (dirty r) (position r) (positionDown r) (positionUp r)
    (circle r) (_highestRenderOrderID r) (_highestRenderObject r) v.

End Pointer.

Module Input.

(** What the Pointer reads and writes of the input manager.  [scale] is the
    page-to-scene factor, [mouse_locked] is [input.mouse.locked],
    [moveCallbacks] names the registered move observers and
    [interactiveItems] is the list behind the candidate container. *)
Record t : Type := mk {
  x : Z;
  y : Z;
  position : Point.t;
  circle : Circle.t;
  activePointer : option Z;
  multiInputOverride : MultiInputOverride;
  currentPointers : Z;
  holdRate : Z;
  tapRate : Z;
  doubleTapRate : Z;
  justPressedRate : Z;
  justReleasedRate : Z;
  recordPointerHistory : bool;
  recordRate : Z;
  recordLimit : Z;
  pollLocked : bool;
  mouse_locked : bool;
  scale : Point.t;
  moveCallbacks : list nat;
  interactiveItems : list InputHandler.t
}.

Definition set_x (v : Z) (r : t) : t :=
  mk v (y r) (position r) (circle r) (activePointer r) (multiInputOverride r)
    (currentPointers r) (holdRate r) (tapRate r) (doubleTapRate r)
    (justPressedRate r) (justReleasedRate r) (recordPointerHistory r)
    (recordRate r) (recordLimit r) (pollLocked r) (mouse_locked r) (scale r)
    (moveCallbacks r) (interactiveItems r).

Definition set_y (v : Z) (r : t) : t :=
  mk (x r) v (position r) (circle r) (activePointer r) (multiInputOverride r)
    (currentPointers r) (holdRate r) (tapRate r) (doubleTapRate r)
    (justPressedRate r) (justReleasedRate r) (recordPointerHistory r)
    (recordRate r) (recordLimit r) (pollLocked r) (mouse_locked r) (scale r)
    (moveCallbacks r) (interactiveItems r).

Definition set_position (v : Point.t) (r : t) : t :=
  mk (x r) (y r) v (circle r) (activePointer r) (multiInputOverride r)
    (currentPointers r) (holdRate r) (tapRate r) (doubleTapRate r)
    (justPressedRate r) (justReleasedRate r) (recordPointerHistory r)
    (recordRate r) (recordLimit r) (pollLocked r) (mouse_locked r) (scale r)
    (moveCallbacks r) (interactiveItems r).

Definition set_circle (v : Circle.t) (r : t) : t :=
  mk (x r) (y r) (position r) v (activePointer r) (multiInputOverride r)
    (currentPointers r) (holdRate r) (tapRate r) (doubleTapRate r)
    (justPressedRate r) (justReleasedRate r) (recordPointerHistory r)
    (recordRate r) (recordLimit r) (pollLocked r) (mouse_locked r) (scale r)
    (moveCallbacks r) (interactiveItems r).

Definition set_activePointer (v : option Z) (r : t) : t :=
  mk (x r) (y r) (position r) (circle r) v (multiInputOverride r)
    (currentPointers r) (holdRate r) (tapRate r) (doubleTapRate r)
    (justPressedRate r) (justReleasedRate r) (recordPointerHistory r)
    (recordRate r) (recordLimit r) (pollLocked r) (mouse_locked r) (scale r)
    (moveCallbacks r) (interactiveItems r).

Definition set_currentPointers (v : Z) (r : t) : t :=
  mk (x r) (y r) (position r) (circle r) (activePointer r)
    (multiInputOverride r) v (holdRate r) (tapRate r) (doubleTapRate r)
    (justPressedRate r) (justReleasedRate r) (recordPointerHistory r)
    (recordRate r) (recordLimit r) (pollLocked r) (mouse_locked r) (scale r)
    (moveCallbacks r) (interactiveItems r).

Definition set_interactiveItems (v : list InputHandler.t) (r : t) : t :=
  mk (x r) (y r) (position r) (circle r) (activePointer r)
    (multiInputOverride r) (currentPointers r) (holdRate r) (tapRate r)
    (doubleTapRate r) (justPressedRate r) (justReleasedRate r)
    (recordPointerHistory r) (recordRate r) (recordLimit r) (pollLocked r)
    (mouse_locked r) (scale r) (moveCallbacks r) v.

End Input.


(** ** The running game, as far as the Pointer sees it *)

Module Game.

(** [time_now] is [game.time.now], [stage_offset] is [game.stage.offset],
    [scale_bounds_contains] is [game.scale.bounds.contains] and
    [world_camera] holds [game.world.camera.x] and [.y]. *)
Record t : Type := mk {
  time_now : Z;
  paused : bool;
  stage_offset : Point.t;
  scale_bounds_contains : Z -> Z -> bool;
  world_camera : Point.t;
  input : Input.t
}.

Definition set_time_now (v : Z) (g : t) : t :=
  mk v (paused g) (stage_offset g) (scale_bounds_contains g) (world_camera g)
    (input g).

Definition set_input (v : Input.t) (g : t) : t :=
  mk (time_now g) (paused g) (stage_offset g) (scale_bounds_contains g)
    (world_camera g) v.

End Game.

(** ** The candidate container *)

(** Modelled from the spec: the container behind
    [game.input.interactiveItems] ([first], [next], [total], [setAll],
    [callAll]) is not part of [Pointer.js].  The spec (4.2) describes it as
    a traversal that visits every candidate once, in the container's own
    order, and (4.1) as the collection that a release is broadcast to.  It
    is the list [Input.interactiveItems], visited from its head. *)
Definition total (items : list InputHandler.t) : Z :=
  Z.of_nat (length items).

(** [items.setAll('checked', v)] *)
Definition setAllChecked (v : bool) (items : list InputHandler.t)
    : list InputHandler.t :=
  map (InputHandler.set_checked v) items.

(** ** Calls that leave the Pointer

    Every call the Pointer makes on a collaborator is recorded, in program
    order.  [AssignTargetObject] is not a call: it records a write to
    [this.targetObject], so that the number of writes can be counted. *)

Inductive Action : Type :=
| CheckPointerDown (h : nat) (fastTest : bool)
| CheckPointerOver (h : nat) (fastTest : bool)
| PointerOverHandler (h : nat)
| PointerOutHandler (h : nat)
| UpdateHandler (h : nat)
| TouchedHandler (h : nat)
| ReleasedHandler (h : nat)
| MoveCallback (cb : nat) (x y : Z) (fromClick : bool)
| OnDown
| OnUp
| OnTap (doubleTap : bool)
| OnHold
| ResetSpeed (x y : Z)
| PreventDefault
| AssignTargetObject (v : option nat).

(** What the candidates answer.  Their code is outside [Pointer.js]; the
    tests see the resolved position of the pointer and the [fastTest]
    flag, [update_] answers [false] when the object's [update(pointer)]
    returns [false], [isDragged] reads the property of that name. *)
Record Externals : Type := mkExternals {
  checkPointerDown : nat -> Point.t -> bool -> bool;
  checkPointerOver : nat -> Point.t -> bool -> bool;
  update_ : nat -> Point.t -> bool;
  isDragged : nat -> bool
}.

(** ** A small state-and-trace monad for the method bodies *)

Record State : Type := mkState { this : Pointer.t; game : Game.t }.

Definition M (A : Type) : Type := State -> A * State * list Action.

Definition ret {A : Type} (a : A) : M A := fun s => (a, s, []).

Definition bind {A B : Type} (m : M A) (k : A -> M B) : M B :=
  fun s =>
    let '(a, s1, t1) := m s in
    let '(b, s2, t2) := k a s1 in
    (b, s2, t1 ++ t2).

Declare Scope js_scope.
Delimit Scope js_scope with js.
Notation "x <- m ;; k" := (bind m (fun x => k))
  (at level 61, m at next level, right associativity) : js_scope.
Notation "m ;; k" := (bind m (fun _ => k))
  (at level 61, right associativity) : js_scope.
Local Open Scope js_scope.

Definition self : M Pointer.t := fun s => (this s, s, []).
Definition theGame : M Game.t := fun s => (game s, s, []).
Definition current : M State := fun s => (s, s, []).

(** [this.f = v] *)
Definition assign (f : Pointer.t -> Pointer.t) : M unit :=
  fun s => (tt, mkState (f (this s)) (game s), []).

(** [this.game.input.f = v] *)
Definition assignInput (f : Input.t -> Input.t) : M unit :=
  fun s =>
    (tt, mkState (this s) (Game.set_input (f (Game.input (game s))) (game s)), []).

Definition emit (a : Action) : M unit := fun s => (tt, s, [a]).

Definition when (b : bool) (m : M unit) : M unit :=
  if b then m else ret tt.

Fixpoint forEach {A : Type} (l : list A) (f : A -> M unit) : M unit :=
  match l with
  | [] => ret tt
  | a :: l' => f a ;; forEach l' f
  end.

Definition result {A : Type} (r : A * State * list Action) : A := fst (fst r).
Definition final {A : Type} (r : A * State * list Action) : State := snd (fst r).
Definition trace {A : Type} (r : A * State * list Action) : list Action := snd r.

(** [this.targetObject = v] *)
Definition assignTargetObject (v : option nat) : M unit :=
  assign (Pointer.set_targetObject v) ;; emit (AssignTargetObject v).

(** ** The constructor

    The three [_highest...] fields do not exist before the first call of
    [processInteractiveObjects], which writes them before it reads them;
    they start here with the values that call gives them. *)

Definition newPointer (id : Z) : Pointer.t :=
  {| Pointer.id := id;
     Pointer.exists_ := true;
     Pointer.identifier := Some 0;
     Pointer.pointerId := None;
     Pointer.target := None;
     Pointer.button := None;
     Pointer._holdSent := false;
     Pointer._history := [];
     Pointer._nextDrop := 0;
     Pointer._stateReset := false;
     Pointer.withinGame := false;
     Pointer.clientX := -1;
     Pointer.clientY := -1;
     Pointer.pageX := -1;
     Pointer.pageY := -1;
     Pointer.screenX := -1;
     Pointer.screenY := -1;
     Pointer.rawMovementX := 0;
     Pointer.rawMovementY := 0;
     Pointer.movementX := 0;
     Pointer.movementY := 0;
     Pointer.x := -1;
     Pointer.y := -1;
     Pointer.isMouse := (id =? 0);
     Pointer.isDown := false;
     Pointer.isUp := true;
     Pointer.timeDown := 0;
     Pointer.timeUp := 0;
     Pointer.previousTapTime := 0;
     Pointer.totalTouches := 0;
     Pointer.msSinceLastClick := MAX_VALUE;
     Pointer.targetObject := None;
     Pointer.active := false;
     Pointer.dirty := false;
     Pointer.position := Point.mk 0 0;
     Pointer.positionDown := Point.mk 0 0;
     Pointer.positionUp := Point.mk 0 0;
     Pointer.circle := Circle.mk 0 0 44;
     Pointer._highestRenderOrderID := MAX_SAFE_INTEGER;
     Pointer._highestRenderObject := None;
     Pointer._highestInputPriorityID := -1 |}.

(** ** Getters *)

(** [pointer.duration] *)
Definition duration (s : State) : Z :=
  if Pointer.isUp (this s) then -1
  else Game.time_now (game s) - Pointer.timeDown (this s).

Definition worldX (s : State) : Z :=
  Point.x (Game.world_camera (game s)) + Pointer.x (this s).

Definition worldY (s : State) : Z :=
  Point.y (Game.world_camera (game s)) + Pointer.y (this s).

(** The test that guards every broadcast of the input manager:
    [multiInputOverride === MOUSE_OVERRIDES_TOUCH ||
     multiInputOverride === MOUSE_TOUCH_COMBINE ||
     (multiInputOverride === TOUCH_OVERRIDES_MOUSE && currentPointers === 0)] *)
Definition overridePermits (g : Game.t) : bool :=
  match Input.multiInputOverride (Game.input g) with
  | MOUSE_OVERRIDES_TOUCH => true
  | MOUSE_TOUCH_COMBINE => true
  | TOUCH_OVERRIDES_MOUSE => Input.currentPointers (Game.input g) =? 0
  end.

(** [v || d] for a possibly missing number [v] and a number [d]. *)
Definition valueOr (v : option Z) (d : Z) : Z :=
  match v with
  | Some n => if n =? 0 then d else n
  | None => d
  end.

(** ** The methods of [Phaser.Pointer.prototype] *)

Section Methods.

Variable ext : Externals.

(** [(fromClick && node.checkPointerDown(this, fastTest)) ||
     (!fromClick && node.checkPointerOver(this, fastTest))] *)
Definition checkPointer (fromClick : bool) (node : InputHandler.t)
    (fastTest : bool) : M bool :=
  p <- self ;;
  if fromClick then
    emit (CheckPointerDown (InputHandler.hid node) fastTest) ;;
    ret (checkPointerDown ext (InputHandler.hid node) (Pointer.position p) fastTest)
  else
    emit (CheckPointerOver (InputHandler.hid node) fastTest) ;;
    ret (checkPointerOver ext (InputHandler.hid node) (Pointer.position p) fastTest).

(** The three assignments made when a candidate passes its test. *)
Definition recordHighest (node : InputHandler.t) : M unit :=
  assign (Pointer.set__highestRenderOrderID (InputHandler.renderOrderID node)) ;;
  assign (Pointer.set__highestInputPriorityID (InputHandler.priorityID node)) ;;
  assign (Pointer.set__highestRenderObject (Some (InputHandler.hid node))).

(** First sweep (lines 477-495): the body of the [do ... while] loop for
    [currentNode], then the rest of the traversal; the guard
    [currentNode &&] covers the empty container.  The nodes are returned
    with their [checked] flag as the loop leaves it. *)
Fixpoint firstPass (fromClick : bool) (nodes : list InputHandler.t)
    : M (list InputHandler.t) :=
  match nodes with
  | [] => ret []
  | currentNode :: rest =>
      p <- self ;;
      node' <-
        (if InputHandler.validForInput currentNode
              (Pointer._highestInputPriorityID p)
              (Pointer._highestRenderOrderID p) false
         then
           let currentNode := InputHandler.set_checked true currentNode in
           hit <- checkPointer fromClick currentNode true ;;
           when hit (recordHighest currentNode) ;;
           ret currentNode
         else ret currentNode) ;;
      rest' <- firstPass fromClick rest ;;
      ret (node' :: rest')
  end.

(** Second sweep (lines 500-515). *)
Fixpoint secondPass (fromClick : bool) (nodes : list InputHandler.t) : M unit :=
  match nodes with
  | [] => ret tt
  | currentNode :: rest =>
      p <- self ;;
      when (negb (InputHandler.checked currentNode)
            && InputHandler.validForInput currentNode
                 (Pointer._highestInputPriorityID p)
                 (Pointer._highestRenderOrderID p) true)
        (hit <- checkPointer fromClick currentNode false ;;
         when hit (recordHighest currentNode)) ;;
      secondPass fromClick rest
  end.

(** Lines 467-495: clear the scratch flags, reset the floor, first sweep. *)
Definition cheapPhase (fromClick : bool) : M unit :=
  assignInput (fun i =>
    Input.set_interactiveItems
      (setAllChecked false (Input.interactiveItems i)) i) ;;
  assign (Pointer.set__highestRenderOrderID MAX_SAFE_INTEGER) ;;
  assign (Pointer.set__highestRenderObject None) ;;
  assign (Pointer.set__highestInputPriorityID (-1)) ;;
  g <- theGame ;;
  nodes <- firstPass fromClick (Input.interactiveItems (Game.input g)) ;;
  assignInput (Input.set_interactiveItems nodes).

(** Lines 500-515. *)
Definition exactPhase (fromClick : bool) : M unit :=
  g <- theGame ;;
  secondPass fromClick (Input.interactiveItems (Game.input g)).

(** Lines 517-556: tell the old and the new target what happened. *)
Definition notifyTarget : M unit :=
  p <- self ;;
  match Pointer._highestRenderObject p with
  | None =>
      match Pointer.targetObject p with
      | Some old =>
          emit (PointerOutHandler old) ;;
          assignTargetObject None
      | None => ret tt
      end
  | Some highest =>
      match Pointer.targetObject p with
      | None =>
          assignTargetObject (Some highest) ;;
          emit (PointerOverHandler highest)
      | Some old =>
          if Nat.eqb old highest then
            emit (UpdateHandler highest) ;;
            when (negb (update_ ext highest (Pointer.position p)))
              (assignTargetObject None)
          else
            emit (PointerOutHandler old) ;;
            assignTargetObject (Some highest) ;;
            emit (PointerOverHandler highest)
      end
  end.

Definition processInteractiveObjects (fromClick : bool) : M bool :=
  cheapPhase fromClick ;;
  exactPhase fromClick ;;
  notifyTarget ;;
  p <- self ;;
  ret (defined (Pointer.targetObject p)).

Definition move (event : Event.t) (fromClick : bool) : M unit :=
  g <- theGame ;;
  if Input.pollLocked (Game.input g) then ret tt
  else
    when (defined (Event.button event))
      (assign (Pointer.set_button (Event.button event))) ;;
    assign (Pointer.set_clientX (Event.clientX event)) ;;
    assign (Pointer.set_clientY (Event.clientY event)) ;;
    assign (Pointer.set_pageX (Event.pageX event)) ;;
    assign (Pointer.set_pageY (Event.pageY event)) ;;
    assign (Pointer.set_screenX (Event.screenX event)) ;;
    assign (Pointer.set_screenY (Event.screenY event)) ;;
    p <- self ;;
    when (Pointer.isMouse p && Input.mouse_locked (Game.input g) && negb fromClick)
      (assign (Pointer.set_rawMovementX
                 (valueOr (orElse (orElse (Event.movementX event)
                                          (Event.mozMovementX event))
                                  (Event.webkitMovementX event)) 0)) ;;
       assign (Pointer.set_rawMovementY
                 (valueOr (orElse (orElse (Event.movementY event)
                                          (Event.mozMovementY event))
                                  (Event.webkitMovementY event)) 0)) ;;
       assign (fun p => Pointer.set_movementX
                          (Pointer.movementX p + Pointer.rawMovementX p) p) ;;
       assign (fun p => Pointer.set_movementY
                          (Pointer.movementY p + Pointer.rawMovementY p) p)) ;;
    assign (fun p => Pointer.set_x
                       ((Pointer.pageX p - Point.x (Game.stage_offset g))
                        * Point.x (Input.scale (Game.input g))) p) ;;
    assign (fun p => Pointer.set_y
                       ((Pointer.pageY p - Point.y (Game.stage_offset g))
                        * Point.y (Input.scale (Game.input g))) p) ;;
    assign (fun p => Pointer.set_position
                       (Point.setTo (Pointer.x p) (Pointer.y p) (Pointer.position p)) p) ;;
    assign (fun p => Pointer.set_circle (Circle.set_x (Pointer.x p) (Pointer.circle p)) p) ;;
    assign (fun p => Pointer.set_circle (Circle.set_y (Pointer.y p) (Pointer.circle p)) p) ;;
    p <- self ;;
    when (overridePermits g)
      (assignInput (Input.set_activePointer (Some (Pointer.id p))) ;;
       assignInput (Input.set_x (Pointer.x p)) ;;
       assignInput (Input.set_y (Pointer.y p)) ;;
       assignInput (fun i => Input.set_position
                               (Point.setTo (Input.x i) (Input.y i) (Input.position i)) i) ;;
       assignInput (fun i => Input.set_circle (Circle.set_x (Input.x i) (Input.circle i)) i) ;;
       assignInput (fun i => Input.set_circle (Circle.set_y (Input.y i) (Input.circle i)) i)) ;;
    assign (fun p => Pointer.set_withinGame
                       (Game.scale_bounds_contains g (Pointer.pageX p) (Pointer.pageY p)) p) ;;
    if Game.paused g then ret tt
    else
      forEach (rev (Input.moveCallbacks (Game.input g)))
        (fun cb => emit (MoveCallback cb (Pointer.x p) (Pointer.y p) fromClick)) ;;
      match Pointer.targetObject p with
      | Some dragged =>
          if isDragged ext dragged then
            emit (UpdateHandler dragged) ;;
            when (negb (update_ ext dragged (Pointer.position p)))
              (assignTargetObject None)
          else
            when (0 <? total (Input.interactiveItems (Game.input g)))
              (processInteractiveObjects fromClick ;; ret tt)
      | None =>
          when (0 <? total (Input.interactiveItems (Game.input g)))
            (processInteractiveObjects fromClick ;; ret tt)
      end.

Definition start (event : Event.t) : M unit :=
  when (truthy (Event.pointerId event))
    (assign (Pointer.set_pointerId (Event.pointerId event))) ;;
  assign (Pointer.set_identifier (Event.identifier event)) ;;
  assign (Pointer.set_target (Event.target event)) ;;
  when (defined (Event.button event))
    (assign (Pointer.set_button (Event.button event))) ;;
  assign (Pointer.set__history []) ;;
  assign (Pointer.set_active true) ;;
  assign (Pointer.set_withinGame true) ;;
  assign (Pointer.set_isDown true) ;;
  assign (Pointer.set_isUp false) ;;
  assign (Pointer.set_dirty false) ;;
  g <- theGame ;;
  assign (fun p => Pointer.set_msSinceLastClick
                     (Game.time_now g - Pointer.timeDown p) p) ;;
  assign (Pointer.set_timeDown (Game.time_now g)) ;;
  assign (Pointer.set__holdSent false) ;;
  move event true ;;
  assign (fun p => Pointer.set_positionDown
                     (Point.setTo (Pointer.x p) (Pointer.y p) (Pointer.positionDown p)) p) ;;
  g <- theGame ;;
  p <- self ;;
  when (overridePermits g)
    (assignInput (Input.set_x (Pointer.x p)) ;;
     assignInput (Input.set_y (Pointer.y p)) ;;
     assignInput (fun i => Input.set_position
                             (Point.setTo (Pointer.x p) (Pointer.y p) (Input.position i)) i) ;;
     emit OnDown ;;
     emit (ResetSpeed (Pointer.x p) (Pointer.y p))) ;;
  assign (Pointer.set__stateReset false) ;;
  assign (fun p => Pointer.set_totalTouches (Pointer.totalTouches p + 1) p) ;;
  when (negb (Pointer.isMouse p))
    (assignInput (fun i => Input.set_currentPointers (Input.currentPointers i + 1) i)) ;;
  match Pointer.targetObject p with
  | Some t => emit (TouchedHandler t)
  | None => ret tt
  end.

Definition update : M unit :=
  p <- self ;;
  when (Pointer.active p)
    (g <- theGame ;;
     when (Pointer.dirty p)
       (when (0 <? total (Input.interactiveItems (Game.input g)))
          (processInteractiveObjects true ;; ret tt) ;;
        assign (Pointer.set_dirty false)) ;;
     s <- current ;;
     when (negb (Pointer._holdSent (this s))
           && (Input.holdRate (Game.input g) <=? duration s))
       (when (overridePermits (game s)) (emit OnHold) ;;
        assign (Pointer.set__holdSent true)) ;;
     p <- self ;;
     when (Input.recordPointerHistory (Game.input g)
           && (Pointer._nextDrop p <=? Game.time_now g))
       (assign (Pointer.set__nextDrop
                  (Game.time_now g + Input.recordRate (Game.input g))) ;;
        assign (fun p => Pointer.set__history
                           (Pointer._history p
                            ++ [Point.mk (Point.x (Pointer.position p))
                                         (Point.y (Pointer.position p))]) p) ;;
        p <- self ;;
        when (Input.recordLimit (Game.input g)
              <? Z.of_nat (length (Pointer._history p)))
          (assign (fun p => Pointer.set__history (tl (Pointer._history p)) p)))).

Definition leave (event : Event.t) : M unit :=
  assign (Pointer.set_withinGame false) ;;
  move event false.

Definition stop (event : Event.t) : M unit :=
  p <- self ;;
  if Pointer._stateReset p then emit PreventDefault
  else
    g <- theGame ;;
    assign (Pointer.set_timeUp (Game.time_now g)) ;;
    when (overridePermits g)
      (emit OnUp ;;
       s <- current ;;
       when ((0 <=? duration s) && (duration s <=? Input.tapRate (Game.input g)))
         (p <- self ;;
          (if Pointer.timeUp p - Pointer.previousTapTime p
              <? Input.doubleTapRate (Game.input g)
           then emit (OnTap true)
           else emit (OnTap false)) ;;
          assign (fun p => Pointer.set_previousTapTime (Pointer.timeUp p) p))) ;;
    when (0 <? Pointer.id p) (assign (Pointer.set_active false)) ;;
    assign (Pointer.set_withinGame false) ;;
    assign (Pointer.set_isDown false) ;;
    assign (Pointer.set_isUp true) ;;
    assign (Pointer.set_pointerId None) ;;
    assign (Pointer.set_identifier None) ;;
    assign (fun p => Pointer.set_positionUp
                       (Point.setTo (Pointer.x p) (Pointer.y p) (Pointer.positionUp p)) p) ;;
    when (negb (Pointer.isMouse p))
      (assignInput (fun i => Input.set_currentPointers (Input.currentPointers i - 1) i)) ;;
    forEach (Input.interactiveItems (Game.input g))
      (fun node => emit (ReleasedHandler (InputHandler.hid node))) ;;
    assignTargetObject None.

Definition justPressed (duration : option Z) (s : State) : bool :=
  let duration := valueOr duration (Input.justPressedRate (Game.input (game s))) in
  Pointer.isDown (this s)
  && (Game.time_now (game s) <? Pointer.timeDown (this s) + duration).

Definition justReleased (duration : option Z) (s : State) : bool :=
  let duration := valueOr duration (Input.justReleasedRate (Game.input (game s))) in
  Pointer.isUp (this s)
  && (Game.time_now (game s) <? Pointer.timeUp (this s) + duration).

Definition reset : M unit :=
  p <- self ;;
  when (negb (Pointer.isMouse p)) (assign (Pointer.set_active false)) ;;
  assign (Pointer.set_pointerId None) ;;
  assign (Pointer.set_identifier None) ;;
  assign (Pointer.set_dirty false) ;;
  assign (Pointer.set_isDown false) ;;
  assign (Pointer.set_isUp true) ;;
  assign (Pointer.set_totalTouches 0) ;;
  assign (Pointer.set__holdSent false) ;;
  assign (Pointer.set__history []) ;;
  assign (Pointer.set__stateReset true) ;;
  match Pointer.targetObject p with
  | Some t => emit (ReleasedHandler t)
  | None => ret tt
  end ;;
  assignTargetObject None.

Definition resetMovement : M unit :=
  assign (Pointer.set_movementX 0) ;;
  assign (Pointer.set_movementY 0).

End Methods.

(** ** Driving a Pointer

    The events a Pointer receives from the input manager, and the passing
    of time ([Tick] sets [game.time.now]). *)

Inductive Step : Type :=
| Start (event : Event.t)
| Move (event : Event.t) (fromClick : bool)
| Update
| Leave (event : Event.t)
| Stop (event : Event.t)
| Reset
| Tick (now : Z).

Definition step (ext : Externals) (st : Step) : M unit :=
  match st with
  | Start event => start ext event
  | Move event fromClick => move ext event fromClick
  | Update => update ext
  | Leave event => leave ext event
  | Stop event => stop event
  | Reset => reset
  | Tick now =>
      fun s => (tt, mkState (this s) (Game.set_time_now now (game s)), [])
  end.

(** ** Vocabulary of the properties *)

(** Exactly one of [isDown] and [isUp] is true. *)
Definition exactlyOneOfDownUp (p : Pointer.t) : Prop :=
  Pointer.isDown p = negb (Pointer.isUp p).

Definition historyLength (s : State) : Z :=
  Z.of_nat (length (Pointer._history (this s))).

Definition recordLimitOf (s : State) : Z :=
  Input.recordLimit (Game.input (game s)).

(** The guard of the history block of [update], under [this.active]. *)
Definition recordingDue (s : State) : bool :=
  Pointer.active (this s)
  && Input.recordPointerHistory (Game.input (game s))
  && (Pointer._nextDrop (this s) <=? Game.time_now (game s)).

(** The sample [update] pushes: [{x: position.x, y: position.y}]. *)
Definition sampleOf (s : State) : Point.t :=
  Point.mk (Point.x (Pointer.position (this s)))
           (Point.y (Pointer.position (this s))).

Definition isTap (a : Action) : bool :=
  match a with
  | OnTap _ => true
  | _ => false
  end.

(** The calls that tell a candidate something: over, out, update, touched,
    released. *)
Definition isNotification (a : Action) : bool :=
  match a with
  | PointerOverHandler _ | PointerOutHandler _ | UpdateHandler _
  | TouchedHandler _ | ReleasedHandler _ => true
  | _ => false
  end.

Definition isTargetWrite (a : Action) : bool :=
  match a with
  | AssignTargetObject _ => true
  | _ => false
  end.

(** A call of a test of candidate [h] with [fastTest = false]: the call
    that may run the exact, pixel perfect test. *)
Definition isExactTestOf (h : nat) (a : Action) : bool :=
  match a with
  | CheckPointerDown h' false | CheckPointerOver h' false => Nat.eqb h h'
  | _ => false
  end.

(** ** Concrete collaborators for the examples *)

Definition sampleEvent : Event.t :=
  {| Event.pointerId := None;
     Event.identifier := Some 7;
     Event.target := None;
     Event.button := Some 0;
     Event.clientX := 10; Event.clientY := 10;
     Event.pageX := 10; Event.pageY := 10;
     Event.screenX := 10; Event.screenY := 10;
     Event.movementX := None; Event.mozMovementX := None;
     Event.webkitMovementX := None;
     Event.movementY := None; Event.mozMovementY := None;
     Event.webkitMovementY := None |}.

(** An input manager with Phaser's default rates. *)
Definition sampleInput (policy : MultiInputOverride) (limit : Z)
    (items : list InputHandler.t) : Input.t :=
  {| Input.x := 0; Input.y := 0;
     Input.position := Point.mk 0 0;
     Input.circle := Circle.mk 0 0 44;
     Input.activePointer := None;
     Input.multiInputOverride := policy;
     Input.currentPointers := 0;
     Input.holdRate := 2000;
     Input.tapRate := 200;
     Input.doubleTapRate := 300;
     Input.justPressedRate := 200;
     Input.justReleasedRate := 200;
     Input.recordPointerHistory := true;
     Input.recordRate := 100;
     Input.recordLimit := limit;
     Input.pollLocked := false;
     Input.mouse_locked := false;
     Input.scale := Point.mk 1 1;
     Input.moveCallbacks := [];
     Input.interactiveItems := items |}.

Definition sampleGame (now : Z) (i : Input.t) : Game.t :=
  {| Game.time_now := now;
     Game.paused := false;
     Game.stage_offset := Point.mk 0 0;
     Game.scale_bounds_contains := fun _ _ => true;
     Game.world_camera := Point.mk 0 0;
     Game.input := i |}.

(** Candidates [overlapping] pass every test, the others fail; [update]
    answers [false] for the objects listed in [stopping]. *)
Definition sampleExternals (overlapping stopping : list nat) : Externals :=
  {| checkPointerDown := fun h _ _ => existsb (Nat.eqb h) overlapping;
     checkPointerOver := fun h _ _ => existsb (Nat.eqb h) overlapping;
     update_ := fun h _ => negb (existsb (Nat.eqb h) stopping);
     isDragged := fun _ => false |}.

(** A touch pointer (slot 1) in a fresh game at time [now]. *)
Definition freshTouch (now : Z) (i : Input.t) : State :=
  mkState (newPointer 1) (sampleGame now i).

(** The answer of the test that [checkPointer] calls. *)
Definition overlaps (ext : Externals) (fromClick : bool) (pos : Point.t)
    (fastTest : bool) (h : nat) : bool :=
  if fromClick then checkPointerDown ext h pos fastTest
  else checkPointerOver ext h pos fastTest.

(** The call that [checkPointer] makes. *)
Definition testCall (fromClick : bool) (h : nat) (fastTest : bool) : Action :=
  if fromClick then CheckPointerDown h fastTest else CheckPointerOver h fastTest.

(** The floor: the priority and the render order of the best so far. *)
Definition floorOf (s : State) : Z * Z :=
  (Pointer._highestInputPriorityID (this s),
   Pointer._highestRenderOrderID (this s)).

(** Candidate [h] can displace a best whose priority and render order are
    [b]: what [validForInput] compares. *)
Definition better (h : InputHandler.t) (b : Z * Z) : Prop :=
  fst b < InputHandler.priorityID h
  \/ (InputHandler.priorityID h = fst b /\ InputHandler.renderOrderID h < snd b).

(** The floor [b'] is at least as high as [b]. *)
Definition floorLe (b b' : Z * Z) : Prop :=
  fst b < fst b' \/ (fst b = fst b' /\ snd b' <= snd b).

(** The priority and render order of a candidate, as a floor. *)
Definition keyOf (h : InputHandler.t) : Z * Z :=
  (InputHandler.priorityID h, InputHandler.renderOrderID h).

(** Two records of the same candidate: all but the scratch flag agree. *)
Definition sameCandidate (n n' : InputHandler.t) : Prop :=
  InputHandler.set_checked false n' = InputHandler.set_checked false n.

(** What the first sweep leaves a node with, [b] being the floor it
    ends with: the node is checked, or it is as before and could not
    run for the floor. *)
Definition sweptAs (b : Z * Z) (n n' : InputHandler.t) : Prop :=
  sameCandidate n n'
  /\ (InputHandler.checked n' = true
      \/ (InputHandler.checked n' = InputHandler.checked n
          /\ (InputHandler.pixelPerfect n = true \/ ~ better n b))).

(** The state once [node] has been recorded as the best so far. *)
Definition recorded (node : InputHandler.t) (s : State) : State :=
  mkState
    (Pointer.set__highestRenderObject (Some (InputHandler.hid node))
       (Pointer.set__highestInputPriorityID (InputHandler.priorityID node)
          (Pointer.set__highestRenderOrderID (InputHandler.renderOrderID node)
             (this s))))
    (game s).

(** The state in which the first sweep starts. *)
Definition cleared (s : State) : State :=
  mkState
    (Pointer.set__highestInputPriorityID (-1)
       (Pointer.set__highestRenderObject None
          (Pointer.set__highestRenderOrderID MAX_SAFE_INTEGER (this s))))
    (Game.set_input
       (Input.set_interactiveItems
          (map (InputHandler.set_checked false)
               (Input.interactiveItems (Game.input (game s))))
          (Game.input (game s)))
       (game s)).

(** The state with another list of candidates. *)
Definition withItems (items : list InputHandler.t) (s : State) : State :=
  mkState (this s)
    (Game.set_input (Input.set_interactiveItems items (Game.input (game s)))
       (game s)).

Definition itemsOf (s : State) : list InputHandler.t :=
  Input.interactiveItems (Game.input (game s)).

(** The Pointer without the floor: what the two sweeps leave alone,
    together with the whole game. *)
Definition sweepFrame (s : State) : State :=
  mkState
    (Pointer.set__highestRenderObject None
       (Pointer.set__highestInputPriorityID 0
          (Pointer.set__highestRenderOrderID 0 (this s))))
    (game s).

(** The guard under which [stop] declares a tap. *)
Definition tapDeclared (s : State) : bool :=
  negb (Pointer._stateReset (this s))
  && overridePermits (game s)
  && (0 <=? duration s)
  && (duration s <=? Input.tapRate (Game.input (game s))).

(** Run a list of steps with the quiet collaborators of the examples. *)
Definition after (sts : list Step) (s : State) : State :=
  final (forEach sts (step (sampleExternals [] [])) s).

(** A candidate as the container holds it. *)
Definition candidate (h : nat) (priority order : Z) (exact : bool)
    : InputHandler.t :=
  InputHandler.mk h priority order exact false.

(** A touch pointer whose target is [target], over the candidates [items]. *)
Definition hovering (target : option nat) (items : list InputHandler.t) : State :=
  mkState (Pointer.set_targetObject target (newPointer 1))
          (sampleGame 0 (sampleInput MOUSE_TOUCH_COMBINE 100 items)).

(** A mouse pressed at time 0 and still held at time 50 while one touch is
    down, the touch overriding the mouse. *)
Definition heldMouseUnderTouch : State :=
  after [Start sampleEvent; Tick 50]
    (mkState (newPointer 0)
       (sampleGame 0
          (Input.set_currentPointers 1
             (sampleInput TOUCH_OVERRIDES_MOUSE 100 [])))).

(** A touch pressed at time 0 and still held at time 50, under the override
    policy [policy]. *)
Definition heldTouch (policy : MultiInputOverride) : State :=
  after [Start sampleEvent; Tick 50] (freshTouch 0 (sampleInput policy 100 [])).

(** A touch whose history buffer, of capacity 2, is full at time 200. *)
Definition fullHistory : State :=
  after [Start sampleEvent; Update; Tick 100; Update; Tick 200]
    (freshTouch 0 (sampleInput MOUSE_TOUCH_COMBINE 2 [])).

(** A touch pressed at 1000, released at 1050, pressed again at 1100 and
    still held at 1150. *)
Definition pressedAgain : State :=
  after [Tick 1000; Start sampleEvent; Tick 1050; Stop sampleEvent;
         Tick 1100; Start sampleEvent; Tick 1150]
    (freshTouch 0 (sampleInput MOUSE_TOUCH_COMBINE 100 [])).

(** ** Frames

    [keeps f m]: the observation [f] of the state is the same before and
    after [m]. *)

Definition keeps {A B : Type} (f : State -> B) (m : M A) : Prop :=
  forall s, f (final (m s)) = f s.

(** The part of a Pointer that neither [move] nor the resolver writes:
    the fields they assign are blanked. *)
Definition lifecycle (p : Pointer.t) : Pointer.t :=
  {| Pointer.id := Pointer.id p;
     Pointer.exists_ := Pointer.exists_ p;
     Pointer.identifier := Pointer.identifier p;
     Pointer.pointerId := Pointer.pointerId p;
     Pointer.target := Pointer.target p;
     Pointer.button := None;
     Pointer._holdSent := Pointer._holdSent p;
     Pointer._history := Pointer._history p;
     Pointer._nextDrop := Pointer._nextDrop p;
     Pointer._stateReset := Pointer._stateReset p;
     Pointer.withinGame := false;
     Pointer.clientX := 0;
     Pointer.clientY := 0;
     Pointer.pageX := 0;
     Pointer.pageY := 0;
     Pointer.screenX := 0;
     Pointer.screenY := 0;
     Pointer.rawMovementX := 0;
     Pointer.rawMovementY := 0;
     Pointer.movementX := 0;
     Pointer.movementY := 0;
     Pointer.x := 0;
     Pointer.y := 0;
     Pointer.isMouse := Pointer.isMouse p;
     Pointer.isDown := Pointer.isDown p;
     Pointer.isUp := Pointer.isUp p;
     Pointer.timeDown := Pointer.timeDown p;
     Pointer.timeUp := Pointer.timeUp p;
     Pointer.previousTapTime := Pointer.previousTapTime p;
     Pointer.totalTouches := Pointer.totalTouches p;
     Pointer.msSinceLastClick := Pointer.msSinceLastClick p;
     Pointer.targetObject := None;
     Pointer.active := Pointer.active p;
     Pointer.dirty := Pointer.dirty p;
     Pointer.position := Point.mk 0 0;
     Pointer.positionDown := Pointer.positionDown p;
     Pointer.positionUp := Pointer.positionUp p;
     Pointer.circle := Circle.mk 0 0 0;
     Pointer._highestRenderOrderID := 0;
     Pointer._highestRenderObject := None;
     Pointer._highestInputPriorityID := 0 |}.

(** The Pointer without the four fields that the resolver writes. *)
Definition outsideResolver (p : Pointer.t) : Pointer.t :=
  Pointer.set_targetObject None
    (Pointer.set__highestRenderObject None
       (Pointer.set__highestInputPriorityID 0
          (Pointer.set__highestRenderOrderID 0 p))).

(** The game without the [checked] flags, the one thing the resolver
    writes outside the Pointer. *)
Definition withoutItems (g : Game.t) : Game.t :=
  Game.set_input (Input.set_interactiveItems [] (Game.input g)) g.

(** The game without what any method of the Pointer writes: the mirrored
    position, the active pointer, the count of pointers, the flags. *)
Definition settings (g : Game.t) : Game.t :=
  Game.set_input
    (Input.set_x 0
       (Input.set_y 0
          (Input.set_position (Point.mk 0 0)
             (Input.set_circle (Circle.mk 0 0 0)
                (Input.set_activePointer None
                   (Input.set_currentPointers 0
                      (Input.set_interactiveItems [] (Game.input g))))))))
    g.

Definition resolverFrame (s : State) : State :=
  mkState (outsideResolver (this s)) (withoutItems (game s)).

Definition lifecycleFrame (s : State) : State :=
  mkState (lifecycle (this s)) (settings (game s)).

(** ** Symbolic execution of a method body

    [wp m Q s]: running [m] from [s] ends in a result, a state and a trace
    that satisfy [Q]. *)

Definition wp {A : Type} (m : M A) (Q : A -> State -> list Action -> Prop)
    (s : State) : Prop :=
  Q (result (m s)) (final (m s)) (trace (m s)).

(** ** Further vocabulary: the calls of [move] and of the resolver *)

Definition isMoveCallback (a : Action) : bool :=
  match a with
  | MoveCallback _ _ _ _ => true
  | _ => false
  end.

(** A call of a test of a candidate, cheap or exact. *)
Definition isTest (a : Action) : bool :=
  match a with
  | CheckPointerDown _ _ | CheckPointerOver _ _ => true
  | _ => false
  end.

(** What a call of the resolver can leave in the trace: tests, the three
    notifications of lines 517-556 and writes of the target. *)
Definition fromResolver (a : Action) : bool :=
  match a with
  | CheckPointerDown _ _ | CheckPointerOver _ _
  | PointerOverHandler _ | PointerOutHandler _ | UpdateHandler _
  | AssignTargetObject _ => true
  | _ => false
  end.

(** The scene coordinates [move] computes from the page coordinates of the
    event (lines 408-409). *)
Definition sceneX (event : Event.t) (g : Game.t) : Z :=
  (Event.pageX event - Point.x (Game.stage_offset g))
  * Point.x (Input.scale (Game.input g)).

Definition sceneY (event : Event.t) (g : Game.t) : Z :=
  (Event.pageY event - Point.y (Game.stage_offset g))
  * Point.y (Input.scale (Game.input g)).

(** The calls of the move observers, last registered first. *)
Definition observerCalls (event : Event.t) (fromClick : bool) (g : Game.t)
    : list Action :=
  map (fun cb => MoveCallback cb (sceneX event g) (sceneY event g) fromClick)
      (rev (Input.moveCallbacks (Game.input g))).

(** ** Further frames *)

(** The game without what [move] and the resolver write: the mirrored
    position, the active pointer and the scratch flags.  The count of
    pointers, the policy, the rates and the clock are kept. *)
Definition arbitration (g : Game.t) : Game.t :=
  Game.set_input
    (Input.set_x 0
       (Input.set_y 0
          (Input.set_position (Point.mk 0 0)
             (Input.set_circle (Circle.mk 0 0 0)
                (Input.set_activePointer None
                   (Input.set_interactiveItems [] (Game.input g)))))))
    g.

(** What [move] and [leave] leave alone. *)
Definition moveFrame (s : State) : State :=
  mkState (lifecycle (this s)) (arbitration (game s)).

(** The lifecycle part without the four fields that [update] writes. *)
Definition steady (p : Pointer.t) : Pointer.t :=
  Pointer.set__holdSent false
    (Pointer.set__history []
       (Pointer.set__nextDrop 0 (Pointer.set_dirty false (lifecycle p)))).

(** What [move], [leave] and [update] all leave alone. *)
Definition steadyFrame (s : State) : State :=
  mkState (steady (this s)) (arbitration (game s)).

(** ** Further vocabulary: runs of steps *)

(** The steps between a press and a release: moves, updates, leaves and
    the passing of time. *)
Definition quiet (st : Step) : bool :=
  match st with
  | Move _ _ | Update | Leave _ | Tick _ => true
  | _ => false
  end.

Definition isStart (st : Step) : bool :=
  match st with
  | Start _ => true
  | _ => false
  end.

(** [totalTouches] after a run of steps that began with the count [n]:
    a press adds one, a reset starts again from zero. *)
Fixpoint touchesAfter (sts : list Step) (n : Z) : Z :=
  match sts with
  | [] => n
  | Start _ :: rest => touchesAfter rest (n + 1)
  | Reset :: rest => touchesAfter rest 0
  | _ :: rest => touchesAfter rest n
  end.

(** The broadcasts of a release. *)
Definition isUpSignal (a : Action) : bool :=
  match a with
  | OnUp | OnTap _ => true
  | _ => false
  end.

(** The broadcasts of a press. *)
Definition isDownSignal (a : Action) : bool :=
  match a with
  | OnDown | ResetSpeed _ _ => true
  | _ => false
  end.

Definition isHold (a : Action) : bool :=
  match a with
  | OnHold => true
  | _ => false
  end.

Definition isReleased (a : Action) : bool :=
  match a with
  | ReleasedHandler _ => true
  | _ => false
  end.

(** What [move] can call: the move observers and what the resolver calls. *)
Definition fromMove (a : Action) : bool :=
  isMoveCallback a || fromResolver a.

(** What [update] can call: the hold signal and what the resolver calls. *)
Definition fromUpdate (a : Action) : bool :=
  isHold a || fromResolver a.

(** The guard under which [update] signals a hold: the pointer is active,
    no hold was sent for this press, and the press has lasted [holdRate]. *)
Definition holdDue (s : State) : bool :=
  Pointer.active (this s)
  && negb (Pointer._holdSent (this s))
  && (Input.holdRate (Game.input (game s)) <=? duration s).

(** What the quiet steps leave alone: the steady part of the Pointer and
    the game without its clock. *)
Definition pressFrame (s : State) : State :=
  mkState (steady (this s)) (Game.set_time_now 0 (arbitration (game s))).

Definition isTouched (a : Action) : bool :=
  match a with
  | TouchedHandler _ => true
  | _ => false
  end.

(** The [x] and [y] that a press or a move at [s] ends with: the scene
    coordinates of the event, or the old ones while polling is locked. *)
Definition landingX (event : Event.t) (s : State) : Z :=
  if Input.pollLocked (Game.input (game s)) then Pointer.x (this s)
  else sceneX event (game s).

Definition landingY (event : Event.t) (s : State) : Z :=
  if Input.pollLocked (Game.input (game s)) then Pointer.y (this s)
  else sceneY event (game s).

(** One for a touch, nothing for the mouse: what a press adds to
    [currentPointers] and a release takes away. *)
Definition pointerWeight (p : Pointer.t) : Z :=
  if Pointer.isMouse p then 0 else 1.

(** The steps that neither begin a press nor reset the pointer. *)
Definition withinPress (st : Step) : bool :=
  match st with
  | Start _ | Reset => false
  | _ => true
  end.

(** A touch slot: not the mouse, with a positive id. *)
Definition touchSlot (p : Pointer.t) : Prop :=
  Pointer.isMouse p = false /\ 0 < Pointer.id p.

(** The floor from which every call of the resolver starts. *)
Definition initialFloor : Z * Z := (-1, MAX_SAFE_INTEGER).

(** The answer of the one test the resolver can run on a candidate: the
    fast test in the first sweep, or, for a pixel perfect candidate, the
    exact test in the second. *)
Definition hitBy (ext : Externals) (fromClick : bool) (pos : Point.t)
    (c : InputHandler.t) : bool :=
  overlaps ext fromClick pos (negb (InputHandler.pixelPerfect c))
    (InputHandler.hid c).

(** The target that [notifyTarget] leaves, given the highest object found,
    the former target and the answer of the target's [update]. *)
Definition retargeted (ext : Externals) (pos : Point.t)
    (highest old : option nat) : option nat :=
  match highest, old with
  | None, _ => None
  | Some h, None => Some h
  | Some h, Some o =>
      if Nat.eqb o h && negb (update_ ext h pos) then None else Some h
  end.

(** An action that is not a test of the other kind: a call made for a
    click ([fromClick] is [true]) may test with [checkPointerDown] only, a
    call made for a plain move with [checkPointerOver] only. *)
Definition testFor (fromClick : bool) (a : Action) : bool :=
  match a with
  | CheckPointerDown _ _ => fromClick
  | CheckPointerOver _ _ => negb fromClick
  | _ => true
  end.

(** ** Further examples *)

(** An input manager as [sampleInput], with polling locked or not and with
    the move observers [observers]. *)
Definition observedInput (locked : bool) (observers : list nat)
    (items : list InputHandler.t) : Input.t :=
  {| Input.x := 0; Input.y := 0;
     Input.position := Point.mk 0 0;
     Input.circle := Circle.mk 0 0 44;
     Input.activePointer := None;
     Input.multiInputOverride := MOUSE_TOUCH_COMBINE;
     Input.currentPointers := 0;
     Input.holdRate := 2000;
     Input.tapRate := 200;
     Input.doubleTapRate := 300;
     Input.justPressedRate := 200;
     Input.justReleasedRate := 200;
     Input.recordPointerHistory := true;
     Input.recordRate := 100;
     Input.recordLimit := 100;
     Input.pollLocked := locked;
     Input.mouse_locked := false;
     Input.scale := Point.mk 1 1;
     Input.moveCallbacks := observers;
     Input.interactiveItems := items |}.

(** A touch pointer in a game whose polling is locked. *)
Definition lockedTouch : State :=
  mkState (newPointer 1) (sampleGame 0 (observedInput true [] [])).

(** A touch pointer watched by the move observers 1 and 2, registered in
    that order. *)
Definition observedTouch : State :=
  mkState (newPointer 1) (sampleGame 0 (observedInput false [1; 2]%nat [])).

(** A touch pointer over one candidate, in a paused game. *)
Definition pausedTouch : State :=
  mkState (newPointer 1)
    {| Game.time_now := 0;
       Game.paused := true;
       Game.stage_offset := Point.mk 0 0;
       Game.scale_bounds_contains := fun _ _ => true;
       Game.world_camera := Point.mk 0 0;
       Game.input := sampleInput MOUSE_TOUCH_COMBINE 100 [candidate 1 5 1 false] |}.

(** Collaborators for which candidate 1 is being dragged. *)
Definition draggingExternals : Externals :=
  {| checkPointerDown := fun _ _ _ => false;
     checkPointerOver := fun _ _ _ => false;
     update_ := fun _ _ => true;
     isDragged := fun h => Nat.eqb h 1 |}.


(** A touch that was pressed and then reset. *)
Definition resetTouch : State :=
  after [Start sampleEvent; Reset]
    (freshTouch 0 (sampleInput MOUSE_TOUCH_COMBINE 100 [])).

(** * Properties *)

(** ** Running a method *)

Lemma bind_run {A B : Type} (m : M A) (k : A -> M B) (s : State) :
  bind m k s =
  (result (k (result (m s)) (final (m s))),
   final (k (result (m s)) (final (m s))),
   trace (m s) ++ trace (k (result (m s)) (final (m s)))).
Proof.
  unfold bind, result, final, trace.
  destruct (m s) as [[a s1] t1]; simpl.
  destruct (k a s1) as [[b s2] t2]; reflexivity.
Qed.

Lemma final_bind {A B : Type} (m : M A) (k : A -> M B) (s : State) :
  final (bind m k s) = final (k (result (m s)) (final (m s))).
Proof. rewrite bind_run; reflexivity. Qed.

Lemma trace_bind {A B : Type} (m : M A) (k : A -> M B) (s : State) :
  trace (bind m k s) = trace (m s) ++ trace (k (result (m s)) (final (m s))).
Proof. rewrite bind_run; reflexivity. Qed.

Lemma result_bind {A B : Type} (m : M A) (k : A -> M B) (s : State) :
  result (bind m k s) = result (k (result (m s)) (final (m s))).
Proof. rewrite bind_run; reflexivity. Qed.

Lemma forEach_nil {A : Type} (f : A -> M unit) : forEach [] f = ret tt.
Proof. reflexivity. Qed.

Lemma forEach_cons {A : Type} (a : A) (l : list A) (f : A -> M unit) :
  forEach (a :: l) f = bind (f a) (fun _ => forEach l f).
Proof. reflexivity. Qed.

(** Split a goal into its conjuncts, and nothing else. *)
Ltac conjs := repeat match goal with |- _ /\ _ => split end.

(** ** One turn of each sweep *)

Section Sweeps.

Variable ext : Externals.

Lemma checkPointer_run fromClick node fastTest s :
  checkPointer ext fromClick node fastTest s =
  (overlaps ext fromClick (Pointer.position (this s)) fastTest (InputHandler.hid node),
   s, [testCall fromClick (InputHandler.hid node) fastTest]).
Proof. destruct fromClick; reflexivity. Qed.

Lemma recordHighest_run node s :
  recordHighest node s = (tt, recorded node s, []).
Proof. reflexivity. Qed.

Lemma firstPass_nil fromClick s : firstPass ext fromClick [] s = ([], s, []).
Proof. reflexivity. Qed.

Lemma firstPass_cons fromClick n rest s :
  firstPass ext fromClick (n :: rest) s =
  if InputHandler.validForInput n (fst (floorOf s)) (snd (floorOf s)) false then
    let s1 :=
      if overlaps ext fromClick (Pointer.position (this s)) true (InputHandler.hid n)
      then recorded n s else s in
    let r := firstPass ext fromClick rest s1 in
    (InputHandler.set_checked true n :: result r, final r,
     testCall fromClick (InputHandler.hid n) true :: trace r)
  else
    let r := firstPass ext fromClick rest s in
    (n :: result r, final r, trace r).
Proof.
  cbn [firstPass]. rewrite bind_run. cbn [self result final trace fst snd app floorOf].
  destruct (InputHandler.validForInput n _ _ false).
  - rewrite !bind_run, checkPointer_run.
    cbn [result final trace fst snd app InputHandler.hid InputHandler.set_checked].
    destruct (overlaps ext fromClick _ true (InputHandler.hid n));
      cbn [when ret result final trace fst snd app];
      rewrite ?app_nil_r; reflexivity.
  - rewrite !bind_run. cbn [ret result final trace fst snd app].
    rewrite ?app_nil_r. reflexivity.
Qed.

Lemma secondPass_nil fromClick s : secondPass ext fromClick [] s = (tt, s, []).
Proof. reflexivity. Qed.

Lemma secondPass_cons fromClick n rest s :
  secondPass ext fromClick (n :: rest) s =
  if negb (InputHandler.checked n)
     && InputHandler.validForInput n (fst (floorOf s)) (snd (floorOf s)) true
  then
    let s1 :=
      if overlaps ext fromClick (Pointer.position (this s)) false (InputHandler.hid n)
      then recorded n s else s in
    let r := secondPass ext fromClick rest s1 in
    (result r, final r, testCall fromClick (InputHandler.hid n) false :: trace r)
  else
    let r := secondPass ext fromClick rest s in
    (result r, final r, trace r).
Proof.
  cbn [secondPass]. rewrite bind_run. cbn [self result final trace fst snd app floorOf].
  destruct (negb (InputHandler.checked n) && InputHandler.validForInput n _ _ true).
  - rewrite !bind_run. cbn [when]. rewrite bind_run, checkPointer_run.
    cbn [result final trace fst snd app].
    destruct (overlaps ext fromClick _ false (InputHandler.hid n));
      cbn [when ret result final trace fst snd app];
      rewrite ?app_nil_r; reflexivity.
  - rewrite !bind_run. cbn [when ret result final trace fst snd app].
    rewrite ?app_nil_r. reflexivity.
Qed.

End Sweeps.

(** ** A frame calculus: what a method leaves alone

    [keeps f m] says that the observation [f] of the state is the same
    before and after [m]. *)

Section Keeps.

Context {B : Type} (f : State -> B).

Lemma keeps_ret {A : Type} (a : A) : keeps f (ret a).
Proof. intro s; reflexivity. Qed.

Lemma keeps_bind {A C : Type} (m : M A) (k : A -> M C) :
  keeps f m -> (forall a, keeps f (k a)) -> keeps f (bind m k).
Proof.
  intros Hm Hk s. rewrite final_bind, Hk. apply Hm.
Qed.

Lemma keeps_self : keeps f self.
Proof. intro s; reflexivity. Qed.

Lemma keeps_theGame : keeps f theGame.
Proof. intro s; reflexivity. Qed.

Lemma keeps_current : keeps f current.
Proof. intro s; reflexivity. Qed.

Lemma keeps_emit (a : Action) : keeps f (emit a).
Proof. intro s; reflexivity. Qed.

Lemma keeps_assignInput (g : Input.t -> Input.t) :
  (forall s, f (mkState (this s) (Game.set_input (g (Game.input (game s))) (game s)))
             = f s) ->
  keeps f (assignInput g).
Proof. intros H s; apply H. Qed.

Lemma keeps_assign (g : Pointer.t -> Pointer.t) :
  (forall s, f (mkState (g (this s)) (game s)) = f s) -> keeps f (assign g).
Proof. intros H s; apply H. Qed.

Lemma keeps_when (b : bool) (m : M unit) : keeps f m -> keeps f (when b m).
Proof. intro H; destruct b; [exact H | apply keeps_ret]. Qed.

Lemma keeps_forEach {A : Type} (l : list A) (k : A -> M unit) :
  (forall a, keeps f (k a)) -> keeps f (forEach l k).
Proof.
  intro H; induction l as [|a l IH].
  - apply keeps_ret.
  - rewrite forEach_cons. apply keeps_bind; [apply H | intros _; exact IH].
Qed.

End Keeps.

(** Decompose a [keeps] goal along the structure of the method. *)
Ltac keeps_step :=
  match goal with
  | |- keeps _ (bind _ _) => apply keeps_bind; [ | intro ]
  | |- keeps _ (ret _) => apply keeps_ret
  | |- keeps _ self => apply keeps_self
  | |- keeps _ theGame => apply keeps_theGame
  | |- keeps _ current => apply keeps_current
  | |- keeps _ (emit _) => apply keeps_emit
  | |- keeps _ (assignInput _) => apply keeps_assignInput; intro; reflexivity
  | |- keeps _ (assign _) => apply keeps_assign; intro; reflexivity
  | |- keeps _ (when _ _) => apply keeps_when
  | |- keeps _ (forEach _ _) => apply keeps_forEach; intro
  | |- keeps _ (if ?b then _ else _) => destruct b
  | |- keeps _ (match ?o with Some _ => _ | None => _ end) => destruct o
  | |- keeps _ (assignTargetObject _) => unfold assignTargetObject
  end.

Ltac keeps_auto := repeat keeps_step.

Lemma lifecycle_outsideResolver (p : Pointer.t) :
  lifecycle (outsideResolver p) = lifecycle p.
Proof. reflexivity. Qed.

Lemma settings_withoutItems (g : Game.t) :
  settings (withoutItems g) = settings g.
Proof. reflexivity. Qed.

Section Frames.

Variable ext : Externals.

Lemma keeps_checkPointer {B : Type} (f : State -> B) fromClick node fastTest :
  keeps f (checkPointer ext fromClick node fastTest).
Proof. unfold checkPointer. keeps_auto. Qed.

Lemma firstPass_frame fromClick nodes :
  keeps resolverFrame (firstPass ext fromClick nodes).
Proof.
  induction nodes as [|n nodes IH]; simpl.
  - apply keeps_ret.
  - unfold recordHighest. keeps_auto; try apply keeps_checkPointer. exact IH.
Qed.

Lemma secondPass_frame fromClick nodes :
  keeps resolverFrame (secondPass ext fromClick nodes).
Proof.
  induction nodes as [|n nodes IH]; simpl.
  - apply keeps_ret.
  - unfold recordHighest. keeps_auto; try apply keeps_checkPointer. exact IH.
Qed.

Lemma processInteractiveObjects_frame fromClick :
  keeps resolverFrame (processInteractiveObjects ext fromClick).
Proof.
  unfold processInteractiveObjects, cheapPhase, exactPhase, notifyTarget.
  keeps_auto; first [apply firstPass_frame | apply secondPass_frame].
Qed.

Lemma processInteractiveObjects_lifecycle fromClick :
  keeps lifecycleFrame (processInteractiveObjects ext fromClick).
Proof.
  intro s.
  pose proof (processInteractiveObjects_frame fromClick s) as H.
  unfold lifecycleFrame.
  rewrite <- lifecycle_outsideResolver, <- settings_withoutItems.
  rewrite <- (lifecycle_outsideResolver (this s)), <- (settings_withoutItems (game s)).
  change (lifecycleFrame (resolverFrame (final (processInteractiveObjects ext fromClick s)))
          = lifecycleFrame (resolverFrame s)).
  rewrite H. reflexivity.
Qed.

Lemma move_lifecycle event fromClick :
  keeps lifecycleFrame (move ext event fromClick).
Proof.
  unfold move. keeps_auto; apply processInteractiveObjects_lifecycle.
Qed.

End Frames.

(** ** Rules of symbolic execution *)

Lemma wp_bind {A B : Type} (m : M A) (k : A -> M B) Q s :
  wp m (fun a s1 t1 => wp (k a) (fun b s2 t2 => Q b s2 (t1 ++ t2)) s1) s ->
  wp (bind m k) Q s.
Proof. unfold wp. rewrite bind_run. exact (fun H => H). Qed.

Lemma wp_ret {A : Type} (a : A) Q s : Q a s [] -> wp (ret a) Q s.
Proof. exact (fun H => H). Qed.

Lemma wp_self Q s : Q (this s) s [] -> wp self Q s.
Proof. exact (fun H => H). Qed.

Lemma wp_theGame Q s : Q (game s) s [] -> wp theGame Q s.
Proof. exact (fun H => H). Qed.

Lemma wp_current Q s : Q s s [] -> wp current Q s.
Proof. exact (fun H => H). Qed.

Lemma wp_emit a Q s : Q tt s [a] -> wp (emit a) Q s.
Proof. exact (fun H => H). Qed.

Lemma wp_assign f Q s :
  Q tt (mkState (f (this s)) (game s)) [] -> wp (assign f) Q s.
Proof. exact (fun H => H). Qed.

Lemma wp_assignInput f Q s :
  Q tt (mkState (this s) (Game.set_input (f (Game.input (game s))) (game s))) [] ->
  wp (assignInput f) Q s.
Proof. exact (fun H => H). Qed.

Lemma wp_forEach_emit {A : Type} (l : list A) (a : A -> Action) Q s :
  Q tt s (map a l) -> wp (forEach l (fun x => emit (a x))) Q s.
Proof.
  unfold wp.
  assert (E : forEach l (fun x => emit (a x)) s = (tt, s, map a l)).
  { induction l as [|x l IH]; cbn [forEach]; [reflexivity|].
    rewrite bind_run. change (final (emit (a x) s)) with s.
    rewrite IH. reflexivity. }
  rewrite E. exact (fun H => H).
Qed.

(** A method whose frame is known may be stepped over. *)
Lemma wp_keeps {A : Type} (f : State -> State) (m : M A) Q s :
  keeps f m ->
  (forall a s' t, f s' = f s -> Q a s' t) ->
  wp m Q s.
Proof. intros Hk H. apply H, Hk. Qed.

Arguments firstPass : simpl never.
Arguments secondPass : simpl never.
Arguments processInteractiveObjects : simpl never.
Arguments move : simpl never.
Arguments forEach : simpl never.
Arguments wp : simpl never.
Arguments bind : simpl never.
Arguments ret : simpl never.
Arguments when : simpl never.
Arguments self : simpl never.
Arguments theGame : simpl never.
Arguments current : simpl never.
Arguments emit : simpl never.
Arguments assign : simpl never.
Arguments assignInput : simpl never.
Arguments assignTargetObject : simpl never.

Ltac wp_simpl := cbn.

(** Split an equation between two frames into its Pointer and game parts. *)
Ltac split_frame H :=
  let Hthis := fresh "Hthis" in
  let Hgame := fresh "Hgame" in
  pose proof (f_equal this H) as Hthis;
  pose proof (f_equal game H) as Hgame;
  cbn [this game lifecycleFrame resolverFrame] in Hthis, Hgame;
  clear H.

Ltac wp_step :=
  lazymatch goal with
  | |- wp (bind _ _) _ _ => apply wp_bind
  | |- wp (ret _) _ _ => apply wp_ret
  | |- wp self _ _ => apply wp_self
  | |- wp theGame _ _ => apply wp_theGame
  | |- wp current _ _ => apply wp_current
  | |- wp (emit _) _ _ => apply wp_emit
  | |- wp (assign _) _ _ => apply wp_assign
  | |- wp (assignInput _) _ _ => apply wp_assignInput
  | |- wp (assignTargetObject _) _ _ => unfold assignTargetObject
  | |- wp (forEach _ (fun x => emit _)) _ _ => apply wp_forEach_emit
  | |- wp (move _ _ _) _ _ =>
      apply (wp_keeps lifecycleFrame);
      [apply move_lifecycle | intros ? ? ? Hframe; split_frame Hframe]
  | |- wp (processInteractiveObjects _ _) _ _ =>
      apply (wp_keeps resolverFrame);
      [apply processInteractiveObjects_frame | intros ? ? ? Hframe; split_frame Hframe]
  | |- wp (when ?b _) _ _ => unfold when at 1; destruct b eqn:?
  | |- wp (if ?b then _ else _) _ _ => destruct b eqn:?
  | |- wp (match ?o with Some _ => _ | None => _ end) _ _ => destruct o eqn:?
  end; wp_simpl.

Ltac wp_run := repeat wp_step.

(** Read a field off an equation between two frames. *)
Ltac frame_field f :=
  match goal with
  | H : lifecycle _ = lifecycle _ |- _ =>
      let E := fresh "E" in pose proof (f_equal f H) as E; cbn in E
  | H : outsideResolver _ = outsideResolver _ |- _ =>
      let E := fresh "E" in pose proof (f_equal f H) as E; cbn in E
  | H : settings _ = settings _ |- _ =>
      let E := fresh "E" in pose proof (f_equal f H) as E; cbn in E
  | H : withoutItems _ = withoutItems _ |- _ =>
      let E := fresh "E" in pose proof (f_equal f H) as E; cbn in E
  end.


Section Lifecycle.

Variable ext : Externals.

(** C7: a press stores in [msSinceLastClick] the time elapsed since the
    previous press, computed from the old [timeDown] before [timeDown] is
    overwritten with the current time. *)
Theorem start_msSinceLastClick (event : Event.t) (s : State) :
  let s' := final (start ext event s) in
  Pointer.msSinceLastClick (this s')
    = Game.time_now (game s) - Pointer.timeDown (this s)
  /\ Pointer.timeDown (this s') = Game.time_now (game s).
Proof.
  change (wp (start ext event)
            (fun _ s' _ =>
               Pointer.msSinceLastClick (this s')
                 = Game.time_now (game s) - Pointer.timeDown (this s)
               /\ Pointer.timeDown (this s') = Game.time_now (game s)) s).
  unfold start. wp_run.
  all: frame_field Pointer.msSinceLastClick;
    frame_field Pointer.timeDown; split; assumption.
Qed.

(** What each step does to the two flags. *)
Lemma start_flags event s :
  Pointer.isDown (this (final (start ext event s))) = true
  /\ Pointer.isUp (this (final (start ext event s))) = false.
Proof.
  change (wp (start ext event)
            (fun _ s' _ => Pointer.isDown (this s') = true
                           /\ Pointer.isUp (this s') = false) s).
  unfold start. wp_run.
  all: frame_field Pointer.isDown; frame_field Pointer.isUp;
    split; assumption.
Qed.

Lemma move_flags event fromClick s :
  Pointer.isDown (this (final (move ext event fromClick s))) = Pointer.isDown (this s)
  /\ Pointer.isUp (this (final (move ext event fromClick s))) = Pointer.isUp (this s).
Proof.
  pose proof (f_equal this (move_lifecycle ext event fromClick s)) as H.
  split; [exact (f_equal Pointer.isDown H) | exact (f_equal Pointer.isUp H)].
Qed.

Lemma leave_flags event s :
  Pointer.isDown (this (final (leave ext event s))) = Pointer.isDown (this s)
  /\ Pointer.isUp (this (final (leave ext event s))) = Pointer.isUp (this s).
Proof.
  change (wp (leave ext event)
            (fun _ s' _ => Pointer.isDown (this s') = Pointer.isDown (this s)
                           /\ Pointer.isUp (this s') = Pointer.isUp (this s)) s).
  unfold leave. wp_run.
  frame_field Pointer.isDown; frame_field Pointer.isUp; split; assumption.
Qed.

Lemma update_flags s :
  Pointer.isDown (this (final (update ext s))) = Pointer.isDown (this s)
  /\ Pointer.isUp (this (final (update ext s))) = Pointer.isUp (this s).
Proof.
  change (wp (update ext)
            (fun _ s' _ => Pointer.isDown (this s') = Pointer.isDown (this s)
                           /\ Pointer.isUp (this s') = Pointer.isUp (this s)) s).
  unfold update. wp_run.
  all: try (frame_field Pointer.isDown; frame_field Pointer.isUp);
    split; first [assumption | reflexivity].
Qed.

Lemma stop_flags event s :
  let p' := this (final (stop event s)) in
  if Pointer._stateReset (this s)
  then Pointer.isDown p' = Pointer.isDown (this s)
       /\ Pointer.isUp p' = Pointer.isUp (this s)
  else Pointer.isDown p' = false /\ Pointer.isUp p' = true.
Proof.
  change (wp (stop event)
            (fun _ s' _ =>
               if Pointer._stateReset (this s)
               then Pointer.isDown (this s') = Pointer.isDown (this s)
                    /\ Pointer.isUp (this s') = Pointer.isUp (this s)
               else Pointer.isDown (this s') = false
                    /\ Pointer.isUp (this s') = true) s).
  unfold stop. wp_run.
  all: split; reflexivity.
Qed.

Lemma reset_flags s :
  Pointer.isDown (this (final (reset s))) = false
  /\ Pointer.isUp (this (final (reset s))) = true.
Proof.
  change (wp reset
            (fun _ s' _ => Pointer.isDown (this s') = false
                           /\ Pointer.isUp (this s') = true) s).
  unfold reset. wp_run.
  all: split; reflexivity.
Qed.

Lemma step_flags (st : Step) (s : State) :
  let p := this s in
  let p' := this (final (step ext st s)) in
  (Pointer.isDown p' = Pointer.isDown p /\ Pointer.isUp p' = Pointer.isUp p)
  \/ (Pointer.isDown p' = true /\ Pointer.isUp p' = false)
  \/ (Pointer.isDown p' = false /\ Pointer.isUp p' = true).
Proof.
  destruct st; cbn [step].
  - right; left. apply start_flags.
  - left. apply move_flags.
  - left. apply update_flags.
  - left. apply leave_flags.
  - pose proof (stop_flags event s) as H. cbv zeta in H.
    destruct (Pointer._stateReset (this s)); [left | right; right]; exact H.
  - right; right. apply reset_flags.
  - left. split; reflexivity.
Qed.

Lemma step_exactlyOne (st : Step) (s : State) :
  exactlyOneOfDownUp (this s) ->
  exactlyOneOfDownUp (this (final (step ext st s))).
Proof.
  unfold exactlyOneOfDownUp. intro H.
  destruct (step_flags st s) as [[Hd Hu] | [[Hd Hu] | [Hd Hu]]];
    rewrite Hd, Hu; [exact H | reflexivity | reflexivity].
Qed.

(** C8: exactly one of [isDown] and [isUp] is true after construction, and
    every step keeps it so: a step either leaves both flags alone or writes
    both, to opposite values.  Hence it holds after any run of steps from a
    new pointer. *)
Theorem isDown_isUp_exclusive (id : Z) (g : Game.t) (st : Step)
    (sts : list Step) (s : State) :
  exactlyOneOfDownUp (newPointer id)
  /\ (exactlyOneOfDownUp (this s) ->
      exactlyOneOfDownUp (this (final (step ext st s))))
  /\ ((Pointer.isDown (this (final (step ext st s))) = Pointer.isDown (this s)
       /\ Pointer.isUp (this (final (step ext st s))) = Pointer.isUp (this s))
      \/ Pointer.isDown (this (final (step ext st s)))
         = negb (Pointer.isUp (this (final (step ext st s)))))
  /\ exactlyOneOfDownUp
       (this (final (forEach sts (step ext) (mkState (newPointer id) g)))).
Proof.
  split; [reflexivity|].
  split; [apply step_exactlyOne|].
  split.
  - destruct (step_flags st s) as [H | [[Hd Hu] | [Hd Hu]]];
      [left; exact H | right; rewrite Hd, Hu; reflexivity
      | right; rewrite Hd, Hu; reflexivity].
  - assert (G : forall s0, exactlyOneOfDownUp (this s0) ->
                exactlyOneOfDownUp (this (final (forEach sts (step ext) s0)))).
    { induction sts as [|st' sts' IH]; intros s0 H0.
      - exact H0.
      - rewrite forEach_cons, final_bind. apply IH, step_exactlyOne, H0. }
    apply G. reflexivity.
Qed.

End Lifecycle.

(** A held touch, and the same touch once released. *)
Lemma isDown_isUp_exclusive_witness :
  exactlyOneOfDownUp (this (heldTouch MOUSE_TOUCH_COMBINE))
  /\ exactlyOneOfDownUp
       (this (final (step (sampleExternals [] []) (Stop sampleEvent)
                       (heldTouch MOUSE_TOUCH_COMBINE)))).
Proof.
  split; [reflexivity |].
  apply (proj1 (proj2 (isDown_isUp_exclusive (sampleExternals [] []) 1
                         (sampleGame 0 (sampleInput MOUSE_TOUCH_COMBINE 100 []))
                         (Stop sampleEvent) [] (heldTouch MOUSE_TOUCH_COMBINE)))).
  reflexivity.
Defined.

Section History.

Variable ext : Externals.

(** The history after [update], read off the code: the hit test and the
    hold block in front of the history block do not touch it. *)
Lemma update_history (s : State) :
  Pointer._history (this (final (update ext s))) =
  if recordingDue s then
    let h := Pointer._history (this s) ++ [sampleOf s] in
    if recordLimitOf s <? Z.of_nat (length h) then tl h else h
  else Pointer._history (this s).
Proof.
  change (wp (update ext)
            (fun _ s' _ =>
               Pointer._history (this s') =
               if recordingDue s then
                 let h := Pointer._history (this s) ++ [sampleOf s] in
                 if recordLimitOf s <? Z.of_nat (length h) then tl h else h
               else Pointer._history (this s)) s).
  unfold update. wp_run.
  all: try (frame_field Pointer._history; frame_field Pointer.position;
            frame_field Pointer._nextDrop);
    unfold recordingDue, recordLimitOf, sampleOf;
    repeat match goal with
           | E : _ (this _) = _ (this _) |- _ => rewrite E in *; clear E
           end;
    repeat match goal with
           | H : ?b = _ |- context [?b] => rewrite H; cbn
           end;
    try reflexivity.
Qed.

Lemma start_history event (s : State) :
  Pointer._history (this (final (start ext event s))) = [].
Proof.
  change (wp (start ext event)
            (fun _ s' _ => Pointer._history (this s') = []) s).
  unfold start. wp_run.
  all: frame_field Pointer._history; assumption.
Qed.

Lemma reset_history (s : State) :
  Pointer._history (this (final (reset s))) = [].
Proof.
  change (wp reset (fun _ s' _ => Pointer._history (this s') = []) s).
  unfold reset. wp_run; reflexivity.
Qed.

(** No method of the Pointer writes a setting of the game. *)
Lemma lifecycle_settings {A : Type} (m : M A) :
  keeps lifecycleFrame m -> keeps (fun s => settings (game s)) m.
Proof. intros H s. exact (f_equal game (H s)). Qed.

Lemma update_settings : keeps (fun s => settings (game s)) (update ext).
Proof.
  unfold update. keeps_auto.
  apply lifecycle_settings, processInteractiveObjects_lifecycle.
Qed.

Lemma start_settings event : keeps (fun s => settings (game s)) (start ext event).
Proof.
  unfold start. keeps_auto.
  all: apply lifecycle_settings, move_lifecycle.
Qed.

Lemma reset_settings : keeps (fun s => settings (game s)) reset.
Proof. unfold reset. keeps_auto. Qed.

Lemma settings_recordLimit (s s' : State) :
  settings (game s') = settings (game s) -> recordLimitOf s' = recordLimitOf s.
Proof.
  intro H. exact (f_equal (fun g => Input.recordLimit (Game.input g)) H).
Qed.

(** C6: if the history fits its capacity before [update], [start] or
    [reset], it fits after; [update] appends the new sample at the back
    and, when that overflows, drops one sample from the front, so that a
    full buffer loses its oldest sample. *)
Theorem history_bounded (event : Event.t) (s : State)
    (H : historyLength s <= recordLimitOf s) :
  historyLength (final (update ext s)) <= recordLimitOf (final (update ext s))
  /\ historyLength (final (start ext event s))
     <= recordLimitOf (final (start ext event s))
  /\ historyLength (final (reset s)) <= recordLimitOf (final (reset s))
  /\ (recordingDue s = false ->
      Pointer._history (this (final (update ext s))) = Pointer._history (this s))
  /\ (recordingDue s = true ->
      exists k, (k <= 1)%nat
        /\ Pointer._history (this (final (update ext s)))
           = skipn k (Pointer._history (this s) ++ [sampleOf s]))
  /\ (recordingDue s = true ->
      forall oldest rest,
        Pointer._history (this s) = oldest :: rest ->
        historyLength s = recordLimitOf s ->
        Pointer._history (this (final (update ext s))) = rest ++ [sampleOf s]).
Proof.
  assert (L0 : 0 <= recordLimitOf s) by (unfold historyLength in H; lia).
  rewrite (settings_recordLimit _ _ (update_settings s)).
  rewrite (settings_recordLimit _ _ (start_settings event s)).
  rewrite (settings_recordLimit _ _ (reset_settings s)).
  unfold historyLength in *.
  rewrite start_history, reset_history, update_history.
  cbv zeta.
  split; [| split; [exact L0 | split; [exact L0 |]]].
  - destruct (recordingDue s); [| exact H].
    destruct (Z.ltb_spec (recordLimitOf s)
                (Z.of_nat (length (Pointer._history (this s) ++ [sampleOf s]))))
      as [Hlt | Hge]; [| exact Hge].
    rewrite length_app in Hlt. cbn [length] in Hlt.
    destruct (Pointer._history (this s)) as [|o r]; cbn [app tl length] in *.
    + exact L0.
    + rewrite length_app. cbn [length]. lia.
  - split; [intros ->; reflexivity |].
    split.
    + intros ->.
      destruct (recordLimitOf s
                <? Z.of_nat (length (Pointer._history (this s) ++ [sampleOf s]))).
      * exists 1%nat. split; [lia |].
        destruct (Pointer._history (this s)); reflexivity.
      * exists 0%nat. split; [lia | reflexivity].
    + intros -> oldest rest Hh Hfull. rewrite Hh in *.
      cbn [app length tl] in *. rewrite length_app. cbn [length].
      destruct (Z.ltb_spec (recordLimitOf s)
                  (Z.of_nat (S (length rest + 1)))) as [_ | Hge];
        [reflexivity | lia].
Qed.

End History.

(** A full buffer of capacity 2 loses its oldest sample at the next drop. *)
Lemma history_bounded_witness :
  historyLength fullHistory <= recordLimitOf fullHistory
  /\ Pointer._history (this (final (update (sampleExternals [] []) fullHistory)))
     = [Point.mk 10 10; Point.mk 10 10].
Proof.
  assert (H : historyLength fullHistory <= recordLimitOf fullHistory)
    by (vm_compute; discriminate).
  split; [exact H |].
  destruct (history_bounded (sampleExternals [] []) sampleEvent fullHistory H)
    as (_ & _ & _ & _ & _ & Hfifo).
  exact (Hfifo eq_refl (Point.mk 10 10) [Point.mk 10 10] eq_refl eq_refl).
Defined.

Section Release.

Variable ext : Externals.

Lemma filter_isTap_released (l : list InputHandler.t) :
  filter isTap (map (fun node => ReleasedHandler (InputHandler.hid node)) l) = [].
Proof. induction l as [|n l IH]; [reflexivity | exact IH]. Qed.

Lemma stop_taps (event : Event.t) (s : State) :
  filter isTap (trace (stop event s)) =
    (if tapDeclared s
     then [OnTap (Game.time_now (game s) - Pointer.previousTapTime (this s)
                  <? Input.doubleTapRate (Game.input (game s)))]
     else [])
  /\ Pointer.previousTapTime (this (final (stop event s))) =
     (if tapDeclared s then Game.time_now (game s)
      else Pointer.previousTapTime (this s))
  /\ (Pointer._stateReset (this s) = false ->
      Pointer.timeUp (this (final (stop event s))) = Game.time_now (game s)).
Proof.
  change (wp (stop event)
            (fun _ s' t =>
               filter isTap t =
                 (if tapDeclared s
                  then [OnTap (Game.time_now (game s)
                               - Pointer.previousTapTime (this s)
                               <? Input.doubleTapRate (Game.input (game s)))]
                  else [])
               /\ Pointer.previousTapTime (this s') =
                  (if tapDeclared s then Game.time_now (game s)
                   else Pointer.previousTapTime (this s))
               /\ (Pointer._stateReset (this s) = false ->
                   Pointer.timeUp (this s') = Game.time_now (game s))) s).
  unfold stop. wp_run.
  all: unfold tapDeclared, duration in *; cbn in *;
    repeat match goal with
           | H : ?b = _ |- context [?b] => rewrite H; cbn
           end;
    rewrite ?filter_app, ?filter_isTap_released; cbn.
  all: repeat split; try reflexivity; try discriminate.
Qed.

(** C5, as the code has it: a release that is not suppressed by
    [_stateReset] and that the override policy lets through declares
    exactly one tap when the press lasted between 0 and [tapRate]; the tap
    is a double tap exactly when [timeUp - previousTapTime < doubleTapRate];
    and [previousTapTime] changes only when a tap was declared, to
    [timeUp]. *)
Theorem stop_tap (event : Event.t) (s : State) :
  let r := stop event s in
  (Pointer._stateReset (this s) = false ->
   overridePermits (game s) = true ->
   0 <= duration s <= Input.tapRate (Game.input (game s)) ->
   filter isTap (trace r) =
     [OnTap (Pointer.timeUp (this (final r)) - Pointer.previousTapTime (this s)
             <? Input.doubleTapRate (Game.input (game s)))]
   /\ Pointer.previousTapTime (this (final r)) = Pointer.timeUp (this (final r))
   /\ Pointer.timeUp (this (final r)) = Game.time_now (game s))
  /\ (filter isTap (trace r) = [] ->
      Pointer.previousTapTime (this (final r)) = Pointer.previousTapTime (this s)).
Proof.
  cbv zeta.
  destruct (stop_taps event s) as (Ht & Hp & Hu).
  split.
  - intros Hreset Hgate [Hlo Hhi].
    assert (Hd : tapDeclared s = true).
    { unfold tapDeclared. rewrite Hreset, Hgate. cbn.
      apply andb_true_intro; split; [apply Z.leb_le | apply Z.leb_le]; assumption. }
    rewrite Hd in Ht, Hp. rewrite Ht, Hp, (Hu Hreset). auto.
  - intro Hnone. rewrite Hnone in Ht.
    destruct (tapDeclared s); [discriminate Ht | exact Hp].
Qed.

(** A touch released 50 ms after its press, under [MOUSE_TOUCH_COMBINE]. *)
Lemma stop_tap_witness :
  filter isTap (trace (stop sampleEvent (heldTouch MOUSE_TOUCH_COMBINE)))
  = [OnTap true].
Proof.
  apply (proj1 (stop_tap sampleEvent (heldTouch MOUSE_TOUCH_COMBINE)));
    [reflexivity | reflexivity | vm_compute; split; discriminate].
Defined.

(** The guard on the override policy is needed: a mouse button released
    50 ms after its press, well inside [tapRate], declares no tap when the
    policy is [TOUCH_OVERRIDES_MOUSE] and a touch is down. *)
Lemma stop_tap_needs_policy :
  let s := heldMouseUnderTouch in
  Pointer._stateReset (this s) = false
  /\ 0 <= duration s <= Input.tapRate (Game.input (game s))
  /\ ~ (exists d, In (OnTap d) (trace (stop sampleEvent s))).
Proof.
  cbv zeta. split; [reflexivity |].
  split; [vm_compute; split; discriminate |].
  intros [d Hin]. vm_compute in Hin.
  repeat (destruct Hin as [Hin | Hin]; [discriminate Hin |]).
  exact Hin.
Qed.

(** C9: a release that arrives while [_stateReset] is set does nothing but
    prevent the default action of the event: the Pointer and the game are
    as before, nothing is broadcast and no candidate is told. *)
Theorem stop_suppressed_after_reset (event : Event.t) (s : State)
    (H : Pointer._stateReset (this s) = true) :
  stop event s = (tt, s, [PreventDefault]).
Proof.
  unfold stop, bind, self. rewrite H. reflexivity.
Qed.

(** A release that follows a [reset] of a held touch. *)
Lemma stop_suppressed_after_reset_witness :
  let s := after [Reset] (heldTouch MOUSE_TOUCH_COMBINE) in
  stop sampleEvent s = (tt, s, [PreventDefault]).
Proof.
  apply stop_suppressed_after_reset. reflexivity.
Defined.

(** C10: [reset] leaves the four timing fields alone and sets [isUp], so
    [justReleased] can answer [true] right after a [reset] although the
    pointer was not released since: here it was reset while held down,
    100 ms after its last release. *)
Theorem reset_keeps_timing :
  (forall s : State,
     let p' := this (final (reset s)) in
     Pointer.timeDown p' = Pointer.timeDown (this s)
     /\ Pointer.timeUp p' = Pointer.timeUp (this s)
     /\ Pointer.previousTapTime p' = Pointer.previousTapTime (this s)
     /\ Pointer.msSinceLastClick p' = Pointer.msSinceLastClick (this s)
     /\ Pointer.isUp p' = true)
  /\ justReleased None pressedAgain = false
  /\ justReleased None (after [Reset] pressedAgain) = true.
Proof.
  split; [| split; reflexivity].
  intro s.
  change (wp reset
            (fun _ s' _ =>
               Pointer.timeDown (this s') = Pointer.timeDown (this s)
               /\ Pointer.timeUp (this s') = Pointer.timeUp (this s)
               /\ Pointer.previousTapTime (this s') = Pointer.previousTapTime (this s)
               /\ Pointer.msSinceLastClick (this s') = Pointer.msSinceLastClick (this s)
               /\ Pointer.isUp (this s') = true) s).
  unfold reset. wp_run; repeat split.
Qed.

End Release.

(** ** The comparison behind [validForInput] *)

Lemma validForInput_exact (h : InputHandler.t) (b : Z * Z) :
  InputHandler.validForInput h (fst b) (snd b) true = true <-> better h b.
Proof.
  unfold InputHandler.validForInput, better. cbn [negb andb].
  rewrite orb_true_iff, andb_true_iff, !Z.ltb_lt, Z.eqb_eq. reflexivity.
Qed.

Lemma validForInput_cheap (h : InputHandler.t) (b : Z * Z) :
  InputHandler.validForInput h (fst b) (snd b) false = true
  <-> InputHandler.pixelPerfect h = false /\ better h b.
Proof.
  unfold InputHandler.validForInput, better. cbn [negb andb].
  destruct (InputHandler.pixelPerfect h).
  - split; [discriminate | intros [H _]; discriminate H].
  - rewrite orb_true_iff, andb_true_iff, !Z.ltb_lt, Z.eqb_eq. tauto.
Qed.

Lemma floorLe_refl (b : Z * Z) : floorLe b b.
Proof. unfold floorLe. lia. Qed.

Lemma floorLe_trans {a b c : Z * Z} : floorLe a b -> floorLe b c -> floorLe a c.
Proof. unfold floorLe. lia. Qed.

Lemma better_mono {h : InputHandler.t} {b b' : Z * Z} :
  floorLe b b' -> better h b' -> better h b.
Proof. unfold floorLe, better. lia. Qed.

Lemma better_rises {h : InputHandler.t} {b : Z * Z} :
  better h b -> floorLe b (keyOf h).
Proof. unfold floorLe, better, keyOf. cbn [fst snd]. lia. Qed.

Lemma key_unbeaten {h : InputHandler.t} {b : Z * Z} :
  floorLe (keyOf h) b -> ~ better h b.
Proof. unfold floorLe, better, keyOf. cbn [fst snd]. lia. Qed.

Lemma sameCandidate_fields {n n' : InputHandler.t} :
  sameCandidate n n' ->
  InputHandler.hid n' = InputHandler.hid n
  /\ InputHandler.priorityID n' = InputHandler.priorityID n
  /\ InputHandler.renderOrderID n' = InputHandler.renderOrderID n
  /\ InputHandler.pixelPerfect n' = InputHandler.pixelPerfect n.
Proof.
  unfold sameCandidate. intro H.
  repeat split;
    [exact (f_equal InputHandler.hid H)
    | exact (f_equal InputHandler.priorityID H)
    | exact (f_equal InputHandler.renderOrderID H)
    | exact (f_equal InputHandler.pixelPerfect H)].
Qed.

Lemma sameCandidate_better {n n' : InputHandler.t} (b : Z * Z) :
  sameCandidate n n' -> (better n' b <-> better n b).
Proof.
  intro H. destruct (sameCandidate_fields H) as (_ & Hp & Hr & _).
  unfold better. rewrite Hp, Hr. reflexivity.
Qed.

(** ** The first sweep *)

Section FirstSweep.

Variable ext : Externals.
Variable fromClick : bool.

Lemma sweptAs_mono {b b' : Z * Z} {n n' : InputHandler.t} :
  floorLe b b' -> sweptAs b n n' -> sweptAs b' n n'.
Proof.
  intros Hle [Hs H]. split; [exact Hs |].
  destruct H as [H | [Hc [H | H]]]; [left; exact H | right | right].
  - split; [exact Hc | left; exact H].
  - split; [exact Hc | right]. intro Hb. apply H. exact (better_mono Hle Hb).
Qed.

Lemma firstPass_spec (nodes : list InputHandler.t) (s : State) :
  let r := firstPass ext fromClick nodes s in
  let pos := Pointer.position (this s) in
  floorLe (floorOf s) (floorOf (final r))
  /\ ((floorOf (final r) = floorOf s
       /\ Pointer._highestRenderObject (this (final r))
          = Pointer._highestRenderObject (this s))
      \/ exists c, In c nodes
           /\ InputHandler.pixelPerfect c = false
           /\ overlaps ext fromClick pos true (InputHandler.hid c) = true
           /\ better c (floorOf s)
           /\ floorOf (final r) = keyOf c
           /\ Pointer._highestRenderObject (this (final r))
              = Some (InputHandler.hid c))
  /\ (forall c, In c nodes ->
        InputHandler.pixelPerfect c = false ->
        overlaps ext fromClick pos true (InputHandler.hid c) = true ->
        ~ better c (floorOf (final r)))
  /\ Forall2 (sweptAs (floorOf (final r))) nodes (result r)
  /\ Forall (fun a => exists h, a = testCall fromClick h true) (trace r)
  /\ sweepFrame (final r) = sweepFrame s.
Proof.
  cbv zeta. revert s.
  induction nodes as [|n rest IH]; intro s.
  - rewrite firstPass_nil. cbn [result final trace fst snd].
    conjs.
    + apply floorLe_refl.
    + left. split; reflexivity.
    + intros c [].
    + constructor.
    + constructor.
    + reflexivity.
  - rewrite firstPass_cons.
    destruct (InputHandler.validForInput n _ _ false) eqn:Hvalid.
    + apply validForInput_cheap in Hvalid. destruct Hvalid as [Hpp Hbetter].
      cbv zeta.
      destruct (overlaps ext fromClick (Pointer.position (this s)) true
                  (InputHandler.hid n)) eqn:Hhit.
      * destruct (IH (recorded n s)) as (Hle & Hwin & Hun & Hnodes & Htr & Hfr).
        clear IH. cbn [result final trace fst snd].
        change (floorOf (recorded n s)) with (keyOf n) in *.
        change (Pointer.position (this (recorded n s)))
          with (Pointer.position (this s)) in *.
        assert (Hup : floorLe (floorOf s) (keyOf n)) by (apply better_rises; exact Hbetter).
        conjs.
        -- exact (floorLe_trans Hup Hle).
        -- right. destruct Hwin as [[Hf Ho] | (c & Hin & Hc1 & Hc2 & Hc3 & Hc4 & Hc5)].
           ++ exists n. conjs; try assumption; left; reflexivity.
           ++ exists c. conjs; try assumption;
                [right; exact Hin | exact (better_mono Hup Hc3)].
        -- intros c [<- | Hin] Hc1 Hc2.
           ++ apply key_unbeaten. exact Hle.
           ++ exact (Hun c Hin Hc1 Hc2).
        -- constructor; [| exact Hnodes].
           split; [reflexivity | left; reflexivity].
        -- constructor; [eexists; reflexivity | exact Htr].
        -- exact Hfr.
      * destruct (IH s) as (Hle & Hwin & Hun & Hnodes & Htr & Hfr).
        clear IH. cbn [result final trace fst snd].
        conjs.
        -- exact Hle.
        -- destruct Hwin as [H | (c & Hin & Hc)]; [left; exact H |].
           right. exists c. split; [right; exact Hin | exact Hc].
        -- intros c [<- | Hin] Hc1 Hc2.
           ++ rewrite Hhit in Hc2. discriminate Hc2.
           ++ exact (Hun c Hin Hc1 Hc2).
        -- constructor; [| exact Hnodes].
           split; [reflexivity | left; reflexivity].
        -- constructor; [eexists; reflexivity | exact Htr].
        -- exact Hfr.
    + assert (Hno : InputHandler.pixelPerfect n = true \/ ~ better n (floorOf s)).
      { destruct (InputHandler.pixelPerfect n) eqn:Hpp; [left; reflexivity | right].
        intro Hb. rewrite (proj2 (validForInput_cheap n (floorOf s)) (conj Hpp Hb)) in Hvalid.
        discriminate Hvalid. }
      destruct (IH s) as (Hle & Hwin & Hun & Hnodes & Htr & Hfr).
      clear IH. cbn [result final trace fst snd].
      conjs.
      * exact Hle.
      * destruct Hwin as [H | (c & Hin & Hc)]; [left; exact H |].
        right. exists c. split; [right; exact Hin | exact Hc].
      * intros c [<- | Hin] Hc1 Hc2.
        -- destruct Hno as [Hpp | Hnb]; [rewrite Hpp in Hc1; discriminate Hc1 |].
           intro Hb. apply Hnb. exact (better_mono Hle Hb).
        -- exact (Hun c Hin Hc1 Hc2).
      * constructor; [| exact Hnodes].
        apply (sweptAs_mono Hle).
        split; [reflexivity | right; split; [reflexivity | exact Hno]].
      * exact Htr.
      * exact Hfr.
Qed.

End FirstSweep.

(** ** The second sweep *)

Section SecondSweep.

Variable ext : Externals.
Variable fromClick : bool.

Lemma isExactTestOf_testCall (h h' : nat) (fastTest : bool) :
  isExactTestOf h (testCall fromClick h' fastTest)
  = negb fastTest && Nat.eqb h h'.
Proof. destruct fromClick, fastTest; reflexivity. Qed.

Lemma secondPass_spec (nodes : list InputHandler.t) (s : State) :
  let r := secondPass ext fromClick nodes s in
  floorLe (floorOf s) (floorOf (final r))
  /\ Forall (fun a => exists h, a = testCall fromClick h false) (trace r)
  /\ sweepFrame (final r) = sweepFrame s
  /\ (forall h,
        (length (filter (isExactTestOf h) (trace r))
         <= length (filter (fun n => Nat.eqb h (InputHandler.hid n)) nodes))%nat)
  /\ (forall h,
        (forall n, In n nodes -> InputHandler.hid n = h ->
                   InputHandler.checked n = true \/ ~ better n (floorOf s)) ->
        filter (isExactTestOf h) (trace r) = [])
  /\ ((forall n, In n nodes ->
                 InputHandler.checked n = true \/ ~ better n (floorOf s)) ->
      final r = s /\ trace r = []).
Proof.
  cbv zeta. revert s.
  induction nodes as [|n rest IH]; intro s.
  - rewrite secondPass_nil. cbn [result final trace fst snd filter length].
    conjs.
    + apply floorLe_refl.
    + constructor.
    + reflexivity.
    + intro h. apply Nat.le_refl.
    + intros h _. reflexivity.
    + intros _. split; reflexivity.
  - rewrite secondPass_cons.
    destruct (negb (InputHandler.checked n)
              && InputHandler.validForInput n (fst (floorOf s)) (snd (floorOf s)) true)
      eqn:Hguard; cbv zeta; cbn [result final trace fst snd].
    + apply andb_true_iff in Hguard. destruct Hguard as [Hunchecked Hvalid].
      apply negb_true_iff in Hunchecked.
      apply validForInput_exact in Hvalid.
      set (s1 := if overlaps ext fromClick (Pointer.position (this s)) false
                      (InputHandler.hid n)
                 then recorded n s else s).
      assert (Hup : floorLe (floorOf s) (floorOf s1)).
      { subst s1. destruct (overlaps ext fromClick _ false _);
          [exact (better_rises Hvalid) | apply floorLe_refl]. }
      assert (Hfr1 : sweepFrame s1 = sweepFrame s).
      { subst s1. destruct (overlaps ext fromClick _ false _); reflexivity. }
      destruct (IH s1) as (Hle & Htr & Hfr & Hcount & Hskip & _). clear IH.
      conjs.
      * exact (floorLe_trans Hup Hle).
      * constructor; [eexists; reflexivity | exact Htr].
      * rewrite Hfr. exact Hfr1.
      * intro h. cbn [filter]. rewrite isExactTestOf_testCall. cbn [negb andb].
        destruct (Nat.eqb h (InputHandler.hid n)); cbn [length];
          [apply le_n_S |]; apply Hcount.
      * intros h Hall. cbn [filter]. rewrite isExactTestOf_testCall. cbn [negb andb].
        destruct (Nat.eqb_spec h (InputHandler.hid n)) as [-> | Hne].
        -- destruct (Hall n (or_introl eq_refl) eq_refl) as [Hc | Hnb];
             [rewrite Hc in Hunchecked; discriminate Hunchecked
             | contradiction].
        -- apply Hskip. intros n0 Hin Hh.
           destruct (Hall n0 (or_intror Hin) Hh) as [Hc | Hnb];
             [left; exact Hc | right].
           intro Hb. apply Hnb. exact (better_mono Hup Hb).
      * intro Hall.
        destruct (Hall n (or_introl eq_refl)) as [Hc | Hnb];
          [rewrite Hc in Hunchecked; discriminate Hunchecked | contradiction].
    + assert (Hno : InputHandler.checked n = true \/ ~ better n (floorOf s)).
      { destruct (InputHandler.checked n); [left; reflexivity | right].
        intro Hb. apply validForInput_exact in Hb.
        rewrite Hb in Hguard. discriminate Hguard. }
      destruct (IH s) as (Hle & Htr & Hfr & Hcount & Hskip & Hidle). clear IH.
      conjs.
      * exact Hle.
      * exact Htr.
      * exact Hfr.
      * intro h. cbn [filter].
        destruct (Nat.eqb h (InputHandler.hid n)); cbn [length];
          [apply Nat.le_le_succ_r |]; apply Hcount.
      * intros h Hall. apply Hskip.
        intros n0 Hin Hh. exact (Hall n0 (or_intror Hin) Hh).
      * intro Hall. apply Hidle.
        intros n0 Hin. exact (Hall n0 (or_intror Hin)).
Qed.

End SecondSweep.

(** ** The three phases of [processInteractiveObjects] *)

Section Phases.

Variable ext : Externals.
Variable fromClick : bool.

Lemma cheapPhase_run (s : State) :
  let r := firstPass ext fromClick (itemsOf (cleared s)) (cleared s) in
  cheapPhase ext fromClick s = (tt, withItems (result r) (final r), trace r).
Proof.
  cbv zeta. unfold cheapPhase.
  rewrite !bind_run.
  cbn [assign assignInput theGame result final trace fst snd app this game].
  rewrite app_nil_r. reflexivity.
Qed.

Lemma exactPhase_run (s : State) :
  let r := secondPass ext fromClick (itemsOf s) s in
  exactPhase ext fromClick s = (result r, final r, trace r).
Proof.
  cbv zeta. unfold exactPhase. rewrite bind_run. reflexivity.
Qed.

Lemma notifyTarget_spec (s : State) :
  let r := notifyTarget ext s in
  let retarget v := mkState (Pointer.set_targetObject v (this s)) (game s) in
  match Pointer._highestRenderObject (this s), Pointer.targetObject (this s) with
  | None, None => final r = s /\ trace r = []
  | None, Some old =>
      final r = retarget None
      /\ trace r = [PointerOutHandler old; AssignTargetObject None]
  | Some highest, None =>
      final r = retarget (Some highest)
      /\ trace r = [AssignTargetObject (Some highest); PointerOverHandler highest]
  | Some highest, Some old =>
      if Nat.eqb old highest then
        if update_ ext highest (Pointer.position (this s))
        then final r = s /\ trace r = [UpdateHandler highest]
        else final r = retarget None
             /\ trace r = [UpdateHandler highest; AssignTargetObject None]
      else
        final r = retarget (Some highest)
        /\ trace r = [PointerOutHandler old; AssignTargetObject (Some highest);
                      PointerOverHandler highest]
  end.
Proof.
  cbv zeta. unfold notifyTarget. rewrite bind_run.
  unfold self. cbn [result final trace fst snd app].
  destruct (Pointer._highestRenderObject (this s)) as [highest|];
    destruct (Pointer.targetObject (this s)) as [old|];
    try (split; reflexivity).
  destruct (Nat.eqb old highest); [| split; reflexivity].
  destruct (update_ ext highest (Pointer.position (this s))); split; reflexivity.
Qed.

Lemma processInteractiveObjects_run (s : State) :
  let s1 := final (cheapPhase ext fromClick s) in
  let s2 := final (exactPhase ext fromClick s1) in
  let s3 := final (notifyTarget ext s2) in
  final (processInteractiveObjects ext fromClick s) = s3
  /\ trace (processInteractiveObjects ext fromClick s)
     = trace (cheapPhase ext fromClick s)
       ++ trace (exactPhase ext fromClick s1)
       ++ trace (notifyTarget ext s2)
  /\ result (processInteractiveObjects ext fromClick s)
     = defined (Pointer.targetObject (this s3)).
Proof.
  cbv zeta. unfold processInteractiveObjects.
  rewrite !bind_run. unfold self, ret. cbn [result final trace fst snd].
  rewrite !app_nil_r. conjs; reflexivity.
Qed.

End Phases.

(** ** The resolver as a whole *)

Section Resolver.

Variable ext : Externals.
Variable fromClick : bool.

Lemma tests_tell_nothing {fastTest : bool} {t : list Action} :
  Forall (fun a => exists h, a = testCall fromClick h fastTest) t ->
  filter isNotification t = [] /\ filter isTargetWrite t = [].
Proof.
  induction 1 as [|a t [h ->] _ [IH1 IH2]]; [split; reflexivity |].
  cbn [filter]. destruct fromClick; cbn; split; assumption.
Qed.

Lemma cheap_tests_not_exact (t : list Action) (h : nat) :
  Forall (fun a => exists h', a = testCall fromClick h' true) t ->
  filter (isExactTestOf h) t = [].
Proof.
  induction 1 as [|a t [h' ->] _ IH]; [reflexivity |].
  cbn [filter]. rewrite isExactTestOf_testCall. exact IH.
Qed.

Lemma notifications_not_tests (s : State) (h : nat) :
  filter (isExactTestOf h) (trace (notifyTarget ext s)) = [].
Proof.
  pose proof (notifyTarget_spec ext s) as H. cbv zeta in H.
  destruct (Pointer._highestRenderObject (this s)),
           (Pointer.targetObject (this s));
    try (destruct H as [_ ->]; reflexivity).
  destruct (Nat.eqb n0 n); [| destruct H as [_ ->]; reflexivity].
  destruct (update_ ext n _); destruct H as [_ ->]; reflexivity.
Qed.

(** What the first phase establishes, in terms of the candidates the call
    was given. *)
Lemma cheapPhase_spec (s : State) :
  let s1 := final (cheapPhase ext fromClick s) in
  let pos := Pointer.position (this s) in
  Forall (fun a => exists h, a = testCall fromClick h true)
         (trace (cheapPhase ext fromClick s))
  /\ Pointer.targetObject (this s1) = Pointer.targetObject (this s)
  /\ Pointer.position (this s1) = pos
  /\ Forall2 (sweptAs (floorOf s1))
       (map (InputHandler.set_checked false) (itemsOf s)) (itemsOf s1)
  /\ ((floorOf s1 = (-1, MAX_SAFE_INTEGER)
       /\ Pointer._highestRenderObject (this s1) = None)
      \/ exists c, In c (itemsOf s)
           /\ InputHandler.pixelPerfect c = false
           /\ overlaps ext fromClick pos true (InputHandler.hid c) = true
           /\ floorOf s1 = keyOf c
           /\ Pointer._highestRenderObject (this s1) = Some (InputHandler.hid c))
  /\ (forall c, In c (itemsOf s) ->
        InputHandler.pixelPerfect c = false ->
        overlaps ext fromClick pos true (InputHandler.hid c) = true ->
        ~ better c (floorOf s1)).
Proof.
  cbv zeta. rewrite cheapPhase_run. cbn [final trace fst snd].
  destruct (firstPass_spec ext fromClick (itemsOf (cleared s)) (cleared s))
    as (_ & Hwin & Hun & Hnodes & Htr & Hfr).
  set (r := firstPass ext fromClick (itemsOf (cleared s)) (cleared s)) in *.
  change (floorOf (withItems (result r) (final r))) with (floorOf (final r)).
  change (itemsOf (withItems (result r) (final r))) with (result r).
  change (this (withItems (result r) (final r))) with (this (final r)).
  change (Pointer.position (this (cleared s)))
    with (Pointer.position (this s)) in *.
  conjs.
  - exact Htr.
  - exact (f_equal (fun x => Pointer.targetObject (this x)) Hfr).
  - exact (f_equal (fun x => Pointer.position (this x)) Hfr).
  - exact Hnodes.
  - destruct Hwin as [H | (c & Hin & Hc1 & Hc2 & _ & Hc4 & Hc5)]; [left; exact H |].
    right. apply in_map_iff in Hin. destruct Hin as (c0 & <- & Hin0).
    exists c0. conjs; assumption.
  - intros c Hin Hc1 Hc2.
    exact (Hun (InputHandler.set_checked false c)
               (in_map (InputHandler.set_checked false) _ c Hin) Hc1 Hc2).
Qed.

(** C4: one call of the resolver tells the candidates one of five things:
    nothing; over, to the new target; out, to the old target; out to the
    old and then over to the new; or update, to the unchanged target.
    And it writes [targetObject] at most once. *)
Theorem notification_patterns (s : State) :
  let r := processInteractiveObjects ext fromClick s in
  let old := Pointer.targetObject (this s) in
  let new := Pointer.targetObject (this (final r)) in
  let told := filter isNotification (trace r) in
  (length (filter isTargetWrite (trace r)) <= 1)%nat
  /\ ((told = [] /\ old = None /\ new = None)
      \/ (exists n, told = [PointerOverHandler n] /\ old = None /\ new = Some n)
      \/ (exists o, told = [PointerOutHandler o] /\ old = Some o /\ new = None)
      \/ (exists o n, o <> n
            /\ told = [PointerOutHandler o; PointerOverHandler n]
            /\ old = Some o /\ new = Some n)
      \/ (exists t, told = [UpdateHandler t] /\ old = Some t
            /\ (new = Some t \/ new = None))).
Proof.
  cbv zeta.
  destruct (processInteractiveObjects_run ext fromClick s) as (-> & -> & _).
  destruct (cheapPhase_spec s) as (Htr1 & Htarget1 & _).
  set (s1 := final (cheapPhase ext fromClick s)) in *.
  rewrite exactPhase_run. cbn [final trace fst snd].
  destruct (secondPass_spec ext fromClick (itemsOf s1) s1) as (_ & Htr2 & Hfr2 & _).
  set (r2 := secondPass ext fromClick (itemsOf s1) s1) in *.
  assert (Htarget : Pointer.targetObject (this (final r2))
                    = Pointer.targetObject (this s)).
  { rewrite <- Htarget1.
    exact (f_equal (fun x => Pointer.targetObject (this x)) Hfr2). }
  destruct (tests_tell_nothing Htr1) as [Hn1 Hw1].
  destruct (tests_tell_nothing Htr2) as [Hn2 Hw2].
  rewrite !filter_app, Hn1, Hn2, Hw1, Hw2. cbn [app].
  pose proof (notifyTarget_spec ext (final r2)) as H. cbv zeta in H.
  rewrite Htarget in H.
  destruct (Pointer._highestRenderObject (this (final r2))) as [highest|],
           (Pointer.targetObject (this s)) as [old|].
  - destruct (Nat.eqb_spec old highest) as [-> | Hne].
    + destruct (update_ ext highest _); destruct H as [-> ->]; cbn.
      * split; [lia |]. do 4 right. exists highest.
        conjs; [reflexivity | reflexivity | left; exact Htarget].
      * split; [lia |]. do 4 right. exists highest.
        conjs; [reflexivity | reflexivity | right; reflexivity].
    + destruct H as [-> ->]; cbn. split; [lia |].
      do 3 right. left. exists old, highest. conjs; try reflexivity. exact Hne.
  - destruct H as [-> ->]; cbn. split; [lia |].
    right. left. exists highest. conjs; reflexivity.
  - destruct H as [-> ->]; cbn. split; [lia |].
    do 2 right. left. exists old. conjs; reflexivity.
  - destruct H as [-> ->]; cbn. split; [lia |].
    left. conjs; [reflexivity | reflexivity | exact Htarget].
Qed.

Lemma Forall2_In_right {A B : Type} (R : A -> B -> Prop) (l : list A)
    (l' : list B) (y : B) :
  Forall2 R l l' -> In y l' -> exists x, In x l /\ R x y.
Proof.
  induction 1 as [|x y' l l' HR _ IH]; intros Hin; [destruct Hin |].
  destruct Hin as [<- | Hin].
  - exists x. split; [left; reflexivity | exact HR].
  - destruct (IH Hin) as (x0 & Hx0 & HR0).
    exists x0. split; [right; exact Hx0 | exact HR0].
Qed.

Lemma NoDup_map_In_inj {A B : Type} (f : A -> B) (l : list A) (x y : A) :
  NoDup (map f l) -> In x l -> In y l -> f x = f y -> x = y.
Proof.
  induction l as [|a l IH]; intros Hnd Hx Hy Hf; [destruct Hx |].
  cbn [map] in Hnd. inversion Hnd as [|? ? Hnotin Hnd']; subst.
  destruct Hx as [-> | Hx], Hy as [-> | Hy].
  - reflexivity.
  - exfalso. apply Hnotin. rewrite Hf. exact (in_map f l y Hy).
  - exfalso. apply Hnotin. rewrite <- Hf. exact (in_map f l x Hx).
  - exact (IH Hnd' Hx Hy Hf).
Qed.

Lemma count_hid_NoDup (h : nat) (l : list InputHandler.t) :
  NoDup (map InputHandler.hid l) ->
  (length (filter (fun n => Nat.eqb h (InputHandler.hid n)) l) <= 1)%nat.
Proof.
  induction l as [|a l IH]; intro Hnd; cbn [filter length]; [lia |].
  cbn [map] in Hnd. inversion Hnd as [|? ? Hnotin Hnd']; subst.
  destruct (Nat.eqb_spec h (InputHandler.hid a)) as [-> | Hne]; [| exact (IH Hnd')].
  assert (E : filter (fun n => Nat.eqb (InputHandler.hid a) (InputHandler.hid n)) l = []).
  { clear IH Hnd Hnd'. induction l as [|b l IHl]; [reflexivity |].
    cbn [filter].
    destruct (Nat.eqb_spec (InputHandler.hid a) (InputHandler.hid b)) as [E | _].
    - exfalso. apply Hnotin. left. symmetry. exact E.
    - apply IHl. intro Hin. apply Hnotin. right. exact Hin. }
  rewrite E. cbn [length]. lia.
Qed.

Lemma swept_hids (b : Z * Z) (l l' : list InputHandler.t) :
  Forall2 (sweptAs b) (map (InputHandler.set_checked false) l) l' ->
  map InputHandler.hid l' = map InputHandler.hid l.
Proof.
  revert l'. induction l as [|a l IH]; intros l' H;
    inversion H as [|x y t t' Hxy Ht]; subst.
  - reflexivity.
  - cbn [map]. f_equal; [| exact (IH _ Ht)].
    exact (proj1 (sameCandidate_fields (proj1 Hxy))).
Qed.

(** A node of the list the first phase leaves is one of the candidates the
    call was given, up to its scratch flag. *)
Lemma swept_origin (s : State) (n : InputHandler.t) :
  let s1 := final (cheapPhase ext fromClick s) in
  In n (itemsOf s1) ->
  exists c, In c (itemsOf s) /\ sameCandidate c n
    /\ (InputHandler.checked n = true
        \/ InputHandler.pixelPerfect c = true
        \/ ~ better c (floorOf s1)).
Proof.
  cbv zeta. intro Hin.
  destruct (cheapPhase_spec s) as (_ & _ & _ & Hnodes & _).
  destruct (Forall2_In_right _ _ _ _ Hnodes Hin) as (n0 & Hin0 & [Hsame Hflag]).
  apply in_map_iff in Hin0. destruct Hin0 as (c & <- & Hc).
  exists c. conjs; [exact Hc | exact Hsame |].
  destruct Hflag as [H | [_ [H | H]]]; [left; exact H | right; left; exact H
                                        | right; right; exact H].
Qed.

(** C2: in one call of the resolver the exact test of a candidate runs at
    most once, and not at all when the candidate fails [validForInput]
    against the floor that the first sweep leaves, in particular when a
    cheaply tested candidate under the pointer has a higher priority, or
    the same priority and a render order that is not higher. *)
Theorem exact_test_at_most_once (s : State) (h : InputHandler.t)
    (Hnodup : NoDup (map InputHandler.hid (itemsOf s)))
    (Hin : In h (itemsOf s)) :
  let r := processInteractiveObjects ext fromClick s in
  let exact := filter (isExactTestOf (InputHandler.hid h)) (trace r) in
  let s1 := final (cheapPhase ext fromClick s) in
  (length exact <= 1)%nat
  /\ (InputHandler.validForInput h (fst (floorOf s1)) (snd (floorOf s1)) true = false ->
      exact = [])
  /\ (forall c, In c (itemsOf s) ->
        InputHandler.pixelPerfect c = false ->
        overlaps ext fromClick (Pointer.position (this s)) true (InputHandler.hid c) = true ->
        InputHandler.priorityID h < InputHandler.priorityID c
        \/ (InputHandler.priorityID h = InputHandler.priorityID c
            /\ InputHandler.renderOrderID c <= InputHandler.renderOrderID h) ->
        exact = []).
Proof.
  cbv zeta.
  destruct (processInteractiveObjects_run ext fromClick s) as (_ & -> & _).
  destruct (cheapPhase_spec s) as (Htr1 & _ & _ & Hnodes & _ & Hun).
  set (s1 := final (cheapPhase ext fromClick s)) in *.
  rewrite exactPhase_run. cbn [final trace fst snd].
  destruct (secondPass_spec ext fromClick (itemsOf s1) s1)
    as (_ & _ & _ & Hcount & Hskip & _).
  set (r2 := secondPass ext fromClick (itemsOf s1) s1) in *.
  rewrite !filter_app, (cheap_tests_not_exact _ _ Htr1), notifications_not_tests.
  rewrite app_nil_r. cbn [app].
  assert (Hquiet : ~ better h (floorOf s1) ->
                   filter (isExactTestOf (InputHandler.hid h)) (trace r2) = []).
  { intro Hnb. apply Hskip. intros n Hn Hhid.
    destruct (swept_origin s n Hn) as (c & Hc & Hsame & _).
    assert (c = h).
    { apply (NoDup_map_In_inj InputHandler.hid (itemsOf s)); try assumption.
      rewrite <- Hhid. symmetry. exact (proj1 (sameCandidate_fields Hsame)). }
    subst c. right. rewrite (sameCandidate_better (floorOf s1) Hsame). exact Hnb. }
  conjs.
  - eapply Nat.le_trans; [apply Hcount |].
    apply count_hid_NoDup. rewrite (swept_hids _ _ _ Hnodes). exact Hnodup.
  - intro Hinvalid. apply Hquiet. intro Hb.
    apply validForInput_exact in Hb. rewrite Hb in Hinvalid. discriminate Hinvalid.
  - intros c Hc Hpp Hover Hlow. apply Hquiet.
    specialize (Hun c Hc Hpp Hover). revert Hun Hlow.
    unfold better. lia.
Qed.

(** The winner of a call in which no candidate asks for an exact test. *)
Lemma cheap_winner (s : State) (m : InputHandler.t) :
  (forall c, In c (itemsOf s) -> InputHandler.pixelPerfect c = false) ->
  better m (-1, MAX_SAFE_INTEGER) ->
  In m (itemsOf s) ->
  overlaps ext fromClick (Pointer.position (this s)) true (InputHandler.hid m) = true ->
  (forall c, In c (itemsOf s) ->
     overlaps ext fromClick (Pointer.position (this s)) true (InputHandler.hid c) = true ->
     InputHandler.hid c <> InputHandler.hid m ->
     InputHandler.priorityID c < InputHandler.priorityID m
     \/ (InputHandler.priorityID c = InputHandler.priorityID m
         /\ InputHandler.renderOrderID m < InputHandler.renderOrderID c)) ->
  let s' := final (processInteractiveObjects ext fromClick s) in
  Pointer._highestRenderObject (this s') = Some (InputHandler.hid m)
  /\ Pointer.targetObject (this s') =
     match Pointer.targetObject (this s) with
     | Some old =>
         if Nat.eqb old (InputHandler.hid m)
            && negb (update_ ext (InputHandler.hid m) (Pointer.position (this s)))
         then None else Some (InputHandler.hid m)
     | None => Some (InputHandler.hid m)
     end.
Proof.
  intros Hcheap Hprio Hm Hover Hbest. cbv zeta.
  destruct (processInteractiveObjects_run ext fromClick s) as (-> & _ & _).
  destruct (cheapPhase_spec s) as (_ & Htarget & Hpos & _ & Hwin & Hun).
  pose proof (swept_origin s) as Horigin. cbv zeta in Horigin.
  set (s1 := final (cheapPhase ext fromClick s)) in *.
  assert (Hm1 : ~ better m (floorOf s1)) by (exact (Hun m Hm (Hcheap m Hm) Hover)).
  assert (Hobj : Pointer._highestRenderObject (this s1) = Some (InputHandler.hid m)).
  { destruct Hwin as [[Hf _] | (c & Hc & _ & Hcover & Hf & Ho)].
    - exfalso. apply Hm1. rewrite Hf. exact Hprio.
    - rewrite Ho. f_equal.
      destruct (Nat.eq_dec (InputHandler.hid c) (InputHandler.hid m)) as [E | Hne];
        [exact E | exfalso].
      apply Hm1. rewrite Hf.
      specialize (Hbest c Hc Hcover Hne). revert Hbest.
      unfold better, keyOf. cbn [fst snd]. lia. }
  rewrite exactPhase_run. cbn [final fst snd].
  destruct (secondPass_spec ext fromClick (itemsOf s1) s1)
    as (_ & _ & _ & _ & _ & Hidle).
  destruct Hidle as [-> _].
  { intros n Hn. destruct (Horigin n Hn) as (c & Hc & Hsame & [H | [H | H]]).
    - left. exact H.
    - rewrite (Hcheap c Hc) in H. discriminate H.
    - right. rewrite (sameCandidate_better (floorOf s1) Hsame). exact H. }
  pose proof (notifyTarget_spec ext s1) as H. cbv zeta in H.
  rewrite Hobj, Htarget, Hpos in H.
  destruct (Pointer.targetObject (this s)) as [old|].
  - destruct (Nat.eqb_spec old (InputHandler.hid m)) as [-> | Hne]; cbn [andb].
    + destruct (update_ ext (InputHandler.hid m) _); destruct H as [-> _];
        cbn [negb]; split; first [exact Hobj | exact Htarget | reflexivity].
    + destruct H as [-> _]. split; [exact Hobj | reflexivity].
  - destruct H as [-> _]. split; [exact Hobj | reflexivity].
Qed.

(** C1, as the code has it: when no candidate asks for an exact test, a
    candidate under the pointer that beats the initial floor (a priority
    above -1, or -1 with a render order below [MAX_SAFE_INTEGER]) and every
    other candidate under the pointer, by a higher priority or by the same
    priority and a lower render order, is the highest object the resolver
    finds, in whatever order the candidates are traversed.  It becomes the
    target, unless it was the target already and its [update] answers
    [false]: then the target is cleared. *)
Theorem highest_priority_wins (s : State) (m : InputHandler.t)
    (items' : list InputHandler.t)
    (Hcheap : forall c, In c (itemsOf s) -> InputHandler.pixelPerfect c = false)
    (Hprio : -1 < InputHandler.priorityID m
             \/ (InputHandler.priorityID m = -1
                 /\ InputHandler.renderOrderID m < MAX_SAFE_INTEGER))
    (Hm : In m (itemsOf s))
    (Hover : overlaps ext fromClick (Pointer.position (this s)) true
               (InputHandler.hid m) = true)
    (Hbest : forall c, In c (itemsOf s) ->
       overlaps ext fromClick (Pointer.position (this s)) true (InputHandler.hid c) = true ->
       InputHandler.hid c <> InputHandler.hid m ->
       InputHandler.priorityID c < InputHandler.priorityID m
       \/ (InputHandler.priorityID c = InputHandler.priorityID m
           /\ InputHandler.renderOrderID m < InputHandler.renderOrderID c))
    (Horder : Permutation (itemsOf s) items') :
  let outcome s0 :=
    (Pointer._highestRenderObject
       (this (final (processInteractiveObjects ext fromClick s0))),
     Pointer.targetObject
       (this (final (processInteractiveObjects ext fromClick s0)))) in
  let expected :=
    (Some (InputHandler.hid m),
     match Pointer.targetObject (this s) with
     | Some old =>
         if Nat.eqb old (InputHandler.hid m)
            && negb (update_ ext (InputHandler.hid m) (Pointer.position (this s)))
         then None else Some (InputHandler.hid m)
     | None => Some (InputHandler.hid m)
     end) in
  outcome s = expected /\ outcome (withItems items' s) = expected.
Proof.
  cbv zeta. split.
  - destruct (cheap_winner s m Hcheap Hprio Hm Hover Hbest) as [-> ->].
    reflexivity.
  - assert (Hback : forall c, In c items' -> In c (itemsOf s)).
    { intros c Hc. exact (Permutation_in c (Permutation_sym Horder) Hc). }
    destruct (cheap_winner (withItems items' s) m) as [-> ->].
    + intros c Hc. exact (Hcheap c (Hback c Hc)).
    + exact Hprio.
    + exact (Permutation_in m Horder Hm).
    + exact Hover.
    + intros c Hc. exact (Hbest c (Hback c Hc)).
    + reflexivity.
Qed.

Lemma firstPass_app (pre l : list InputHandler.t) (s : State) :
  let r1 := firstPass ext fromClick pre s in
  let r2 := firstPass ext fromClick l (final r1) in
  firstPass ext fromClick (pre ++ l) s
  = (result r1 ++ result r2, final r2, trace r1 ++ trace r2).
Proof.
  cbv zeta. revert s. induction pre as [|n pre IH]; intro s.
  - rewrite firstPass_nil. cbn [app result final trace fst snd].
    destruct (firstPass ext fromClick l s) as [[a b] c]. reflexivity.
  - cbn [app]. rewrite !firstPass_cons.
    destruct (InputHandler.validForInput n _ _ false); cbv zeta;
      rewrite IH; reflexivity.
Qed.

Lemma firstPass_length (nodes : list InputHandler.t) (s : State) :
  length (result (firstPass ext fromClick nodes s)) = length nodes.
Proof.
  destruct (firstPass_spec ext fromClick nodes s) as (_ & _ & _ & H & _).
  symmetry. exact (Forall2_length H).
Qed.

(** The candidates, with the flags the call leaves them. *)
Lemma processInteractiveObjects_items (s : State) :
  itemsOf (final (processInteractiveObjects ext fromClick s))
  = result (firstPass ext fromClick
              (map (InputHandler.set_checked false) (itemsOf s)) (cleared s)).
Proof.
  destruct (processInteractiveObjects_run ext fromClick s) as (-> & _ & _).
  rewrite exactPhase_run. cbn [final fst snd].
  set (s1 := final (cheapPhase ext fromClick s)).
  destruct (secondPass_spec ext fromClick (itemsOf s1) s1) as (_ & _ & Hfr & _).
  set (s2 := final (secondPass ext fromClick (itemsOf s1) s1)) in *.
  assert (E : itemsOf (final (notifyTarget ext s2)) = itemsOf s2).
  { pose proof (notifyTarget_spec ext s2) as H. cbv zeta in H.
    destruct (Pointer._highestRenderObject (this s2)),
             (Pointer.targetObject (this s2));
      try (destruct H as [-> _]; reflexivity).
    destruct (Nat.eqb n0 n); [| destruct H as [-> _]; reflexivity].
    destruct (update_ ext n _); destruct H as [-> _]; reflexivity. }
  rewrite E.
  transitivity (itemsOf s1); [exact (f_equal itemsOf Hfr) |].
  subst s1. rewrite cheapPhase_run. reflexivity.
Qed.

(** C3, as the code has it: the first sweep sets the [checked] flag of a
    candidate exactly when the candidate is eligible at its visit, that is
    when [validForInput] holds against the floor of that moment with pixel
    perfect candidates excluded, whatever its overlap test answers; the
    second sweep passes over a checked candidate.  The first sweep runs on
    candidates whose flags were all cleared, and the flags it leaves are
    those the call ends with. *)
Theorem firstPass_checks_eligible (pre post : list InputHandler.t)
    (node : InputHandler.t) (s : State) :
  let visit := final (firstPass ext fromClick pre s) in
  let eligible :=
    InputHandler.validForInput node (fst (floorOf visit)) (snd (floorOf visit))
      false in
  let r := firstPass ext fromClick (pre ++ node :: post) s in
  (exists node',
     nth_error (result r) (length pre) = Some node'
     /\ sameCandidate node node'
     /\ InputHandler.checked node' = eligible || InputHandler.checked node
     /\ (InputHandler.checked node' = true ->
         forall rest s2,
           secondPass ext fromClick (node' :: rest) s2
           = secondPass ext fromClick rest s2))
  /\ (forall s0,
        itemsOf (final (processInteractiveObjects ext fromClick s0))
        = result (firstPass ext fromClick
                    (map (InputHandler.set_checked false) (itemsOf s0))
                    (cleared s0))).
Proof.
  cbv zeta. split; [| exact processInteractiveObjects_items].
  rewrite firstPass_app. cbn [result fst snd].
  rewrite nth_error_app2; rewrite firstPass_length; [| apply Nat.le_refl].
  rewrite Nat.sub_diag.
  set (visit := final (firstPass ext fromClick pre s)).
  rewrite firstPass_cons.
  assert (Hskip : forall n', InputHandler.checked n' = true ->
            forall rest s2,
              secondPass ext fromClick (n' :: rest) s2
              = secondPass ext fromClick rest s2).
  { intros n' Hc rest s2. rewrite secondPass_cons, Hc. cbn [negb andb]. cbv zeta.
    destruct (secondPass ext fromClick rest s2) as [[a b] c]. reflexivity. }
  destruct (InputHandler.validForInput node _ _ false); cbv zeta;
    cbn [result fst snd nth_error orb].
  - exists (InputHandler.set_checked true node).
    conjs; [reflexivity | reflexivity | reflexivity | apply Hskip].
  - exists node.
    conjs; [reflexivity | reflexivity | reflexivity | apply Hskip].
Qed.

End Resolver.

(** A lone candidate of priority 5 is eligible, so it is checked and the
    second sweep passes over it. *)
Lemma firstPass_checks_eligible_witness :
  let ext := sampleExternals [] [] in
  let s := cleared (hovering None [candidate 1 5 1 false]) in
  exists node',
    nth_error (result (firstPass ext false [candidate 1 5 1 false] s)) 0
    = Some node'
    /\ InputHandler.checked node' = true
    /\ secondPass ext false [node'] s = secondPass ext false [] s.
Proof.
  cbv zeta.
  destruct (proj1 (firstPass_checks_eligible (sampleExternals [] []) false
                     [] [] (candidate 1 5 1 false)
                     (cleared (hovering None [candidate 1 5 1 false]))))
    as (node' & Hnth & _ & Hchecked & Hskip).
  exists node'. split; [exact Hnth |].
  split; [exact Hchecked |].
  exact (Hskip Hchecked [] _).
Defined.

(** Three candidates under the pointer: the one of priority 3 wins in the
    order given and in the reverse order. *)
Lemma highest_priority_wins_witness :
  let items := [candidate 1 1 5 false; candidate 2 3 2 false;
                candidate 3 2 1 false] in
  let ext := sampleExternals [1; 2; 3]%nat [] in
  Pointer.targetObject
    (this (final (processInteractiveObjects ext false (hovering None items))))
  = Some 2%nat
  /\ Pointer.targetObject
       (this (final (processInteractiveObjects ext false
                       (withItems (rev items) (hovering None items)))))
     = Some 2%nat.
Proof.
  cbv zeta.
  assert (H := highest_priority_wins (sampleExternals [1; 2; 3]%nat []) false
                 (hovering None [candidate 1 1 5 false; candidate 2 3 2 false;
                                 candidate 3 2 1 false])
                 (candidate 2 3 2 false)
                 (rev [candidate 1 1 5 false; candidate 2 3 2 false;
                       candidate 3 2 1 false])).
  cbv zeta in H.
  destruct H as [H1 H2].
  - intros c [<- | [<- | [<- | []]]]; reflexivity.
  - left; cbn; lia.
  - right; left; reflexivity.
  - reflexivity.
  - intros c [<- | [<- | [<- | []]]] _ Hne; cbn in *;
      [left; lia | congruence | left; lia].
  - apply Permutation_rev.
  - split; [exact (f_equal snd H1) | exact (f_equal snd H2)].
Defined.

(** The two provisos are needed: the winning candidate is not the target
    after the call when it was the target already and its [update] answers
    [false]; and a candidate of negative priority never wins, although it
    is alone under the pointer. *)
Lemma highest_priority_not_always_target :
  (let ext := sampleExternals [1]%nat [1]%nat in
   let s := hovering (Some 1%nat) [candidate 1 3 0 false] in
   overlaps ext false (Pointer.position (this s)) true 1 = true
   /\ Pointer.targetObject
        (this (final (processInteractiveObjects ext false s))) = None)
  /\ (let ext := sampleExternals [1]%nat [] in
      let s := hovering None [candidate 1 (-2) 0 false] in
      overlaps ext false (Pointer.position (this s)) true 1 = true
      /\ Pointer.targetObject
           (this (final (processInteractiveObjects ext false s))) = None).
Proof. cbv zeta. repeat split; reflexivity. Qed.

(** The cheap candidate of priority 5 is under the pointer, so the exact
    test of the candidate of priority 1 does not run. *)
Lemma exact_test_at_most_once_witness :
  let items := [candidate 1 5 1 false; candidate 2 1 2 true] in
  filter (isExactTestOf 2)
    (trace (processInteractiveObjects (sampleExternals [1; 2]%nat []) false
              (hovering None items)))
  = [].
Proof.
  cbv zeta.
  assert (Hnodup : NoDup (map InputHandler.hid
                    (itemsOf (hovering None [candidate 1 5 1 false;
                                             candidate 2 1 2 true])))).
  { cbn. repeat constructor; cbn; intuition discriminate. }
  refine (proj1 (proj2 (exact_test_at_most_once (sampleExternals [1; 2]%nat [])
                          false _ (candidate 2 1 2 true) Hnodup _)) _).
  - right; left; reflexivity.
  - reflexivity.
Defined.

(** Not every visited candidate is checked: of three candidates visited by
    the first sweep, only the first is.  The second cannot beat the first,
    the third asks for an exact test, which the second sweep then runs. *)
Lemma visited_not_always_checked :
  let items := [candidate 1 5 1 false; candidate 2 1 2 false;
                candidate 3 9 3 true] in
  let r := processInteractiveObjects (sampleExternals [1; 3]%nat []) false
             (hovering None items) in
  map InputHandler.checked (itemsOf (final r)) = [true; false; false]
  /\ trace r = [CheckPointerOver 1 true; CheckPointerOver 3 false;
                AssignTargetObject (Some 3%nat); PointerOverHandler 3].
Proof. cbv zeta. split; reflexivity. Qed.

(** * Further properties of the methods *)

(** ** A second stepper, which also knows what the resolver can call *)

Lemma filter_excluded {A : Type} (p q : A -> bool) (l : list A) :
  Forall (fun a => p a = true) l ->
  (forall a, p a = true -> q a = false) ->
  filter q l = [].
Proof.
  intros Hl Hpq. induction Hl as [|a l Ha _ IH]; [reflexivity |].
  cbn [filter]. rewrite (Hpq a Ha). exact IH.
Qed.

Lemma testCall_fromResolver (fromClick : bool) (fastTest : bool) (t : list Action) :
  Forall (fun a => exists h, a = testCall fromClick h fastTest) t ->
  Forall (fun a => fromResolver a = true) t.
Proof.
  induction 1 as [|a t [h ->] _ IH]; constructor; [| exact IH].
  destruct fromClick; reflexivity.
Qed.

Lemma processInteractiveObjects_actions (ext : Externals) (fromClick : bool)
    (s : State) :
  Forall (fun a => fromResolver a = true)
         (trace (processInteractiveObjects ext fromClick s)).
Proof.
  destruct (processInteractiveObjects_run ext fromClick s) as (_ & -> & _).
  destruct (cheapPhase_spec ext fromClick s) as (Htr1 & _).
  set (s1 := final (cheapPhase ext fromClick s)) in *.
  rewrite exactPhase_run. cbn [final trace fst snd].
  destruct (secondPass_spec ext fromClick (itemsOf s1) s1) as (_ & Htr2 & _).
  set (s2 := final (secondPass ext fromClick (itemsOf s1) s1)) in *.
  apply Forall_app. split; [exact (testCall_fromResolver _ _ _ Htr1) |].
  apply Forall_app. split; [exact (testCall_fromResolver _ _ _ Htr2) |].
  pose proof (notifyTarget_spec ext s2) as H. cbv zeta in H.
  destruct (Pointer._highestRenderObject (this s2)),
           (Pointer.targetObject (this s2));
    try (destruct H as [_ ->]; repeat constructor).
  destruct (Nat.eqb n0 n); [| destruct H as [_ ->]; repeat constructor].
  destruct (update_ ext n _); destruct H as [_ ->]; repeat constructor.
Qed.

Lemma wp_resolver (ext : Externals) (fromClick : bool) Q s :
  (forall a s' t,
     resolverFrame s' = resolverFrame s ->
     Forall (fun x => fromResolver x = true) t ->
     Q a s' t) ->
  wp (processInteractiveObjects ext fromClick) Q s.
Proof.
  intro H. apply H;
    [apply processInteractiveObjects_frame | apply processInteractiveObjects_actions].
Qed.

Ltac xp_step :=
  lazymatch goal with
  | |- wp (processInteractiveObjects _ _) _ _ =>
      apply wp_resolver; intros ? ? ? Hframe Hactions; split_frame Hframe; wp_simpl
  | |- _ => wp_step
  end.

Ltac xp_run := repeat xp_step.

(** Read every field a goal mentions off the frame equations at hand. *)
Ltac frame_fields :=
  repeat match goal with
         | H : outsideResolver (this ?s') = outsideResolver _ |- context [?f (this ?s')] =>
             let E := fresh "E" in
             pose proof (f_equal f H) as E; cbn in E; rewrite E in *; clear E
         | H : lifecycle (this ?s') = lifecycle _ |- context [?f (this ?s')] =>
             let E := fresh "E" in
             pose proof (f_equal f H) as E; cbn in E; rewrite E in *; clear E
         | H : steady (this ?s') = steady _ |- context [?f (this ?s')] =>
             let E := fresh "E" in
             pose proof (f_equal f H) as E; cbn in E; rewrite E in *; clear E
         | H : withoutItems (game ?s') = withoutItems _ |- context [?f (Game.input (game ?s'))] =>
             let E := fresh "E" in
             pose proof (f_equal (fun g => f (Game.input g)) H) as E;
             cbn in E; rewrite E in *; clear E
         | H : settings (game ?s') = settings _ |- context [?f (Game.input (game ?s'))] =>
             let E := fresh "E" in
             pose proof (f_equal (fun g => f (Game.input g)) H) as E;
             cbn in E; rewrite E in *; clear E
         | H : arbitration (game ?s') = arbitration _ |- context [?f (Game.input (game ?s'))] =>
             let E := fresh "E" in
             pose proof (f_equal (fun g => f (Game.input g)) H) as E;
             cbn in E; rewrite E in *; clear E
         | H : withoutItems (game ?s') = withoutItems _ |- context [Game.time_now (game ?s')] =>
             let E := fresh "E" in
             pose proof (f_equal Game.time_now H) as E;
             cbn in E; rewrite E in *; clear E
         | H : arbitration (game ?s') = arbitration _ |- context [Game.time_now (game ?s')] =>
             let E := fresh "E" in
             pose proof (f_equal Game.time_now H) as E;
             cbn in E; rewrite E in *; clear E
         end.

(** Carry the fields that a frame keeps from the state after a call back to
    the state before it, in the goal and in the hypotheses. *)
Ltac pull H f :=
  let E := fresh "E" in
  pose proof (f_equal f H) as E; cbn in E; try rewrite E in *; clear E.

(** Keep one field of a frame equation as a hypothesis. *)
Ltac learn H f :=
  let E := fresh "E" in
  pose proof (f_equal f H) as E; cbn in E.

Ltac pull_this H :=
  pull H Pointer.id; pull H Pointer.isMouse; pull H Pointer.identifier;
  pull H Pointer.pointerId; pull H Pointer._holdSent; pull H Pointer._history;
  pull H Pointer._nextDrop; pull H Pointer._stateReset;
  pull H Pointer.withinGame; pull H Pointer.x; pull H Pointer.y;
  pull H Pointer.isDown; pull H Pointer.isUp; pull H Pointer.timeDown;
  pull H Pointer.timeUp; pull H Pointer.previousTapTime;
  pull H Pointer.totalTouches; pull H Pointer.msSinceLastClick;
  pull H Pointer.active; pull H Pointer.dirty; pull H Pointer.position;
  pull H Pointer.positionDown; pull H Pointer.positionUp;
  pull H Pointer.targetObject.

Ltac pull_game H :=
  pull H Game.time_now; pull H Game.paused;
  pull H (fun g => Input.multiInputOverride (Game.input g));
  pull H (fun g => Input.currentPointers (Game.input g));
  pull H (fun g => Input.holdRate (Game.input g));
  pull H (fun g => Input.tapRate (Game.input g));
  pull H (fun g => Input.doubleTapRate (Game.input g));
  pull H (fun g => Input.recordPointerHistory (Game.input g));
  pull H (fun g => Input.recordRate (Game.input g));
  pull H (fun g => Input.recordLimit (Game.input g));
  pull H (fun g => Input.interactiveItems (Game.input g));
  pull H (fun g => Input.justPressedRate (Game.input g));
  pull H (fun g => Input.justReleasedRate (Game.input g));
  pull H (fun g => Input.x (Game.input g));
  pull H (fun g => Input.y (Game.input g)).

Ltac frames :=
  repeat match goal with
         | H : outsideResolver (this _) = outsideResolver _ |- _ =>
             pull_this H; clear H
         | H : lifecycle (this _) = lifecycle _ |- _ => pull_this H; clear H
         | H : steady (this _) = steady _ |- _ => pull_this H; clear H
         | H : withoutItems (game _) = withoutItems _ |- _ => pull_game H; clear H
         | H : settings (game _) = settings _ |- _ => pull_game H; clear H
         | H : arbitration (game _) = arbitration _ |- _ => pull_game H; clear H
         end.

(** Decide the tests of a goal by the equations collected on the way. *)
Ltac decide_tests :=
  repeat match goal with
         | Hb : negb _ = true |- _ => apply negb_true_iff in Hb
         | Hb : negb _ = false |- _ => apply negb_false_iff in Hb
         end;
  repeat match goal with
         | Hb : ?b = true |- context [?b] => rewrite Hb; cbn
         | Hb : ?b = false |- context [?b] => rewrite Hb; cbn
         end.

(** ** [move] *)

Section MoveProperties.

Variable ext : Externals.

(** X1: while input polling is locked, [move] does nothing at all: no field
    of the Pointer or of the game changes and nothing is called. *)
Theorem move_ignored_when_poll_locked (event : Event.t) (fromClick : bool)
    (s : State) (H : Input.pollLocked (Game.input (game s)) = true) :
  move ext event fromClick s = (tt, s, []).
Proof.
  unfold move. rewrite bind_run. unfold theGame.
  cbn [result final trace fst snd app]. rewrite H. reflexivity.
Qed.

(** X2: when polling is not locked, [move] stores the device coordinates of
    the event, computes the scene coordinates from the page coordinates,
    and leaves [position] and the centre of [circle] equal to them;
    [withinGame] is what the bounds of the game answer for the page
    coordinates.  This holds whether or not the game is paused and whatever
    the hit test does afterwards. *)
Theorem move_tracks_position (event : Event.t) (fromClick : bool) (s : State)
    (H : Input.pollLocked (Game.input (game s)) = false) :
  let p' := this (final (move ext event fromClick s)) in
  let x' := sceneX event (game s) in
  let y' := sceneY event (game s) in
  Pointer.x p' = x' /\ Pointer.y p' = y'
  /\ Pointer.position p' = Point.mk x' y'
  /\ Pointer.circle p' = Circle.mk x' y' (Circle.diameter (Pointer.circle (this s)))
  /\ Pointer.clientX p' = Event.clientX event
  /\ Pointer.clientY p' = Event.clientY event
  /\ Pointer.pageX p' = Event.pageX event
  /\ Pointer.pageY p' = Event.pageY event
  /\ Pointer.screenX p' = Event.screenX event
  /\ Pointer.screenY p' = Event.screenY event
  /\ Pointer.withinGame p'
     = Game.scale_bounds_contains (game s) (Event.pageX event) (Event.pageY event).
Proof.
  change (wp (move ext event fromClick)
            (fun _ s' _ =>
               let p' := this s' in
               let x' := sceneX event (game s) in
               let y' := sceneY event (game s) in
               Pointer.x p' = x' /\ Pointer.y p' = y'
               /\ Pointer.position p' = Point.mk x' y'
               /\ Pointer.circle p'
                  = Circle.mk x' y' (Circle.diameter (Pointer.circle (this s)))
               /\ Pointer.clientX p' = Event.clientX event
               /\ Pointer.clientY p' = Event.clientY event
               /\ Pointer.pageX p' = Event.pageX event
               /\ Pointer.pageY p' = Event.pageY event
               /\ Pointer.screenX p' = Event.screenX event
               /\ Pointer.screenY p' = Event.screenY event
               /\ Pointer.withinGame p'
                  = Game.scale_bounds_contains (game s)
                      (Event.pageX event) (Event.pageY event)) s).
  unfold move. wp_run.
  all: try congruence.
  all: unfold sceneX, sceneY; cbv zeta; frame_fields; cbn; conjs; reflexivity.
Qed.

(** X3: a pointer becomes the active pointer of the input manager, and its
    scene position is mirrored there, exactly when the override policy
    lets it through; otherwise [move] leaves the active pointer and the
    mirrored position as they were. *)
Theorem move_mirrors_when_permitted (event : Event.t) (fromClick : bool)
    (s : State) (H : Input.pollLocked (Game.input (game s)) = false) :
  let i := Game.input (game s) in
  let i' := Game.input (game (final (move ext event fromClick s))) in
  let x' := sceneX event (game s) in
  let y' := sceneY event (game s) in
  if overridePermits (game s) then
    Input.activePointer i' = Some (Pointer.id (this s))
    /\ Input.x i' = x' /\ Input.y i' = y'
    /\ Input.position i' = Point.mk x' y'
    /\ Input.circle i' = Circle.mk x' y' (Circle.diameter (Input.circle i))
  else
    Input.activePointer i' = Input.activePointer i
    /\ Input.x i' = Input.x i /\ Input.y i' = Input.y i
    /\ Input.position i' = Input.position i
    /\ Input.circle i' = Input.circle i.
Proof.
  change (wp (move ext event fromClick)
            (fun _ s' _ =>
               let i := Game.input (game s) in
               let i' := Game.input (game s') in
               let x' := sceneX event (game s) in
               let y' := sceneY event (game s) in
               if overridePermits (game s) then
                 Input.activePointer i' = Some (Pointer.id (this s))
                 /\ Input.x i' = x' /\ Input.y i' = y'
                 /\ Input.position i' = Point.mk x' y'
                 /\ Input.circle i'
                    = Circle.mk x' y' (Circle.diameter (Input.circle i))
               else
                 Input.activePointer i' = Input.activePointer i
                 /\ Input.x i' = Input.x i /\ Input.y i' = Input.y i
                 /\ Input.position i' = Input.position i
                 /\ Input.circle i' = Input.circle i) s).
  unfold move. wp_run.
  all: try congruence.
  all: unfold sceneX, sceneY; cbv zeta; frame_fields;
    cbn; conjs; reflexivity.
Qed.

(** X4: while the game is paused, [move] still tracks the position but
    calls nobody, neither the move observers nor any candidate, and it
    leaves the target and the candidates as they were. *)
Theorem move_paused_is_silent (event : Event.t) (fromClick : bool) (s : State)
    (Hpaused : Game.paused (game s) = true) :
  let r := move ext event fromClick s in
  trace r = []
  /\ Pointer.targetObject (this (final r)) = Pointer.targetObject (this s)
  /\ itemsOf (final r) = itemsOf s.
Proof.
  change (wp (move ext event fromClick)
            (fun _ s' t =>
               t = []
               /\ Pointer.targetObject (this s') = Pointer.targetObject (this s)
               /\ itemsOf s' = itemsOf s) s).
  unfold move. wp_run.
  all: try congruence.
  all: conjs; reflexivity.
Qed.

Lemma filter_observerCalls (event : Event.t) (fromClick : bool) (g : Game.t) :
  filter isMoveCallback (observerCalls event fromClick g)
  = observerCalls event fromClick g.
Proof.
  unfold observerCalls.
  induction (rev (Input.moveCallbacks (Game.input g))) as [|cb l IH];
    [reflexivity |].
  cbn [map filter isMoveCallback]. rewrite IH. reflexivity.
Qed.

Lemma resolver_calls_no_observer (t : list Action) :
  Forall (fun a => fromResolver a = true) t -> filter isMoveCallback t = [].
Proof.
  intro H. apply (filter_excluded fromResolver isMoveCallback t H).
  intros a Ha. destruct a; try reflexivity; discriminate Ha.
Qed.

(** X5: when the game is not paused and polling is not locked, [move]
    calls every registered move observer once, the last registered first,
    each with the new scene coordinates and the [fromClick] flag. *)
Theorem move_calls_observers_in_reverse (event : Event.t) (fromClick : bool)
    (s : State)
    (Hlocked : Input.pollLocked (Game.input (game s)) = false)
    (Hpaused : Game.paused (game s) = false) :
  filter isMoveCallback (trace (move ext event fromClick s))
  = map (fun cb => MoveCallback cb (sceneX event (game s)) (sceneY event (game s))
                     fromClick)
        (rev (Input.moveCallbacks (Game.input (game s)))).
Proof.
  change (wp (move ext event fromClick)
            (fun _ _ t =>
               filter isMoveCallback t = observerCalls event fromClick (game s)) s).
  unfold move. xp_run.
  all: try congruence.
  all: rewrite ?filter_app;
    change (map (fun cb => MoveCallback cb _ _ fromClick) _)
      with (observerCalls event fromClick (game s));
    rewrite filter_observerCalls;
    try (rewrite (resolver_calls_no_observer _ Hactions));
    cbn [filter isMoveCallback app]; rewrite ?app_nil_r; reflexivity.
Qed.

(** X6: while the target is being dragged, [move] does not run the hit
    test: after the move observers it calls [update] on the dragged
    target and nothing else, and the target stays unless that [update]
    answers [false], in which case it is cleared. *)
Theorem move_drag_bypasses_resolver (event : Event.t) (fromClick : bool)
    (s : State) (dragged : nat)
    (Hlocked : Input.pollLocked (Game.input (game s)) = false)
    (Hpaused : Game.paused (game s) = false)
    (Htarget : Pointer.targetObject (this s) = Some dragged)
    (Hdrag : isDragged ext dragged = true) :
  let r := move ext event fromClick s in
  let goesOn :=
    update_ ext dragged (Point.mk (sceneX event (game s)) (sceneY event (game s))) in
  trace r
  = observerCalls event fromClick (game s)
    ++ UpdateHandler dragged
       :: (if goesOn then [] else [AssignTargetObject None])
  /\ Pointer.targetObject (this (final r))
     = (if goesOn then Some dragged else None)
  /\ itemsOf (final r) = itemsOf s.
Proof.
  change (wp (move ext event fromClick)
            (fun _ s' t =>
               let goesOn :=
                 update_ ext dragged
                   (Point.mk (sceneX event (game s)) (sceneY event (game s))) in
               t = observerCalls event fromClick (game s)
                   ++ UpdateHandler dragged
                      :: (if goesOn then [] else [AssignTargetObject None])
               /\ Pointer.targetObject (this s')
                  = (if goesOn then Some dragged else None)
               /\ itemsOf s' = itemsOf s) s).
  unfold move. wp_run.
  all: try congruence.
  all: cbv zeta; unfold observerCalls, sceneX, sceneY in *;
    repeat match goal with
           | E : Some _ = Some _ |- _ => injection E as E; subst
           end;
    try congruence.
  all: match goal with
       | Hu : negb (update_ _ _ _) = _ |- _ =>
           unfold Point.setTo in Hu; apply (f_equal negb) in Hu;
           rewrite negb_involutive in Hu; cbn in Hu; rewrite Hu
       end;
    cbn; rewrite ?app_nil_r;
    try match goal with
        | Ht : Pointer.targetObject _ = Some _ |- _ => rewrite Ht
        end;
    conjs; reflexivity.
Qed.

(** X7: with no interactive candidate registered, [move] never runs the
    hit test; unless the target is being dragged, the target is left as it
    is, even a stale one, and nobody but the move observers is called. *)
Theorem move_without_candidates (event : Event.t) (fromClick : bool)
    (s : State)
    (Hnone : itemsOf s = [])
    (Hdrag : forall d, Pointer.targetObject (this s) = Some d ->
                       isDragged ext d = false) :
  let r := move ext event fromClick s in
  Pointer.targetObject (this (final r)) = Pointer.targetObject (this s)
  /\ filter isMoveCallback (trace r) = trace r.
Proof.
  change (wp (move ext event fromClick)
            (fun _ s' t =>
               Pointer.targetObject (this s') = Pointer.targetObject (this s)
               /\ filter isMoveCallback t = t) s).
  unfold itemsOf in Hnone.
  unfold move. wp_run.
  all: try (rewrite Hnone in *; discriminate).
  all: try (match goal with
            | Hd : isDragged _ ?d = true |- _ =>
                rewrite (Hdrag d eq_refl) in Hd; discriminate Hd
            end).
  all: rewrite ?app_nil_r;
    try change (map (fun cb => MoveCallback cb _ _ fromClick) _)
      with (observerCalls event fromClick (game s));
    rewrite ?filter_observerCalls; split; first [assumption | reflexivity].
Qed.

(** X8: the relative movement is accumulated only for the mouse, only while
    the mouse is locked and only on a genuine move: then [rawMovementX] is
    the first non-zero of [movementX], [mozMovementX] and
    [webkitMovementX] of the event, or 0, and [movementX] grows by it.  A
    touch, an unlocked mouse or a press leave the four fields alone. *)
Theorem move_accumulates_locked_mouse (event : Event.t) (fromClick : bool)
    (s : State) :
  let p := this s in
  let p' := this (final (move ext event fromClick s)) in
  let rawX := valueOr (orElse (orElse (Event.movementX event)
                                      (Event.mozMovementX event))
                              (Event.webkitMovementX event)) 0 in
  let rawY := valueOr (orElse (orElse (Event.movementY event)
                                      (Event.mozMovementY event))
                              (Event.webkitMovementY event)) 0 in
  if negb (Input.pollLocked (Game.input (game s)))
     && Pointer.isMouse p && Input.mouse_locked (Game.input (game s))
     && negb fromClick
  then Pointer.rawMovementX p' = rawX /\ Pointer.rawMovementY p' = rawY
       /\ Pointer.movementX p' = Pointer.movementX p + rawX
       /\ Pointer.movementY p' = Pointer.movementY p + rawY
  else Pointer.rawMovementX p' = Pointer.rawMovementX p
       /\ Pointer.rawMovementY p' = Pointer.rawMovementY p
       /\ Pointer.movementX p' = Pointer.movementX p
       /\ Pointer.movementY p' = Pointer.movementY p.
Proof.
  change (wp (move ext event fromClick)
            (fun _ s' _ =>
               let p := this s in
               let p' := this s' in
               let rawX := valueOr (orElse (orElse (Event.movementX event)
                                                   (Event.mozMovementX event))
                                           (Event.webkitMovementX event)) 0 in
               let rawY := valueOr (orElse (orElse (Event.movementY event)
                                                   (Event.mozMovementY event))
                                           (Event.webkitMovementY event)) 0 in
               if negb (Input.pollLocked (Game.input (game s)))
                  && Pointer.isMouse p && Input.mouse_locked (Game.input (game s))
                  && negb fromClick
               then Pointer.rawMovementX p' = rawX /\ Pointer.rawMovementY p' = rawY
                    /\ Pointer.movementX p' = Pointer.movementX p + rawX
                    /\ Pointer.movementY p' = Pointer.movementY p + rawY
               else Pointer.rawMovementX p' = Pointer.rawMovementX p
                    /\ Pointer.rawMovementY p' = Pointer.rawMovementY p
                    /\ Pointer.movementX p' = Pointer.movementX p
                    /\ Pointer.movementY p' = Pointer.movementY p) s).
  unfold move. wp_run.
  all: cbv zeta; frame_fields;
    repeat match goal with
           | Hb : ?b = _ |- context [?b] => rewrite Hb
           end;
    cbn; conjs; reflexivity.
Qed.

End MoveProperties.

Section LeaveProperties.

Variable ext : Externals.

(** X9: [leave] clears [withinGame] only for as long as [move] does not set
    it again: after [leave], [withinGame] is [false] when polling is
    locked, and otherwise it is whatever the bounds of the game answer for
    the page coordinates of the event. *)
Theorem leave_withinGame (event : Event.t) (s : State) :
  Pointer.withinGame (this (final (leave ext event s)))
  = if Input.pollLocked (Game.input (game s)) then false
    else Game.scale_bounds_contains (game s) (Event.pageX event) (Event.pageY event).
Proof.
  change (wp (leave ext event)
            (fun _ s' _ =>
               Pointer.withinGame (this s')
               = if Input.pollLocked (Game.input (game s)) then false
                 else Game.scale_bounds_contains (game s)
                        (Event.pageX event) (Event.pageY event)) s).
  unfold leave.
  apply wp_bind, wp_assign. cbn [this game].
  unfold move. wp_run.
  all: frame_fields;
    repeat match goal with
           | Hb : Input.pollLocked _ = _ |- _ => rewrite Hb
           end;
    reflexivity.
Qed.

End LeaveProperties.

(** ** What [move] and [update] leave alone, and what they can call *)

(** Prove that every call of an explicit trace is of the kind [p]. *)
Ltac actions_of p :=
  rewrite ?app_nil_r;
  repeat first
    [ apply Forall_nil
    | apply Forall_cons; [reflexivity |]
    | apply Forall_app; split
    | match goal with
      | |- Forall _ (map _ _) =>
          apply Forall_forall; intros ? Hin; apply in_map_iff in Hin;
          destruct Hin as (? & <- & _); reflexivity
      | Hactions : Forall (fun x => fromResolver x = true) ?t |- Forall _ ?t =>
          apply (Forall_impl _ (P := fun x => fromResolver x = true));
          [intros ? Ha; unfold p; rewrite Ha; apply orb_true_r | exact Hactions]
      end ].

Section Summaries.

Variable ext : Externals.

Lemma processInteractiveObjects_moveFrame fromClick :
  keeps moveFrame (processInteractiveObjects ext fromClick).
Proof.
  intro s.
  change (moveFrame (resolverFrame (final (processInteractiveObjects ext fromClick s)))
          = moveFrame (resolverFrame s)).
  rewrite processInteractiveObjects_frame. reflexivity.
Qed.

Lemma move_moveFrame event fromClick : keeps moveFrame (move ext event fromClick).
Proof. unfold move. keeps_auto; apply processInteractiveObjects_moveFrame. Qed.

Lemma leave_moveFrame event : keeps moveFrame (leave ext event).
Proof. unfold leave. keeps_auto. apply move_moveFrame. Qed.

Lemma moveFrame_steadyFrame {A : Type} (m : M A) :
  keeps moveFrame m -> keeps steadyFrame m.
Proof.
  intros H s.
  change (steadyFrame (moveFrame (final (m s))) = steadyFrame (moveFrame s)).
  rewrite H. reflexivity.
Qed.

Lemma update_steadyFrame : keeps steadyFrame (update ext).
Proof.
  unfold update. keeps_auto.
  apply moveFrame_steadyFrame, processInteractiveObjects_moveFrame.
Qed.

Lemma move_actions event fromClick s :
  Forall (fun a => fromMove a = true) (trace (move ext event fromClick s)).
Proof.
  change (wp (move ext event fromClick)
            (fun _ _ t => Forall (fun a => fromMove a = true) t) s).
  unfold move. xp_run.
  all: actions_of fromMove.
Qed.

Lemma move_xy event fromClick s :
  let p' := this (final (move ext event fromClick s)) in
  if Input.pollLocked (Game.input (game s))
  then Pointer.x p' = Pointer.x (this s) /\ Pointer.y p' = Pointer.y (this s)
  else Pointer.x p' = sceneX event (game s) /\ Pointer.y p' = sceneY event (game s).
Proof.
  change (wp (move ext event fromClick)
            (fun _ s' _ =>
               if Input.pollLocked (Game.input (game s))
               then Pointer.x (this s') = Pointer.x (this s)
                    /\ Pointer.y (this s') = Pointer.y (this s)
               else Pointer.x (this s') = sceneX event (game s)
                    /\ Pointer.y (this s') = sceneY event (game s)) s).
  unfold move. wp_run.
  all: unfold sceneX, sceneY; frame_fields; cbn; split; reflexivity.
Qed.

(** Step over [move], keeping what is known of it. *)
Lemma wp_move event fromClick Q s :
  (forall a s' t,
     moveFrame s' = moveFrame s ->
     Forall (fun x => fromMove x = true) t ->
     (if Input.pollLocked (Game.input (game s))
      then Pointer.x (this s') = Pointer.x (this s)
           /\ Pointer.y (this s') = Pointer.y (this s)
      else Pointer.x (this s') = sceneX event (game s)
           /\ Pointer.y (this s') = sceneY event (game s)) ->
     Q a s' t) ->
  wp (move ext event fromClick) Q s.
Proof.
  intro H. apply H; [apply move_moveFrame | apply move_actions | apply move_xy].
Qed.

End Summaries.

Ltac split_frame' H :=
  let Hthis := fresh "Hthis" in
  let Hgame := fresh "Hgame" in
  pose proof (f_equal this H) as Hthis;
  pose proof (f_equal game H) as Hgame;
  cbn [this game moveFrame steadyFrame] in Hthis, Hgame;
  clear H.

(** A third stepper, which steps over [move] with all that is known. *)
Ltac yp_step :=
  lazymatch goal with
  | |- wp (move _ _ _) _ _ =>
      apply wp_move; intros ? ? ? Hframe Hmoved Hxy; split_frame' Hframe; wp_simpl
  | |- _ => xp_step
  end.

Ltac yp_run := repeat yp_step.

(** ** [update] *)

Section UpdateProperties.

Variable ext : Externals.

Lemma resolver_calls_no_hold (t : list Action) :
  Forall (fun a => fromResolver a = true) t -> filter isHold t = [].
Proof.
  intro H. apply (filter_excluded fromResolver isHold t H).
  intros a Ha. destruct a; try reflexivity; discriminate Ha.
Qed.

(** What one [update] does to the hold flag, the dirty flag and the drop
    schedule, and what it calls. *)
Lemma update_summary (s : State) :
  let r := update ext s in
  let p' := this (final r) in
  Forall (fun a => fromUpdate a = true) (trace r)
  /\ filter isHold (trace r)
     = (if holdDue s && overridePermits (game s) then [OnHold] else [])
  /\ Pointer._holdSent p' = Pointer._holdSent (this s) || holdDue s
  /\ Pointer.dirty p'
     = (if Pointer.active (this s) then false else Pointer.dirty (this s))
  /\ Pointer._nextDrop p'
     = (if recordingDue s
        then Game.time_now (game s) + Input.recordRate (Game.input (game s))
        else Pointer._nextDrop (this s)).
Proof.
  change (wp (update ext)
            (fun _ s' t =>
               Forall (fun a => fromUpdate a = true) t
               /\ filter isHold t
                  = (if holdDue s && overridePermits (game s) then [OnHold] else [])
               /\ Pointer._holdSent (this s') = Pointer._holdSent (this s) || holdDue s
               /\ Pointer.dirty (this s')
                  = (if Pointer.active (this s) then false else Pointer.dirty (this s))
               /\ Pointer._nextDrop (this s')
                  = (if recordingDue s
                     then Game.time_now (game s)
                          + Input.recordRate (Game.input (game s))
                     else Pointer._nextDrop (this s))) s).
  unfold update. xp_run.
  all: unfold holdDue, recordingDue, duration, overridePermits in *; cbn in *.
  all: frames.
  all: rewrite ?app_nil_r.
  all: conjs; try reflexivity; try (actions_of fromUpdate).
  all: rewrite ?filter_app;
    try (rewrite (resolver_calls_no_hold _ Hactions));
    cbn [filter isHold app].
  all: decide_tests; rewrite ?orb_true_r, ?orb_false_r; reflexivity.
Qed.

(** X10: [update] does nothing to a pointer that is not active: no field
    changes, no hit test runs, no hold is signalled and no history sample
    is taken, even when the pointer is dirty. *)
Theorem update_ignores_inactive (s : State)
    (H : Pointer.active (this s) = false) :
  update ext s = (tt, s, []).
Proof.
  unfold update. rewrite bind_run. unfold self.
  cbn [result final trace fst snd app]. rewrite H. reflexivity.
Qed.




End UpdateProperties.

(** ** Press, release and reset *)

Section PressAndRelease.

Variable ext : Externals.

(** What a press leaves, field by field, and what it broadcasts. *)
Lemma start_summary (event : Event.t) (s : State) :
  let r := start ext event s in
  let p := this s in
  let p' := this (final r) in
  let g' := game (final r) in
  Pointer.totalTouches p' = Pointer.totalTouches p + 1
  /\ Pointer._stateReset p' = false
  /\ Pointer.isMouse p' = Pointer.isMouse p
  /\ Pointer.id p' = Pointer.id p
  /\ Pointer.active p' = true
  /\ Pointer._holdSent p' = false
  /\ Pointer.dirty p' = false
  /\ Pointer.identifier p' = Event.identifier event
  /\ Pointer.timeUp p' = Pointer.timeUp p
  /\ Pointer.timeDown p' = Game.time_now (game s)
  /\ Pointer.isUp p' = false
  /\ Pointer.isDown p' = true
  /\ Pointer.positionDown p' = Point.mk (landingX event s) (landingY event s)
  /\ Game.time_now g' = Game.time_now (game s)
  /\ Input.justPressedRate (Game.input g') = Input.justPressedRate (Game.input (game s))
  /\ Input.justReleasedRate (Game.input g') = Input.justReleasedRate (Game.input (game s))
  /\ Input.multiInputOverride (Game.input g')
     = Input.multiInputOverride (Game.input (game s))
  /\ Input.currentPointers (Game.input g')
     = Input.currentPointers (Game.input (game s)) + pointerWeight p
  /\ filter isDownSignal (trace r)
     = (if overridePermits (game s)
        then [OnDown; ResetSpeed (landingX event s) (landingY event s)] else [])
  /\ filter isTouched (trace r)
     = match Pointer.targetObject p' with
       | Some t => [TouchedHandler t]
       | None => []
       end
  /\ filter isUpSignal (trace r) = []
  /\ filter isHold (trace r) = [].
Proof.
  cbv zeta.
  change (wp (start ext event)
            (fun _ s' t =>
               Pointer.totalTouches (this s') = Pointer.totalTouches (this s) + 1
               /\ Pointer._stateReset (this s') = false
               /\ Pointer.isMouse (this s') = Pointer.isMouse (this s)
               /\ Pointer.id (this s') = Pointer.id (this s)
               /\ Pointer.active (this s') = true
               /\ Pointer._holdSent (this s') = false
               /\ Pointer.dirty (this s') = false
               /\ Pointer.identifier (this s') = Event.identifier event
               /\ Pointer.timeUp (this s') = Pointer.timeUp (this s)
               /\ Pointer.timeDown (this s') = Game.time_now (game s)
               /\ Pointer.isUp (this s') = false
               /\ Pointer.isDown (this s') = true
               /\ Pointer.positionDown (this s')
                  = Point.mk (landingX event s) (landingY event s)
               /\ Game.time_now (game s') = Game.time_now (game s)
               /\ Input.justPressedRate (Game.input (game s'))
                  = Input.justPressedRate (Game.input (game s))
               /\ Input.justReleasedRate (Game.input (game s'))
                  = Input.justReleasedRate (Game.input (game s))
               /\ Input.multiInputOverride (Game.input (game s'))
                  = Input.multiInputOverride (Game.input (game s))
               /\ Input.currentPointers (Game.input (game s'))
                  = Input.currentPointers (Game.input (game s))
                    + pointerWeight (this s)
               /\ filter isDownSignal t
                  = (if overridePermits (game s)
                     then [OnDown; ResetSpeed (landingX event s) (landingY event s)]
                     else [])
               /\ filter isTouched t
                  = match Pointer.targetObject (this s') with
                    | Some t => [TouchedHandler t]
                    | None => []
                    end
               /\ filter isUpSignal t = []
               /\ filter isHold t = []) s).
  unfold start. yp_run.
  all: unfold overridePermits, pointerWeight, landingX, landingY in *; cbn in *.
  all: frames.
  all: destruct (Input.pollLocked (Game.input (game s)));
    destruct Hxy as [Hx Hy]; rewrite ?Hx, ?Hy in *.
  all: rewrite ?filter_app,
         ?(filter_excluded fromMove isDownSignal t Hmoved),
         ?(filter_excluded fromMove isTouched t Hmoved),
         ?(filter_excluded fromMove isUpSignal t Hmoved),
         ?(filter_excluded fromMove isHold t Hmoved)
    by (intros [] Hq; try reflexivity; discriminate Hq).
  all: repeat match goal with
              | Ho : Pointer.targetObject _ = _ |- _ => rewrite Ho; clear Ho
              end.
  all: decide_tests; cbn; conjs; first [reflexivity | lia].
Qed.

Lemma filter_released_all (l : list InputHandler.t) :
  filter isReleased (map (fun node => ReleasedHandler (InputHandler.hid node)) l)
  = map (fun node => ReleasedHandler (InputHandler.hid node)) l.
Proof.
  induction l as [|n l IH]; [reflexivity |].
  cbn [map filter isReleased]. rewrite IH. reflexivity.
Qed.

Lemma stop_suppressed (event : Event.t) (s : State) :
  Pointer._stateReset (this s) = true ->
  stop event s = (tt, s, [PreventDefault]).
Proof.
  intro H. unfold stop, bind, self. rewrite H. reflexivity.
Qed.

(** What a release that is not suppressed leaves, and what it calls. *)
Lemma stop_summary (event : Event.t) (s : State) :
  Pointer._stateReset (this s) = false ->
  let r := stop event s in
  let p := this s in
  let p' := this (final r) in
  let g' := game (final r) in
  Pointer.totalTouches p' = Pointer.totalTouches p
  /\ Pointer._stateReset p' = false
  /\ Pointer.isMouse p' = Pointer.isMouse p
  /\ Pointer.id p' = Pointer.id p
  /\ Pointer._holdSent p' = Pointer._holdSent p
  /\ Pointer.timeDown p' = Pointer.timeDown p
  /\ Pointer.timeUp p' = Game.time_now (game s)
  /\ Pointer.isDown p' = false
  /\ Pointer.isUp p' = true
  /\ Pointer.identifier p' = None
  /\ Pointer.pointerId p' = None
  /\ Pointer.withinGame p' = false
  /\ Pointer.targetObject p' = None
  /\ Pointer.positionUp p' = Point.mk (Pointer.x p) (Pointer.y p)
  /\ Pointer.active p' = (if 0 <? Pointer.id p then false else Pointer.active p)
  /\ Game.time_now g' = Game.time_now (game s)
  /\ Input.justPressedRate (Game.input g') = Input.justPressedRate (Game.input (game s))
  /\ Input.justReleasedRate (Game.input g') = Input.justReleasedRate (Game.input (game s))
  /\ Input.multiInputOverride (Game.input g')
     = Input.multiInputOverride (Game.input (game s))
  /\ Input.currentPointers (Game.input g')
     = Input.currentPointers (Game.input (game s)) - pointerWeight p
  /\ itemsOf (final r) = itemsOf s
  /\ trace r
     = (if overridePermits (game s)
        then OnUp
             :: (if tapDeclared s
                 then [OnTap (Game.time_now (game s) - Pointer.previousTapTime p
                              <? Input.doubleTapRate (Game.input (game s)))]
                 else [])
        else [])
       ++ map (fun node => ReleasedHandler (InputHandler.hid node)) (itemsOf s)
       ++ [AssignTargetObject None].
Proof.
  intro Hreset. cbv zeta.
  change (wp (stop event)
            (fun _ s' t =>
               Pointer.totalTouches (this s') = Pointer.totalTouches (this s)
               /\ Pointer._stateReset (this s') = false
               /\ Pointer.isMouse (this s') = Pointer.isMouse (this s)
               /\ Pointer.id (this s') = Pointer.id (this s)
               /\ Pointer._holdSent (this s') = Pointer._holdSent (this s)
               /\ Pointer.timeDown (this s') = Pointer.timeDown (this s)
               /\ Pointer.timeUp (this s') = Game.time_now (game s)
               /\ Pointer.isDown (this s') = false
               /\ Pointer.isUp (this s') = true
               /\ Pointer.identifier (this s') = None
               /\ Pointer.pointerId (this s') = None
               /\ Pointer.withinGame (this s') = false
               /\ Pointer.targetObject (this s') = None
               /\ Pointer.positionUp (this s')
                  = Point.mk (Pointer.x (this s)) (Pointer.y (this s))
               /\ Pointer.active (this s')
                  = (if 0 <? Pointer.id (this s) then false
                     else Pointer.active (this s))
               /\ Game.time_now (game s') = Game.time_now (game s)
               /\ Input.justPressedRate (Game.input (game s'))
                  = Input.justPressedRate (Game.input (game s))
               /\ Input.justReleasedRate (Game.input (game s'))
                  = Input.justReleasedRate (Game.input (game s))
               /\ Input.multiInputOverride (Game.input (game s'))
                  = Input.multiInputOverride (Game.input (game s))
               /\ Input.currentPointers (Game.input (game s'))
                  = Input.currentPointers (Game.input (game s))
                    - pointerWeight (this s)
               /\ itemsOf s' = itemsOf s
               /\ t = (if overridePermits (game s)
                       then OnUp
                            :: (if tapDeclared s
                                then [OnTap (Game.time_now (game s)
                                             - Pointer.previousTapTime (this s)
                                             <? Input.doubleTapRate
                                                  (Game.input (game s)))]
                                else [])
                       else [])
                      ++ map (fun node => ReleasedHandler (InputHandler.hid node))
                             (itemsOf s)
                      ++ [AssignTargetObject None]) s).
  unfold stop. wp_run.
  all: try congruence.
  all: unfold tapDeclared, duration, pointerWeight, itemsOf in *; cbn in *.
  all: decide_tests; cbn; conjs; first [reflexivity | lia].
Qed.

(** What a reset leaves, and what it calls. *)
Lemma reset_summary (s : State) :
  let r := reset s in
  let p := this s in
  let p' := this (final r) in
  Pointer.totalTouches p' = 0
  /\ Pointer._stateReset p' = true
  /\ Pointer.isMouse p' = Pointer.isMouse p
  /\ Pointer.id p' = Pointer.id p
  /\ Pointer._holdSent p' = false
  /\ Pointer.dirty p' = false
  /\ Pointer._history p' = []
  /\ Pointer.identifier p' = None
  /\ Pointer.pointerId p' = None
  /\ Pointer.targetObject p' = None
  /\ Pointer.withinGame p' = Pointer.withinGame p
  /\ Pointer.active p' = (if Pointer.isMouse p then Pointer.active p else false)
  /\ game (final r) = game s
  /\ trace r
     = match Pointer.targetObject p with
       | Some t => [ReleasedHandler t; AssignTargetObject None]
       | None => [AssignTargetObject None]
       end.
Proof.
  cbv zeta.
  change (wp reset
            (fun _ s' t =>
               Pointer.totalTouches (this s') = 0
               /\ Pointer._stateReset (this s') = true
               /\ Pointer.isMouse (this s') = Pointer.isMouse (this s)
               /\ Pointer.id (this s') = Pointer.id (this s)
               /\ Pointer._holdSent (this s') = false
               /\ Pointer.dirty (this s') = false
               /\ Pointer._history (this s') = []
               /\ Pointer.identifier (this s') = None
               /\ Pointer.pointerId (this s') = None
               /\ Pointer.targetObject (this s') = None
               /\ Pointer.withinGame (this s') = Pointer.withinGame (this s)
               /\ Pointer.active (this s')
                  = (if Pointer.isMouse (this s) then Pointer.active (this s)
                     else false)
               /\ game s' = game s
               /\ t = match Pointer.targetObject (this s) with
                      | Some t => [ReleasedHandler t; AssignTargetObject None]
                      | None => [AssignTargetObject None]
                      end) s).
  unfold reset. wp_run.
  all: decide_tests; cbn; conjs; reflexivity.
Qed.

(** X13: a press broadcasts [onDown], followed by a reset of the speed at
    the coordinates the pointer landed on, exactly when the override policy
    lets the pointer through, and never anything of a release or a hold;
    [positionDown] is the landing position; and the target the pointer has
    once the press is resolved, carried over or new, is told it was
    touched, once. *)
Theorem start_announces_press (event : Event.t) (s : State) :
  let r := start ext event s in
  filter isDownSignal (trace r)
  = (if overridePermits (game s)
     then [OnDown; ResetSpeed (landingX event s) (landingY event s)] else [])
  /\ Pointer.positionDown (this (final r))
     = Point.mk (landingX event s) (landingY event s)
  /\ filter isTouched (trace r)
     = match Pointer.targetObject (this (final r)) with
       | Some t => [TouchedHandler t]
       | None => []
       end
  /\ filter isUpSignal (trace r) = []
  /\ filter isHold (trace r) = [].
Proof.
  cbv zeta. pose proof (start_summary event s) as H. cbv zeta in H.
  decompose [and] H. conjs; assumption.
Qed.


Lemma final_forEach_app {A : Type} (l1 l2 : list A) (f : A -> M unit) (s : State) :
  final (forEach (l1 ++ l2) f s) = final (forEach l2 f (final (forEach l1 f s))).
Proof.
  revert s. induction l1 as [|a l1 IH]; intro s; [reflexivity |].
  cbn [app]. rewrite !forEach_cons, !final_bind. apply IH.
Qed.

Lemma forEach_single {A : Type} (a : A) (f : A -> M unit) (s : State) :
  final (forEach [a] f s) = final (f a s)
  /\ trace (forEach [a] f s) = trace (f a s).
Proof.
  rewrite forEach_cons, final_bind, trace_bind. split; [reflexivity |].
  apply app_nil_r.
Qed.

(** X15: a reset tells the release to the target alone, if there is one,
    and the release event that follows it is suppressed: the other
    candidates never hear of the release, and the count of pointers that a
    touch raised when it was pressed is not lowered. *)
Theorem reset_then_stop (event : Event.t) (s : State) :
  let r := forEach [Reset; Stop event] (step ext) s in
  trace r
  = match Pointer.targetObject (this s) with
    | Some t => [ReleasedHandler t; AssignTargetObject None; PreventDefault]
    | None => [AssignTargetObject None; PreventDefault]
    end
  /\ game (final r) = game s
  /\ Pointer.targetObject (this (final r)) = None
  /\ Pointer.totalTouches (this (final r)) = 0
  /\ Pointer._history (this (final r)) = [].
Proof.
  cbv zeta.
  pose proof (reset_summary s) as H. cbv zeta in H. decompose [and] H. clear H.
  rewrite !forEach_cons, trace_bind, final_bind, trace_bind, final_bind.
  cbn [step].
  rewrite (stop_suppressed event (final (reset s))) by assumption.
  cbn [final trace fst snd forEach]. unfold ret. cbn [final trace fst snd].
  conjs; try assumption.
  match goal with Ht : trace (reset s) = _ |- _ => rewrite Ht end.
  destruct (Pointer.targetObject (this s)); reflexivity.
Qed.

(** What one step does to the count of touches. *)
Lemma step_totalTouches (st : Step) (s : State) :
  Pointer.totalTouches (this (final (step ext st s)))
  = touchesAfter [st] (Pointer.totalTouches (this s)).
Proof.
  destruct st; cbn [step touchesAfter].
  - pose proof (start_summary event s) as H. cbv zeta in H. apply H.
  - exact (f_equal (fun x => Pointer.totalTouches (this x))
                   (move_moveFrame ext event fromClick s)).
  - exact (f_equal (fun x => Pointer.totalTouches (this x))
                   (update_steadyFrame ext s)).
  - exact (f_equal (fun x => Pointer.totalTouches (this x))
                   (leave_moveFrame ext event s)).
  - destruct (Pointer._stateReset (this s)) eqn:Hr.
    + rewrite (stop_suppressed event s Hr). reflexivity.
    + pose proof (stop_summary event s Hr) as H. cbv zeta in H. apply H.
  - pose proof (reset_summary s) as H. cbv zeta in H. apply H.
  - reflexivity.
Qed.

Lemma touchesAfter_cons (st : Step) (sts : list Step) (n : Z) :
  touchesAfter (st :: sts) n = touchesAfter sts (touchesAfter [st] n).
Proof. destruct st; reflexivity. Qed.

(** X16: [totalTouches] counts the presses since the last reset: over any
    run of steps, each [start] adds one, each [reset] starts again from
    zero, and no other step, a move, an update, a leave or a release,
    changes it. *)
Theorem totalTouches_counts_presses (sts : list Step) (s : State) :
  Pointer.totalTouches (this (final (forEach sts (step ext) s)))
  = touchesAfter sts (Pointer.totalTouches (this s)).
Proof.
  revert s. induction sts as [|st sts IH]; intro s; [reflexivity |].
  rewrite forEach_cons, final_bind, IH, step_totalTouches.
  symmetry. apply touchesAfter_cons.
Qed.

Lemma quiet_step_pressFrame (st : Step) (s : State) :
  quiet st = true -> pressFrame (final (step ext st s)) = pressFrame s.
Proof.
  destruct st; cbn [quiet step]; intro H; try discriminate H.
  - change (pressFrame (moveFrame (final (move ext event fromClick s)))
            = pressFrame (moveFrame s)).
    rewrite move_moveFrame. reflexivity.
  - change (pressFrame (steadyFrame (final (update ext s)))
            = pressFrame (steadyFrame s)).
    rewrite update_steadyFrame. reflexivity.
  - change (pressFrame (moveFrame (final (leave ext event s)))
            = pressFrame (moveFrame s)).
    rewrite leave_moveFrame. reflexivity.
  - reflexivity.
Qed.

Lemma quiet_run_pressFrame (sts : list Step) (s : State) :
  forallb quiet sts = true ->
  pressFrame (final (forEach sts (step ext) s)) = pressFrame s.
Proof.
  revert s. induction sts as [|st sts IH]; intros s H; [reflexivity |].
  cbn [forallb] in H. apply andb_true_iff in H. destruct H as [Hq Hrest].
  rewrite forEach_cons, final_bind, (IH _ Hrest).
  exact (quiet_step_pressFrame st s Hq).
Qed.

(** X17: a press followed by a release leaves [currentPointers] as it was,
    whatever moves, updates, leaves and ticks of the clock come between
    them: a touch raises the count by one when pressed and lowers it by
    one when released, the mouse does neither. *)
Theorem press_release_restores_pointer_count (pressed released : Event.t)
    (between : list Step) (s : State)
    (Hquiet : forallb quiet between = true) :
  let s1 := final (start ext pressed s) in
  let s3 := final (forEach (Start pressed :: between ++ [Stop released])
                           (step ext) s) in
  Input.currentPointers (Game.input (game s1))
  = Input.currentPointers (Game.input (game s)) + pointerWeight (this s)
  /\ Input.currentPointers (Game.input (game s3))
     = Input.currentPointers (Game.input (game s))
  /\ Pointer.isUp (this s3) = true
  /\ Pointer.targetObject (this s3) = None.
Proof.
  cbv zeta.
  pose proof (start_summary pressed s) as Hstart. cbv zeta in Hstart.
  decompose [and] Hstart. clear Hstart.
  rewrite forEach_cons, final_bind, final_forEach_app.
  cbn [step].
  set (s1 := final (start ext pressed s)) in *.
  pose proof (quiet_run_pressFrame between s1 Hquiet) as Hmid.
  set (s2 := final (forEach between (step ext) s1)) in *.
  destruct (forEach_single (Stop released) (step ext) s2) as [-> _].
  cbn [step].
  clearbody s1 s2.
  learn Hmid (fun x => Pointer._stateReset (this x)).
  learn Hmid (fun x => Pointer.isMouse (this x)).
  learn Hmid (fun x => Input.currentPointers (Game.input (game x))).
  assert (Hreset : Pointer._stateReset (this s2) = false) by congruence.
  pose proof (stop_summary released s2 Hreset) as Hstop. cbv zeta in Hstop.
  decompose [and] Hstop. clear Hstop.
  conjs; try assumption.
  unfold pointerWeight in *.
  replace (Pointer.isMouse (this s2)) with (Pointer.isMouse (this s)) in *
    by congruence.
  lia.
Qed.

End PressAndRelease.

(** ** Runs of steps *)

Section Runs.

Variable ext : Externals.

Lemma trace_forEach_cons {A : Type} (a : A) (l : list A) (f : A -> M unit)
    (s : State) :
  trace (forEach (a :: l) f s)
  = trace (f a s) ++ trace (forEach l f (final (f a s))).
Proof. rewrite forEach_cons, trace_bind. reflexivity. Qed.

Lemma leave_actions event s :
  Forall (fun a => fromMove a = true) (trace (leave ext event s)).
Proof.
  unfold leave. rewrite trace_bind. unfold assign at 1.
  cbn [trace result final fst snd app]. apply move_actions.
Qed.

Lemma no_up_signal_fromMove (t : list Action) :
  Forall (fun a => fromMove a = true) t -> filter isUpSignal t = [].
Proof.
  intro H. apply (filter_excluded fromMove isUpSignal t H).
  intros [] Hq; try reflexivity; discriminate Hq.
Qed.

Lemma no_up_signal_fromUpdate (t : list Action) :
  Forall (fun a => fromUpdate a = true) t -> filter isUpSignal t = [].
Proof.
  intro H. apply (filter_excluded fromUpdate isUpSignal t H).
  intros [] Hq; try reflexivity; discriminate Hq.
Qed.

Lemma no_hold_fromMove (t : list Action) :
  Forall (fun a => fromMove a = true) t -> filter isHold t = [].
Proof.
  intro H. apply (filter_excluded fromMove isHold t H).
  intros [] Hq; try reflexivity; discriminate Hq.
Qed.

(** One step of a pointer whose release is being suppressed. *)
Lemma suppressed_step (st : Step) (s : State) :
  Pointer._stateReset (this s) = true ->
  isStart st = false ->
  let r := step ext st s in
  Pointer._stateReset (this (final r)) = true
  /\ filter isUpSignal (trace r) = []
  /\ Input.currentPointers (Game.input (game (final r)))
     = Input.currentPointers (Game.input (game s)).
Proof.
  intros Hreset Hst. cbv zeta.
  destruct st; cbn [isStart] in Hst; try discriminate Hst; cbn [step].
  - pose proof (move_moveFrame ext event fromClick s) as Hf.
    learn Hf (fun x => Pointer._stateReset (this x)).
    learn Hf (fun x => Input.currentPointers (Game.input (game x))).
    conjs; [congruence | apply no_up_signal_fromMove, move_actions | assumption].
  - pose proof (update_steadyFrame ext s) as Hf.
    learn Hf (fun x => Pointer._stateReset (this x)).
    learn Hf (fun x => Input.currentPointers (Game.input (game x))).
    conjs; [congruence | | assumption].
    apply no_up_signal_fromUpdate. apply (update_summary ext s).
  - pose proof (leave_moveFrame ext event s) as Hf.
    learn Hf (fun x => Pointer._stateReset (this x)).
    learn Hf (fun x => Input.currentPointers (Game.input (game x))).
    conjs; [congruence | apply no_up_signal_fromMove, leave_actions | assumption].
  - rewrite (stop_suppressed event s Hreset). cbn [final trace fst snd filter isUpSignal].
    conjs; [exact Hreset | reflexivity | reflexivity].
  - pose proof (reset_summary s) as H. cbv zeta in H. decompose [and] H. clear H.
    conjs; [assumption | | congruence].
    match goal with Ht : trace (reset s) = _ |- _ => rewrite Ht end.
    destruct (Pointer.targetObject (this s)); reflexivity.
  - conjs; [exact Hreset | reflexivity | reflexivity].
Qed.

(** X18: once a pointer was reset, nothing of a release happens until it is
    pressed again: over any run of steps without a [start], [_stateReset]
    stays set, so every [stop] is suppressed, neither [onUp] nor a tap is
    broadcast, and the count of pointers is not changed. *)
Theorem release_suppressed_until_next_press (sts : list Step) (s : State)
    (Hreset : Pointer._stateReset (this s) = true)
    (Hsts : forallb (fun st => negb (isStart st)) sts = true) :
  let r := forEach sts (step ext) s in
  Pointer._stateReset (this (final r)) = true
  /\ filter isUpSignal (trace r) = []
  /\ Input.currentPointers (Game.input (game (final r)))
     = Input.currentPointers (Game.input (game s)).
Proof.
  cbv zeta. revert s Hreset.
  induction sts as [|st sts IH]; intros s Hreset.
  - conjs; [exact Hreset | reflexivity | reflexivity].
  - cbn [forallb] in Hsts. apply andb_true_iff in Hsts.
    destruct Hsts as [Hst Hrest]. apply negb_true_iff in Hst.
    destruct (suppressed_step st s Hreset Hst) as (H1 & H2 & H3).
    destruct (IH Hrest _ H1) as (I1 & I2 & I3).
    rewrite trace_forEach_cons, forEach_cons, final_bind, filter_app.
    rewrite H2, I2, I3, H3. conjs; [exact I1 | reflexivity | reflexivity].
Qed.

(** One step within a press: it signals a hold at most once, only if none
    was sent, and then the flag is raised; a raised flag stays raised. *)
Lemma hold_step (st : Step) (s : State) :
  withinPress st = true ->
  let r := step ext st s in
  (filter isHold (trace r) = []
   /\ (Pointer._holdSent (this s) = true ->
       Pointer._holdSent (this (final r)) = true))
  \/ (filter isHold (trace r) = [OnHold]
      /\ Pointer._holdSent (this s) = false
      /\ Pointer._holdSent (this (final r)) = true).
Proof.
  intro Hst. cbv zeta.
  destruct st; cbn [withinPress] in Hst; try discriminate Hst; cbn [step].
  - left. pose proof (move_moveFrame ext event fromClick s) as Hf.
    learn Hf (fun x => Pointer._holdSent (this x)).
    split; [apply no_hold_fromMove, move_actions | congruence].
  - destruct (update_summary ext s) as (_ & Hh & Hs & _). cbv zeta in Hh, Hs.
    rewrite Hh, Hs.
    destruct (holdDue s) eqn:Hdue; cbn [andb].
    + assert (Hnot : Pointer._holdSent (this s) = false).
      { unfold holdDue in Hdue. apply andb_true_iff in Hdue.
        destruct Hdue as [Hdue _]. apply andb_true_iff in Hdue.
        destruct Hdue as [_ Hdue]. apply negb_true_iff in Hdue. exact Hdue. }
      destruct (overridePermits (game s)).
      * right. conjs; [reflexivity | exact Hnot | apply orb_true_r].
      * left. split; [reflexivity | intros _; apply orb_true_r].
    + left. split; [reflexivity |]. intros ->. reflexivity.
  - left. pose proof (leave_moveFrame ext event s) as Hf.
    learn Hf (fun x => Pointer._holdSent (this x)).
    split; [apply no_hold_fromMove, leave_actions | congruence].
  - left. destruct (Pointer._stateReset (this s)) eqn:Hr.
    + rewrite (stop_suppressed event s Hr). split; [reflexivity | exact (fun H => H)].
    + pose proof (stop_summary event s Hr) as H. cbv zeta in H.
      decompose [and] H. clear H.
      split; [| congruence].
      match goal with Ht : trace (stop event s) = _ |- _ => rewrite Ht end.
      rewrite !filter_app.
      assert (E : forall l, filter isHold
                (map (fun node => ReleasedHandler (InputHandler.hid node)) l) = []).
      { induction l as [|n l IHl]; [reflexivity | exact IHl]. }
      rewrite E.
      destruct (overridePermits (game s)), (tapDeclared s); reflexivity.
  - left. split; [reflexivity | exact (fun H => H)].
Qed.

(** X19: between a press and the next press or reset, the hold is
    signalled at most once, however many updates, moves and ticks of the
    clock there are, and not at all once the hold flag is raised. *)
Theorem hold_signalled_at_most_once (sts : list Step) (s : State)
    (Hsts : forallb withinPress sts = true) :
  (length (filter isHold (trace (forEach sts (step ext) s)))
   <= (if Pointer._holdSent (this s) then 0 else 1))%nat.
Proof.
  revert s. induction sts as [|st sts IH]; intro s.
  - change (trace (forEach [] (step ext) s)) with (@nil Action).
    cbn [filter length]. destruct (Pointer._holdSent (this s)); lia.
  - cbn [forallb] in Hsts. apply andb_true_iff in Hsts.
    destruct Hsts as [Hst Hrest].
    rewrite trace_forEach_cons, filter_app, length_app.
    specialize (IH Hrest (final (step ext st s))).
    destruct (hold_step st s Hst) as [[Hnone Hkeep] | (Hone & Hnot & Hsent)].
    + rewrite Hnone. cbn [length].
      destruct (Pointer._holdSent (this s)).
      * rewrite (Hkeep eq_refl) in IH. lia.
      * destruct (Pointer._holdSent (this (final (step ext st s)))); lia.
    + rewrite Hone, Hnot. rewrite Hsent in IH. cbn [length]. lia.
Qed.

(** One step of a touch slot. *)
Lemma touch_step (st : Step) (s : State) :
  touchSlot (this s) ->
  (Pointer.isUp (this s) = true -> Pointer.active (this s) = false) ->
  let p' := this (final (step ext st s)) in
  touchSlot p' /\ (Pointer.isUp p' = true -> Pointer.active p' = false).
Proof.
  intros [Hmouse Hid] Hinv. cbv zeta. unfold touchSlot.
  destruct st; cbn [step].
  - pose proof (start_summary ext event s) as H. cbv zeta in H.
    decompose [and] H. clear H.
    conjs; [congruence | lia | congruence].
  - pose proof (move_moveFrame ext event fromClick s) as Hf.
    learn Hf (fun x => Pointer.isMouse (this x)).
    learn Hf (fun x => Pointer.id (this x)).
    learn Hf (fun x => Pointer.isUp (this x)).
    learn Hf (fun x => Pointer.active (this x)).
    conjs; [congruence | lia |].
    intro Hu. etransitivity; [eassumption | apply Hinv; congruence].
  - pose proof (update_steadyFrame ext s) as Hf.
    learn Hf (fun x => Pointer.isMouse (this x)).
    learn Hf (fun x => Pointer.id (this x)).
    learn Hf (fun x => Pointer.isUp (this x)).
    learn Hf (fun x => Pointer.active (this x)).
    conjs; [congruence | lia |].
    intro Hu. etransitivity; [eassumption | apply Hinv; congruence].
  - pose proof (leave_moveFrame ext event s) as Hf.
    learn Hf (fun x => Pointer.isMouse (this x)).
    learn Hf (fun x => Pointer.id (this x)).
    learn Hf (fun x => Pointer.isUp (this x)).
    learn Hf (fun x => Pointer.active (this x)).
    conjs; [congruence | lia |].
    intro Hu. etransitivity; [eassumption | apply Hinv; congruence].
  - destruct (Pointer._stateReset (this s)) eqn:Hr.
    + rewrite (stop_suppressed event s Hr). cbn [final fst snd].
      conjs; assumption.
    + pose proof (stop_summary event s Hr) as H. cbv zeta in H.
      decompose [and] H. clear H.
      conjs; [congruence | lia |].
      intros _.
      match goal with Ha : Pointer.active _ = _ |- _ => rewrite Ha end.
      destruct (Z.ltb_spec 0 (Pointer.id (this s))); [reflexivity | lia].
  - pose proof (reset_summary s) as H. cbv zeta in H.
    decompose [and] H. clear H.
    conjs; [congruence | lia |].
    intros _.
    match goal with Ha : Pointer.active _ = _ |- _ => rewrite Ha end.
    rewrite Hmouse. reflexivity.
  - conjs; assumption.
Qed.

(** X20: a touch pointer is never active while it is up: for a pointer
    constructed with a positive id, after any run of steps, [isUp] implies
    that [active] is false.  The mouse is the one exception the code makes:
    a release leaves it active. *)
Theorem touch_inactive_when_up (id : Z) (g : Game.t) (sts : list Step)
    (Hid : 0 < id) :
  let p' := this (final (forEach sts (step ext) (mkState (newPointer id) g))) in
  Pointer.isUp p' = true -> Pointer.active p' = false.
Proof.
  cbv zeta.
  assert (G : forall s,
             touchSlot (this s) ->
             (Pointer.isUp (this s) = true -> Pointer.active (this s) = false) ->
             Pointer.isUp (this (final (forEach sts (step ext) s))) = true ->
             Pointer.active (this (final (forEach sts (step ext) s))) = false).
  { induction sts as [|st sts IH]; intros s Hslot Hinv.
    - exact Hinv.
    - rewrite forEach_cons, final_bind.
      destruct (touch_step st s Hslot Hinv) as [Hslot' Hinv'].
      exact (IH _ Hslot' Hinv'). }
  apply G.
  - split; [| exact Hid]. cbn.
    destruct (Z.eqb_spec id 0); [lia | reflexivity].
  - intros _. reflexivity.
Qed.

(** X21: for the whole of [window] milliseconds after a press, and no
    longer, the pointer is just pressed, where [window] is the duration
    asked for or, when none or zero is given, [justPressedRate]; in that
    time [duration] is the time elapsed since the press and the pointer is
    not just released. *)
Theorem just_pressed_window (event : Event.t) (asked : option Z) (later : Z)
    (s : State) :
  let pressedAt := Game.time_now (game s) in
  let window := valueOr asked (Input.justPressedRate (Game.input (game s))) in
  let s1 := final (forEach [Start event; Tick later] (step ext) s) in
  duration s1 = later - pressedAt
  /\ justPressed asked s1 = (later <? pressedAt + window)
  /\ justReleased asked s1 = false.
Proof.
  cbv zeta.
  pose proof (start_summary ext event s) as H. cbv zeta in H.
  decompose [and] H. clear H.
  rewrite forEach_cons, final_bind. cbn [step].
  destruct (forEach_single (Tick later) (step ext) (final (start ext event s)))
    as [-> _].
  cbn [step final fst snd].
  unfold duration, justPressed, justReleased. cbn [this game Game.time_now
    Game.set_time_now Game.input].
  repeat match goal with
         | E : _ (this (final (start ext event s))) = _ |- _ => rewrite E; clear E
         | E : _ (Game.input (game (final (start ext event s)))) = _ |- _ =>
             rewrite E; clear E
         end.
  conjs; reflexivity.
Qed.

(** X22: for the whole of [window] milliseconds after a release that is not
    suppressed, and no longer, the pointer is just released; [duration] is
    then the sentinel -1 and the pointer is not just pressed. *)
Theorem just_released_window (event : Event.t) (asked : option Z) (later : Z)
    (s : State) (Hreset : Pointer._stateReset (this s) = false) :
  let releasedAt := Game.time_now (game s) in
  let window := valueOr asked (Input.justReleasedRate (Game.input (game s))) in
  let s1 := final (forEach [Stop event; Tick later] (step ext) s) in
  duration s1 = -1
  /\ justReleased asked s1 = (later <? releasedAt + window)
  /\ justPressed asked s1 = false.
Proof.
  cbv zeta.
  pose proof (stop_summary event s Hreset) as H. cbv zeta in H.
  decompose [and] H. clear H.
  rewrite forEach_cons, final_bind. cbn [step].
  destruct (forEach_single (Tick later) (step ext) (final (stop event s)))
    as [-> _].
  cbn [step final fst snd].
  unfold duration, justPressed, justReleased. cbn [this game Game.time_now
    Game.set_time_now Game.input].
  repeat match goal with
         | E : _ (this (final (stop event s))) = _ |- _ => rewrite E; clear E
         | E : _ (Game.input (game (final (stop event s)))) = _ |- _ =>
             rewrite E; clear E
         end.
  conjs; reflexivity.
Qed.

(** X23: the history is throttled: with a positive [recordRate], a second
    [update] at the same instant never takes a second sample. *)
Theorem update_throttles_history (s : State)
    (Hrate : 0 < Input.recordRate (Game.input (game s))) :
  Pointer._history (this (final (update ext (final (update ext s)))))
  = Pointer._history (this (final (update ext s))).
Proof.
  destruct (update_summary ext s) as (_ & _ & _ & _ & Hdrop). cbv zeta in Hdrop.
  pose proof (update_steadyFrame ext s) as Hf.
  learn Hf (fun x => Pointer.active (this x)).
  learn Hf (fun x => Game.time_now (game x)).
  learn Hf (fun x => Input.recordPointerHistory (Game.input (game x))).
  set (s1 := final (update ext s)) in *. clearbody s1.
  rewrite (update_history ext s1).
  assert (Hnot : recordingDue s1 = false).
  { unfold recordingDue in *.
    repeat match goal with E : _ = _ |- _ => rewrite E; clear E end.
    destruct (Pointer.active (this s)); [| reflexivity].
    destruct (Input.recordPointerHistory (Game.input (game s))); [| reflexivity].
    cbn [andb].
    destruct (Z.leb_spec (Pointer._nextDrop (this s)) (Game.time_now (game s)));
      cbn [andb]; apply Z.leb_gt; lia. }
  rewrite Hnot. reflexivity.
Qed.

End Runs.

(** ** What the resolver finds *)

Section ResolverOutcome.

Variable ext : Externals.
Variable fromClick : bool.

Lemma Forall2_In_left {A B : Type} (R : A -> B -> Prop) (l : list A)
    (l' : list B) (x : A) :
  Forall2 R l l' -> In x l -> exists y, In y l' /\ R x y.
Proof.
  induction 1 as [|x' y l l' HR _ IH]; intros Hin; [destruct Hin |].
  destruct Hin as [<- | Hin].
  - exists y. split; [left; reflexivity | exact HR].
  - destruct (IH Hin) as (y0 & Hy0 & HR0).
    exists y0. split; [right; exact Hy0 | exact HR0].
Qed.

(** The first sweep passes over a pixel perfect candidate. *)
Lemma firstPass_exact_untouched (nodes : list InputHandler.t) (s : State) :
  Forall2 (fun n n' => InputHandler.pixelPerfect n = true -> n' = n)
          nodes (result (firstPass ext fromClick nodes s)).
Proof.
  revert s. induction nodes as [|n rest IH]; intro s.
  - rewrite firstPass_nil. constructor.
  - rewrite firstPass_cons.
    destruct (InputHandler.validForInput n _ _ false) eqn:Hvalid; cbv zeta;
      cbn [result fst snd]; (constructor; [| apply IH]).
    + intro Hpp. apply validForInput_cheap in Hvalid.
      destruct Hvalid as [Hno _]. rewrite Hpp in Hno. discriminate Hno.
    + reflexivity.
Qed.

(** The second sweep, as [firstPass_spec] has the first: the floor it ends
    with is the one it found, or the key of an unchecked candidate whose
    exact test passed, and no such candidate beats it. *)
Lemma secondPass_winner (nodes : list InputHandler.t) (s : State) :
  let r := secondPass ext fromClick nodes s in
  let pos := Pointer.position (this s) in
  ((floorOf (final r) = floorOf s
    /\ Pointer._highestRenderObject (this (final r))
       = Pointer._highestRenderObject (this s))
   \/ exists c, In c nodes
        /\ InputHandler.checked c = false
        /\ overlaps ext fromClick pos false (InputHandler.hid c) = true
        /\ better c (floorOf s)
        /\ floorOf (final r) = keyOf c
        /\ Pointer._highestRenderObject (this (final r))
           = Some (InputHandler.hid c))
  /\ (forall c, In c nodes ->
        InputHandler.checked c = false ->
        overlaps ext fromClick pos false (InputHandler.hid c) = true ->
        ~ better c (floorOf (final r))).
Proof.
  cbv zeta. revert s.
  induction nodes as [|n rest IH]; intro s.
  - rewrite secondPass_nil. cbn [final fst snd].
    split; [left; split; reflexivity | intros c []].
  - pose proof (secondPass_spec ext fromClick) as Hspec. cbv zeta in Hspec.
    rewrite secondPass_cons.
    destruct (negb (InputHandler.checked n)
              && InputHandler.validForInput n (fst (floorOf s)) (snd (floorOf s)) true)
      eqn:Hguard; cbv zeta; cbn [result final trace fst snd].
    + apply andb_true_iff in Hguard. destruct Hguard as [Hunchecked Hvalid].
      apply negb_true_iff in Hunchecked.
      apply validForInput_exact in Hvalid.
      destruct (overlaps ext fromClick (Pointer.position (this s)) false
                  (InputHandler.hid n)) eqn:Hhit.
      * destruct (IH (recorded n s)) as (Hwin & Hun).
        destruct (Hspec rest (recorded n s)) as (Hle & _).
        change (floorOf (recorded n s)) with (keyOf n) in *.
        change (Pointer.position (this (recorded n s)))
          with (Pointer.position (this s)) in *.
        assert (Hup : floorLe (floorOf s) (keyOf n)) by (exact (better_rises Hvalid)).
        split.
        -- right. destruct Hwin as [[Hf Ho] | (c & Hin & Hc1 & Hc2 & Hc3 & Hc4 & Hc5)].
           ++ exists n. conjs; try assumption; left; reflexivity.
           ++ exists c. conjs; try assumption;
                [right; exact Hin | exact (better_mono Hup Hc3)].
        -- intros c [<- | Hin] Hc1 Hc2.
           ++ apply key_unbeaten. exact Hle.
           ++ exact (Hun c Hin Hc1 Hc2).
      * destruct (IH s) as (Hwin & Hun).
        split.
        -- destruct Hwin as [H | (c & Hin & Hc)]; [left; exact H |].
           right. exists c. split; [right; exact Hin | exact Hc].
        -- intros c [<- | Hin] Hc1 Hc2.
           ++ rewrite Hhit in Hc2. discriminate Hc2.
           ++ exact (Hun c Hin Hc1 Hc2).
    + destruct (IH s) as (Hwin & Hun).
      destruct (Hspec rest s) as (Hle & _).
      split.
      * destruct Hwin as [H | (c & Hin & Hc)]; [left; exact H |].
        right. exists c. split; [right; exact Hin | exact Hc].
      * intros c [<- | Hin] Hc1 Hc2.
        -- rewrite Hc1 in Hguard. cbn [negb andb] in Hguard.
           intro Hb. apply (better_mono Hle) in Hb.
           apply validForInput_exact in Hb. rewrite Hb in Hguard.
           discriminate Hguard.
        -- exact (Hun c Hin Hc1 Hc2).
Qed.

(** The highest object that the two sweeps leave. *)
Lemma sweeps_highest (s : State) :
  let s2 := final (exactPhase ext fromClick (final (cheapPhase ext fromClick s))) in
  let hit := hitBy ext fromClick (Pointer.position (this s)) in
  Pointer.targetObject (this s2) = Pointer.targetObject (this s)
  /\ Pointer.position (this s2) = Pointer.position (this s)
  /\ ((Pointer._highestRenderObject (this s2) = None
       /\ forall c, In c (itemsOf s) -> hit c = true -> ~ better c initialFloor)
      \/ exists c, In c (itemsOf s)
           /\ hit c = true
           /\ better c initialFloor
           /\ Pointer._highestRenderObject (this s2) = Some (InputHandler.hid c)
           /\ forall c', In c' (itemsOf s) -> hit c' = true ->
                         ~ better c' (keyOf c)).
Proof.
  cbv zeta. rewrite cheapPhase_run. cbn [final fst snd].
  destruct (firstPass_spec ext fromClick (itemsOf (cleared s)) (cleared s))
    as (Hle & Hwin & Hun & Hnodes & _ & Hfr).
  pose proof (firstPass_exact_untouched (itemsOf (cleared s)) (cleared s)) as Hexact.
  set (r := firstPass ext fromClick (itemsOf (cleared s)) (cleared s)) in *.
  set (s1 := withItems (result r) (final r)).
  change (floorOf (final r)) with (floorOf s1) in *.
  change (Pointer._highestRenderObject (this (final r)))
    with (Pointer._highestRenderObject (this s1)) in *.
  change (floorOf (cleared s)) with initialFloor in *.
  change (Pointer.position (this (cleared s)))
    with (Pointer.position (this s)) in *.
  change (itemsOf (cleared s))
    with (map (InputHandler.set_checked false) (itemsOf s)) in *.
  assert (Hpos1 : Pointer.position (this s1) = Pointer.position (this s))
    by (exact (f_equal (fun x => Pointer.position (this x)) Hfr)).
  assert (Htarget1 : Pointer.targetObject (this s1) = Pointer.targetObject (this s))
    by (exact (f_equal (fun x => Pointer.targetObject (this x)) Hfr)).
  rewrite exactPhase_run. cbn [final fst snd].
  change (itemsOf s1) with (result r).
  destruct (secondPass_spec ext fromClick (result r) s1) as (Hle2 & _ & Hfr2 & _).
  destruct (secondPass_winner (result r) s1) as (Hwin2 & Hun2).
  set (s2 := final (secondPass ext fromClick (result r) s1)) in *.
  rewrite Hpos1 in *.
  assert (Hunbeaten : forall c, In c (itemsOf s) ->
            hitBy ext fromClick (Pointer.position (this s)) c = true ->
            ~ better c (floorOf s2)).
  { intros c Hc Hhit. unfold hitBy in Hhit.
    destruct (InputHandler.pixelPerfect c) eqn:Hpp; cbn [negb] in Hhit.
    - assert (Hin : In (InputHandler.set_checked false c)
                       (map (InputHandler.set_checked false) (itemsOf s)))
        by (exact (in_map _ _ c Hc)).
      destruct (Forall2_In_left _ _ _ _ Hexact Hin) as (n' & Hn' & Hsame).
      rewrite (Hsame Hpp) in Hn'.
      exact (Hun2 _ Hn' eq_refl Hhit).
    - intro Hb. apply (better_mono Hle2) in Hb.
      exact (Hun (InputHandler.set_checked false c)
                 (in_map _ _ c Hc) Hpp Hhit Hb). }
  conjs.
  - rewrite <- Htarget1.
    exact (f_equal (fun x => Pointer.targetObject (this x)) Hfr2).
  - rewrite <- Hpos1.
    exact (f_equal (fun x => Pointer.position (this x)) Hfr2).
  - destruct Hwin2 as [[Hf2 Ho2] | (c2 & Hin2 & Hc1 & Hc2 & Hc3 & Hc4 & Hc5)].
    + destruct Hwin as [[Hf Ho] | (c & Hin & Hc1 & Hc2 & Hc3 & Hc4 & Hc5)].
      * left. split; [rewrite Ho2, Ho; reflexivity |].
        intros c Hc Hhit. rewrite <- Hf, <- Hf2. exact (Hunbeaten c Hc Hhit).
      * right. apply in_map_iff in Hin. destruct Hin as (c0 & <- & Hin0).
        exists c0. conjs.
        -- exact Hin0.
        -- unfold hitBy. cbn [InputHandler.pixelPerfect InputHandler.set_checked] in Hc1.
           rewrite Hc1. exact Hc2.
        -- exact Hc3.
        -- rewrite Ho2. exact Hc5.
        -- intros c' Hc' Hhit.
           change (keyOf c0) with (keyOf (InputHandler.set_checked false c0)).
           rewrite <- Hc4, <- Hf2. exact (Hunbeaten c' Hc' Hhit).
    + right.
      destruct (Forall2_In_right _ _ _ _ Hnodes Hin2) as (n0 & Hin0 & [Hsame Hflag]).
      apply in_map_iff in Hin0. destruct Hin0 as (c0 & <- & Hc0).
      destruct (sameCandidate_fields Hsame) as (Hhid & Hprio & Hord & _).
      cbn [InputHandler.hid InputHandler.priorityID InputHandler.renderOrderID
           InputHandler.set_checked] in Hhid, Hprio, Hord.
      assert (Hpp : InputHandler.pixelPerfect c0 = true).
      { destruct Hflag as [H | [_ [H | H]]].
        - rewrite H in Hc1. discriminate Hc1.
        - exact H.
        - exfalso. apply H. apply (sameCandidate_better (floorOf s1) Hsame). exact Hc3. }
      assert (Hkey : keyOf c2 = keyOf c0) by (unfold keyOf; congruence).
      exists c0. conjs.
      * exact Hc0.
      * unfold hitBy. rewrite Hpp, <- Hhid. exact Hc2.
      * apply (better_mono Hle).
        apply (sameCandidate_better (floorOf s1) Hsame) in Hc3. exact Hc3.
      * rewrite Hc5, Hhid. reflexivity.
      * intros c' Hc' Hhit. rewrite <- Hkey, <- Hc4. exact (Hunbeaten c' Hc' Hhit).
Qed.

(** The target that the last phase leaves, and what it tells. *)
Lemma notifyTarget_target (s : State) :
  let r := notifyTarget ext s in
  Pointer.targetObject (this (final r))
  = retargeted ext (Pointer.position (this s))
      (Pointer._highestRenderObject (this s)) (Pointer.targetObject (this s))
  /\ Pointer._highestRenderObject (this (final r))
     = Pointer._highestRenderObject (this s)
  /\ filter isNotification (trace r)
     = match Pointer._highestRenderObject (this s), Pointer.targetObject (this s) with
       | None, None => []
       | None, Some old => [PointerOutHandler old]
       | Some h, None => [PointerOverHandler h]
       | Some h, Some old =>
           if Nat.eqb old h then [UpdateHandler h]
           else [PointerOutHandler old; PointerOverHandler h]
       end.
Proof.
  cbv zeta. pose proof (notifyTarget_spec ext s) as H. cbv zeta in H.
  unfold retargeted.
  destruct (Pointer._highestRenderObject (this s)) as [h|] eqn:Hh,
           (Pointer.targetObject (this s)) as [old|] eqn:Ht.
  - destruct (Nat.eqb_spec old h) as [-> | Hne]; cbn [andb].
    + destruct (update_ ext h _); destruct H as [-> ->]; cbn [negb];
        conjs; first [assumption | reflexivity | cbn; assumption].
    + destruct H as [-> ->].
      conjs; first [assumption | reflexivity | cbn; assumption].
  - destruct H as [-> ->].
    conjs; first [assumption | reflexivity | cbn; assumption].
  - destruct H as [-> ->].
    conjs; first [assumption | reflexivity | cbn; assumption].
  - destruct H as [-> ->].
    conjs; first [assumption | reflexivity | cbn; assumption].
Qed.

(** The resolver, from the sweeps to the target. *)
Lemma resolver_outcome (s : State) :
  let r := processInteractiveObjects ext fromClick s in
  let s2 := final (exactPhase ext fromClick (final (cheapPhase ext fromClick s))) in
  let highest := Pointer._highestRenderObject (this s2) in
  let old := Pointer.targetObject (this s) in
  Pointer._highestRenderObject (this (final r)) = highest
  /\ Pointer.targetObject (this (final r))
     = retargeted ext (Pointer.position (this s)) highest old
  /\ filter isNotification (trace r)
     = match highest, old with
       | None, None => []
       | None, Some o => [PointerOutHandler o]
       | Some h, None => [PointerOverHandler h]
       | Some h, Some o =>
           if Nat.eqb o h then [UpdateHandler h]
           else [PointerOutHandler o; PointerOverHandler h]
       end.
Proof.
  cbv zeta.
  destruct (processInteractiveObjects_run ext fromClick s) as (-> & -> & _).
  destruct (sweeps_highest s) as (Htarget & Hpos & _).
  destruct (cheapPhase_spec ext fromClick s) as (Htr1 & _).
  set (s1 := final (cheapPhase ext fromClick s)) in *.
  assert (Htr2 : Forall (fun a => exists h, a = testCall fromClick h false)
                        (trace (exactPhase ext fromClick s1))).
  { rewrite exactPhase_run. cbn [trace snd].
    apply (secondPass_spec ext fromClick (itemsOf s1) s1). }
  set (s2 := final (exactPhase ext fromClick s1)) in *.
  destruct (notifyTarget_target s2) as (Ht & Hh & Hn).
  rewrite Htarget, Hpos in *.
  destruct (tests_tell_nothing fromClick Htr1) as [Hn1 _].
  destruct (tests_tell_nothing fromClick Htr2) as [Hn2 _].
  rewrite !filter_app, Hn1, Hn2. cbn [app].
  conjs; assumption.
Qed.

(** X24: call the test of a candidate the fast test, or the exact test
    when the candidate is pixel perfect.  The highest object that the
    resolver finds is a candidate that passed its test, could beat the
    initial floor, and is beaten by no candidate that passed its test:
    none of them has a higher priority, or the same priority and a lower
    render order.  It finds none only when no candidate that passed its
    test could beat the initial floor, and then the target is cleared.
    Otherwise the target is the highest object, or none when the highest
    object was the target already and its [update] answered [false]. *)
Theorem resolver_picks_unbeaten (s : State) :
  let s' := final (processInteractiveObjects ext fromClick s) in
  let pos := Pointer.position (this s) in
  let hit := hitBy ext fromClick pos in
  match Pointer._highestRenderObject (this s') with
  | None =>
      (forall c, In c (itemsOf s) -> hit c = true -> ~ better c initialFloor)
      /\ Pointer.targetObject (this s') = None
  | Some h =>
      (exists c, In c (itemsOf s)
         /\ InputHandler.hid c = h
         /\ hit c = true
         /\ better c initialFloor
         /\ forall c', In c' (itemsOf s) -> hit c' = true ->
              ~ (InputHandler.priorityID c < InputHandler.priorityID c'
                 \/ (InputHandler.priorityID c' = InputHandler.priorityID c
                     /\ InputHandler.renderOrderID c'
                        < InputHandler.renderOrderID c)))
      /\ Pointer.targetObject (this s')
         = (if match Pointer.targetObject (this s) with
               | Some old => Nat.eqb old h && negb (update_ ext h pos)
               | None => false
               end
            then None else Some h)
  end.
Proof.
  cbv zeta.
  destruct (resolver_outcome s) as (-> & -> & _).
  destruct (sweeps_highest s) as (_ & _ & [[-> Hnone] | (c & Hc & Hhit & Hb & -> & Hun)]).
  - split; [exact Hnone | reflexivity].
  - split.
    + exists c. conjs; [exact Hc | reflexivity | exact Hhit | exact Hb |].
      intros c' Hc' Hhit'. exact (Hun c' Hc' Hhit').
    + unfold retargeted. destruct (Pointer.targetObject (this s)); reflexivity.
Qed.

(** X25: when no candidate passes its test, the resolver finds nothing,
    clears the target, and tells only the former target, if there was one,
    that the pointer is out. *)
Theorem resolver_nothing_under_pointer (s : State)
    (Hnone : forall c, In c (itemsOf s) ->
       hitBy ext fromClick (Pointer.position (this s)) c = false) :
  let r := processInteractiveObjects ext fromClick s in
  Pointer._highestRenderObject (this (final r)) = None
  /\ Pointer.targetObject (this (final r)) = None
  /\ result r = false
  /\ filter isNotification (trace r)
     = match Pointer.targetObject (this s) with
       | Some old => [PointerOutHandler old]
       | None => []
       end.
Proof.
  cbv zeta.
  destruct (resolver_outcome s) as (Hh & Ht & Hn).
  destruct (processInteractiveObjects_run ext fromClick s) as (Hfinal & _ & Hres).
  rewrite Hres, <- Hfinal.
  destruct (sweeps_highest s) as (_ & _ & [[E _] | (c & Hc & Hhit & _)]).
  - rewrite E in *. rewrite Ht, Hh, Hn. cbn [retargeted defined].
    conjs; reflexivity.
  - rewrite (Hnone c Hc) in Hhit. discriminate Hhit.
Qed.

End ResolverOutcome.

(** ** Calling the resolver again *)

Section ResolverAgain.

Variable ext : Externals.
Variable fromClick : bool.

(** The sweeps read the floor and the position of the pointer, and nothing
    else of the state. *)
Lemma firstPass_reads (nodes : list InputHandler.t) (s t : State) :
  floorOf s = floorOf t ->
  Pointer._highestRenderObject (this s) = Pointer._highestRenderObject (this t) ->
  Pointer.position (this s) = Pointer.position (this t) ->
  let r := firstPass ext fromClick nodes s in
  let r' := firstPass ext fromClick nodes t in
  result r = result r'
  /\ floorOf (final r) = floorOf (final r')
  /\ Pointer._highestRenderObject (this (final r))
     = Pointer._highestRenderObject (this (final r'))
  /\ Pointer.position (this (final r)) = Pointer.position (this (final r')).
Proof.
  cbv zeta. revert s t.
  induction nodes as [|n rest IH]; intros s t Hf Hh Hp.
  - rewrite !firstPass_nil. cbn [result final fst snd]. conjs; trivial.
  - rewrite !firstPass_cons. rewrite <- Hf, <- Hp.
    destruct (InputHandler.validForInput n _ _ false); cbv zeta;
      cbn [result final fst snd].
    + destruct (overlaps ext fromClick _ true _).
      * destruct (IH (recorded n s) (recorded n t) eq_refl eq_refl Hp)
          as (-> & H2 & H3 & H4).
        conjs; trivial.
      * destruct (IH s t Hf Hh Hp) as (-> & H2 & H3 & H4). conjs; trivial.
    + destruct (IH s t Hf Hh Hp) as (-> & H2 & H3 & H4). conjs; trivial.
Qed.

Lemma secondPass_reads (nodes : list InputHandler.t) (s t : State) :
  floorOf s = floorOf t ->
  Pointer._highestRenderObject (this s) = Pointer._highestRenderObject (this t) ->
  Pointer.position (this s) = Pointer.position (this t) ->
  Pointer._highestRenderObject (this (final (secondPass ext fromClick nodes s)))
  = Pointer._highestRenderObject (this (final (secondPass ext fromClick nodes t))).
Proof.
  revert s t.
  induction nodes as [|n rest IH]; intros s t Hf Hh Hp.
  - rewrite !secondPass_nil. exact Hh.
  - rewrite !secondPass_cons. rewrite <- Hf, <- Hp.
    destruct (negb (InputHandler.checked n) && _); cbv zeta; cbn [final fst snd].
    + destruct (overlaps ext fromClick _ false _).
      * exact (IH (recorded n s) (recorded n t) eq_refl eq_refl Hp).
      * exact (IH s t Hf Hh Hp).
    + exact (IH s t Hf Hh Hp).
Qed.

Lemma swept_candidates (b : Z * Z) (l l' : list InputHandler.t) :
  Forall2 (sweptAs b) (map (InputHandler.set_checked false) l) l' ->
  map (InputHandler.set_checked false) l' = map (InputHandler.set_checked false) l.
Proof.
  revert l'. induction l as [|c l IH]; intros l' H;
    inversion H as [|x y t t' Hxy Ht]; subst; [reflexivity |].
  cbn [map]. f_equal; [| exact (IH _ Ht)].
  exact (proj1 Hxy).
Qed.

(** A call of the resolver leaves the candidates as they were, up to the
    scratch flags. *)
Lemma resolver_same_candidates (s : State) :
  map (InputHandler.set_checked false)
      (itemsOf (final (processInteractiveObjects ext fromClick s)))
  = map (InputHandler.set_checked false) (itemsOf s).
Proof.
  rewrite (processInteractiveObjects_items ext fromClick s).
  destruct (firstPass_spec ext fromClick
              (map (InputHandler.set_checked false) (itemsOf s)) (cleared s))
    as (_ & _ & _ & Hnodes & _).
  exact (swept_candidates _ _ _ Hnodes).
Qed.

(** The highest object of a second call. *)
Lemma resolver_again_highest (s : State) :
  let s1 := final (processInteractiveObjects ext fromClick s) in
  Pointer._highestRenderObject
    (this (final (exactPhase ext fromClick (final (cheapPhase ext fromClick s1)))))
  = Pointer._highestRenderObject
      (this (final (exactPhase ext fromClick (final (cheapPhase ext fromClick s))))).
Proof.
  cbv zeta.
  pose proof (resolver_same_candidates s) as Hitems.
  pose proof (processInteractiveObjects_frame ext fromClick s) as Hfr.
  assert (Hpos : Pointer.position
                   (this (final (processInteractiveObjects ext fromClick s)))
                 = Pointer.position (this s))
    by (exact (f_equal (fun x => Pointer.position (this x)) Hfr)).
  set (s1 := final (processInteractiveObjects ext fromClick s)) in *.
  clearbody s1.
  rewrite !cheapPhase_run. cbn [final fst snd].
  rewrite !exactPhase_run. cbn [final fst snd].
  change (itemsOf (cleared s1))
    with (map (InputHandler.set_checked false) (itemsOf s1)).
  change (itemsOf (cleared s))
    with (map (InputHandler.set_checked false) (itemsOf s)).
  rewrite Hitems.
  set (nodes := map (InputHandler.set_checked false) (itemsOf s)).
  destruct (firstPass_reads nodes (cleared s1) (cleared s) eq_refl eq_refl Hpos)
    as (Hres & Hf & Hh & Hp).
  change (itemsOf (withItems ?l ?x)) with l.
  rewrite Hres.
  apply secondPass_reads; assumption.
Qed.

(** X26: a second call of the resolver, made right after the first with
    the pointer where it was and the candidates answering their tests as
    before, finds the same highest object, and tells one thing only: an
    update to the target that the first call left, or, when the first call
    left no target, over to the highest object, if there is one.  So a
    target whose [update] answers [false] is entered again by the next
    call. *)
Theorem resolver_settles (s : State) :
  let r1 := processInteractiveObjects ext fromClick s in
  let r2 := processInteractiveObjects ext fromClick (final r1) in
  Pointer._highestRenderObject (this (final r2))
  = Pointer._highestRenderObject (this (final r1))
  /\ filter isNotification (trace r2)
     = match Pointer.targetObject (this (final r1)),
             Pointer._highestRenderObject (this (final r1)) with
       | Some t, _ => [UpdateHandler t]
       | None, Some h => [PointerOverHandler h]
       | None, None => []
       end.
Proof.
  cbv zeta.
  pose proof (resolver_again_highest s) as Hagain. cbv zeta in Hagain.
  destruct (resolver_outcome ext fromClick s) as (Hh1 & Ht1 & _).
  destruct (resolver_outcome ext fromClick
              (final (processInteractiveObjects ext fromClick s)))
    as (Hh2 & _ & Hn2).
  rewrite Hagain in Hh2, Hn2. rewrite <- Hh1 in Hh2, Hn2, Ht1.
  rewrite Hh2, Hn2. split; [reflexivity |].
  set (s1 := final (processInteractiveObjects ext fromClick s)) in *.
  destruct (Pointer._highestRenderObject (this s1)) as [h|];
    destruct (Pointer.targetObject (this s1)) as [t|]; try reflexivity.
  - assert (t = h).
    { unfold retargeted in Ht1.
      destruct (Pointer.targetObject (this s)) as [o|]; [| congruence].
      destruct (Nat.eqb o h && _); congruence. }
    subst t. rewrite Nat.eqb_refl. reflexivity.
  - unfold retargeted in Ht1. discriminate Ht1.
Qed.

End ResolverAgain.

(** ** Which test each entry point runs *)

Ltac tests_of :=
  rewrite ?app_nil_r;
  repeat first
    [ apply Forall_nil
    | apply Forall_cons; [reflexivity |]
    | apply Forall_app; split
    | match goal with
      | |- Forall _ (map _ _) =>
          apply Forall_forall; intros ? Hin; apply in_map_iff in Hin;
          destruct Hin as (? & <- & _); reflexivity
      | Htests : Forall (fun x => testFor _ x = true) ?t |- Forall _ ?t =>
          exact Htests
      end ].

Section KindOfTest.

Variable ext : Externals.

Lemma testCall_testFor (fromClick fastTest : bool) (t : list Action) :
  Forall (fun a => exists h, a = testCall fromClick h fastTest) t ->
  Forall (fun a => testFor fromClick a = true) t.
Proof.
  induction 1 as [|a t [h ->] _ IH]; constructor; [| exact IH].
  destruct fromClick; reflexivity.
Qed.

Lemma resolver_tests (fromClick : bool) (s : State) :
  Forall (fun a => testFor fromClick a = true)
         (trace (processInteractiveObjects ext fromClick s)).
Proof.
  destruct (processInteractiveObjects_run ext fromClick s) as (_ & -> & _).
  destruct (cheapPhase_spec ext fromClick s) as (Htr1 & _).
  set (s1 := final (cheapPhase ext fromClick s)) in *.
  rewrite exactPhase_run. cbn [final trace fst snd].
  destruct (secondPass_spec ext fromClick (itemsOf s1) s1) as (_ & Htr2 & _).
  set (s2 := final (secondPass ext fromClick (itemsOf s1) s1)) in *.
  apply Forall_app. split; [exact (testCall_testFor _ _ _ Htr1) |].
  apply Forall_app. split; [exact (testCall_testFor _ _ _ Htr2) |].
  pose proof (notifyTarget_spec ext s2) as H. cbv zeta in H.
  destruct (Pointer._highestRenderObject (this s2)),
           (Pointer.targetObject (this s2));
    try (destruct H as [_ ->]; repeat constructor).
  destruct (Nat.eqb n0 n); [| destruct H as [_ ->]; repeat constructor].
  destruct (update_ ext n _); destruct H as [_ ->]; repeat constructor.
Qed.

Lemma wp_resolver_tests (fromClick : bool) Q s :
  (forall a s' t, Forall (fun x => testFor fromClick x = true) t -> Q a s' t) ->
  wp (processInteractiveObjects ext fromClick) Q s.
Proof. intro H. apply H. apply resolver_tests. Qed.

Lemma move_tests (event : Event.t) (fromClick : bool) (s : State) :
  Forall (fun a => testFor fromClick a = true)
         (trace (move ext event fromClick s)).
Proof.
  change (wp (move ext event fromClick)
            (fun _ _ t => Forall (fun a => testFor fromClick a = true) t) s).
  unfold move.
  repeat lazymatch goal with
         | |- wp (processInteractiveObjects _ _) _ _ =>
             apply wp_resolver_tests; intros ? ? ? Htests; wp_simpl
         | |- _ => wp_step
         end.
  all: tests_of.
Qed.

Lemma wp_move_tests (event : Event.t) (fromClick : bool) Q s :
  (forall a s' t, Forall (fun x => testFor fromClick x = true) t -> Q a s' t) ->
  wp (move ext event fromClick) Q s.
Proof. intro H. apply H. apply move_tests. Qed.

(** X27: each entry point hit-tests in one way only.  A press and the
    forced check of a dirty [update] test the candidates with
    [checkPointerDown] and never with [checkPointerOver]; [leave] tests
    with [checkPointerOver] only; and [move] tests as its [fromClick] flag
    says. *)
Theorem tests_follow_the_caller :
  (forall event s,
     Forall (fun a => testFor true a = true) (trace (start ext event s)))
  /\ (forall s, Forall (fun a => testFor true a = true) (trace (update ext s)))
  /\ (forall event s,
        Forall (fun a => testFor false a = true) (trace (leave ext event s)))
  /\ (forall event fromClick s,
        Forall (fun a => testFor fromClick a = true)
               (trace (move ext event fromClick s))).
Proof.
  conjs.
  - intros event s.
    change (wp (start ext event)
              (fun _ _ t => Forall (fun a => testFor true a = true) t) s).
    unfold start.
    repeat lazymatch goal with
           | |- wp (move _ _ _) _ _ =>
               apply wp_move_tests; intros ? ? ? Htests; wp_simpl
           | |- _ => wp_step
           end.
    all: tests_of.
  - intro s.
    change (wp (update ext)
              (fun _ _ t => Forall (fun a => testFor true a = true) t) s).
    unfold update.
    repeat lazymatch goal with
           | |- wp (processInteractiveObjects _ _) _ _ =>
               apply wp_resolver_tests; intros ? ? ? Htests; wp_simpl
           | |- _ => wp_step
           end.
    all: tests_of.
  - intros event s. unfold leave. rewrite trace_bind. unfold assign at 1.
    cbn [trace result final fst snd app]. apply move_tests.
  - exact move_tests.
Qed.

End KindOfTest.

(** ** Examples *)

Lemma move_ignored_when_poll_locked_witness :
  move (sampleExternals [] []) sampleEvent false lockedTouch
  = (tt, lockedTouch, []).
Proof.
  apply (move_ignored_when_poll_locked (sampleExternals [] []) sampleEvent false
           lockedTouch).
  reflexivity.
Defined.

Lemma move_tracks_position_witness :
  Pointer.x (this (final (move (sampleExternals [] []) sampleEvent false
                            (freshTouch 0 (sampleInput MOUSE_TOUCH_COMBINE 100 [])))))
  = 10.
Proof.
  apply (proj1 (move_tracks_position (sampleExternals [] []) sampleEvent false
                  (freshTouch 0 (sampleInput MOUSE_TOUCH_COMBINE 100 []))
                  eq_refl)).
Defined.

Lemma move_mirrors_when_permitted_witness :
  Input.activePointer
    (Game.input (game (final (move (sampleExternals [] []) sampleEvent false
                                (freshTouch 0 (sampleInput MOUSE_TOUCH_COMBINE 100 []))))))
  = Some 1.
Proof.
  exact (proj1 (move_mirrors_when_permitted (sampleExternals [] []) sampleEvent
                  false (freshTouch 0 (sampleInput MOUSE_TOUCH_COMBINE 100 []))
                  eq_refl)).
Defined.

Lemma move_paused_is_silent_witness :
  trace (move (sampleExternals [1]%nat []) sampleEvent false pausedTouch) = [].
Proof.
  apply (proj1 (move_paused_is_silent (sampleExternals [1]%nat []) sampleEvent
                  false pausedTouch eq_refl)).
Defined.

Lemma move_calls_observers_in_reverse_witness :
  filter isMoveCallback
    (trace (move (sampleExternals [] []) sampleEvent false observedTouch))
  = [MoveCallback 2 10 10 false; MoveCallback 1 10 10 false].
Proof.
  apply (move_calls_observers_in_reverse (sampleExternals [] []) sampleEvent false
           observedTouch); reflexivity.
Defined.

Lemma move_drag_bypasses_resolver_witness :
  trace (move draggingExternals sampleEvent false
           (hovering (Some 1%nat) [candidate 1 5 1 false]))
  = [UpdateHandler 1].
Proof.
  apply (proj1 (move_drag_bypasses_resolver draggingExternals sampleEvent false
                  (hovering (Some 1%nat) [candidate 1 5 1 false]) 1%nat
                  eq_refl eq_refl eq_refl eq_refl)).
Defined.

Lemma move_without_candidates_witness :
  Pointer.targetObject
    (this (final (move (sampleExternals [] []) sampleEvent false
                    (hovering (Some 1%nat) []))))
  = Some 1%nat.
Proof.
  apply (proj1 (move_without_candidates (sampleExternals [] []) sampleEvent false
                  (hovering (Some 1%nat) []) eq_refl (fun d _ => eq_refl))).
Defined.

Lemma update_ignores_inactive_witness :
  let s := freshTouch 0 (sampleInput MOUSE_TOUCH_COMBINE 100 []) in
  update (sampleExternals [] []) s = (tt, s, []).
Proof.
  cbv zeta.
  apply (update_ignores_inactive (sampleExternals [] [])
           (freshTouch 0 (sampleInput MOUSE_TOUCH_COMBINE 100 []))).
  reflexivity.
Defined.




Lemma press_release_restores_pointer_count_witness :
  Input.currentPointers
    (Game.input
       (game (after (Start sampleEvent
                       :: [Move sampleEvent false; Update; Tick 50]
                       ++ [Stop sampleEvent])
                (freshTouch 0 (sampleInput MOUSE_TOUCH_COMBINE 100 [])))))
  = 0.
Proof.
  apply (proj1 (proj2 (press_release_restores_pointer_count
                         (sampleExternals [] []) sampleEvent sampleEvent
                         [Move sampleEvent false; Update; Tick 50]
                         (freshTouch 0 (sampleInput MOUSE_TOUCH_COMBINE 100 []))
                         eq_refl))).
Defined.

Lemma release_suppressed_until_next_press_witness :
  filter isUpSignal
    (trace (forEach [Stop sampleEvent; Update; Stop sampleEvent]
              (step (sampleExternals [] [])) resetTouch))
  = [].
Proof.
  apply (proj1 (proj2 (release_suppressed_until_next_press
                         (sampleExternals [] [])
                         [Stop sampleEvent; Update; Stop sampleEvent]
                         resetTouch eq_refl eq_refl))).
Defined.

Lemma hold_signalled_at_most_once_witness :
  (length (filter isHold
             (trace (forEach [Tick 2500; Update; Move sampleEvent false; Update]
                       (step (sampleExternals [] []))
                       (heldTouch MOUSE_TOUCH_COMBINE))))
   <= 1)%nat.
Proof.
  exact (hold_signalled_at_most_once (sampleExternals [] [])
           [Tick 2500; Update; Move sampleEvent false; Update]
           (heldTouch MOUSE_TOUCH_COMBINE) eq_refl).
Defined.

Lemma touch_inactive_when_up_witness :
  Pointer.active
    (this (after [Start sampleEvent; Update; Stop sampleEvent]
             (freshTouch 0 (sampleInput MOUSE_TOUCH_COMBINE 100 []))))
  = false.
Proof.
  apply (touch_inactive_when_up (sampleExternals [] []) 1
           (sampleGame 0 (sampleInput MOUSE_TOUCH_COMBINE 100 []))
           [Start sampleEvent; Update; Stop sampleEvent]);
    reflexivity.
Defined.

Lemma just_released_window_witness :
  let s := final (forEach [Stop sampleEvent; Tick 100]
                    (step (sampleExternals [] []))
                    (heldTouch MOUSE_TOUCH_COMBINE)) in
  duration s = -1 /\ justReleased None s = true.
Proof.
  cbv zeta.
  destruct (just_released_window (sampleExternals [] []) sampleEvent None 100
              (heldTouch MOUSE_TOUCH_COMBINE) eq_refl) as (H1 & H2 & _).
  split; [exact H1 | exact H2].
Defined.

Lemma update_throttles_history_witness :
  let ext := sampleExternals [] [] in
  let s := heldTouch MOUSE_TOUCH_COMBINE in
  Pointer._history (this (final (update ext (final (update ext s)))))
  = Pointer._history (this (final (update ext s))).
Proof.
  cbv zeta.
  apply (update_throttles_history (sampleExternals [] [])
           (heldTouch MOUSE_TOUCH_COMBINE)).
  reflexivity.
Defined.

Lemma resolver_nothing_under_pointer_witness :
  filter isNotification
    (trace (processInteractiveObjects (sampleExternals [] []) false
              (hovering (Some 1%nat) [candidate 1 5 1 false])))
  = [PointerOutHandler 1].
Proof.
  refine (proj2 (proj2 (proj2
            (resolver_nothing_under_pointer (sampleExternals [] []) false
               (hovering (Some 1%nat) [candidate 1 5 1 false]) _)))).
  intros c [<- | []]. reflexivity.
Defined.

(** A pixel perfect candidate of priority 9 and a plain one of priority 5
    are both under the pointer: the pixel perfect one becomes the target. *)
Lemma resolver_picks_unbeaten_witness :
  Pointer.targetObject
    (this (final (processInteractiveObjects (sampleExternals [1; 2]%nat []) false
                    (hovering None [candidate 1 5 1 false;
                                    candidate 2 9 3 true]))))
  = Some 2%nat.
Proof.
  pose proof (resolver_picks_unbeaten (sampleExternals [1; 2]%nat []) false
                (hovering None [candidate 1 5 1 false; candidate 2 9 3 true]))
    as H.
  cbv zeta in H.
  replace (Pointer._highestRenderObject
             (this (final (processInteractiveObjects
                             (sampleExternals [1; 2]%nat []) false
                             (hovering None [candidate 1 5 1 false;
                                             candidate 2 9 3 true])))))
    with (Some 2%nat) in H by (vm_compute; reflexivity).
  exact (proj2 H).
Defined.
